(** * CentralAuth: a stateless OAuth/OpenID broker

    A shallow embedding of the broker's core (package [domain], the client
    and provider registries, the state-token service, the exchange codec,
    the Steam and Discord providers and the HTTP handlers) together with
    the properties its specification states about them and further
    properties of the code.

    Conventions.
    - A Go [string] is a Rocq [string]; a Go [[]byte] is a [list byte].
    - A [time.Time] is the instant it denotes, in nanoseconds since the
      Unix epoch ([Z]); a [time.Duration] is a number of nanoseconds.
    - A Go [(T, error)] result is a [res T].
    - A Go [map[string]T] is a [gmap string T].
    - Library code (encoding/json, encoding/base64, crypto/hmac,
      crypto/cipher) is taken as a record of operations; what a proof needs
      of a library is an explicit hypothesis of the theorem. *)

From Stdlib Require Import ZArith String Ascii List Lia DecimalString.
From Stdlib Require DecimalZ DecimalPos.
From Stdlib.Strings Require Import Byte.
From stdpp Require Import base option list strings gmap fin_maps sorting.

Local Open Scope string_scope.
Local Open Scope list_scope.
Local Open Scope Z_scope.

(** ** Results and errors *)

Inductive result (E A : Type) : Type :=
| Ok (a : A)
| Err (e : E).
Arguments Ok {E A} a.
Arguments Err {E A} e.

Definition is_Ok {E A} (r : result E A) : Prop :=
  match r with Ok _ => True | Err _ => False end.

Definition is_Err {E A} (r : result E A) : Prop :=
  match r with Ok _ => False | Err _ => True end.

Notation "'let!' x := c1 'in' c2" :=
  (match c1 with Ok x => c2 | Err e => Err e end)
    (at level 10, x name, c1 at level 100, c2 at level 200).

(** ** package domain *)

Module domain.

(** The sentinel errors of [domain/errors.go]. *)
Inductive sentinel : Type :=
| ErrClientNotFound | ErrInvalidAPIKey | ErrCallbackNotAllowed
| ErrProviderNotAllowed | ErrDuplicateClientID
| ErrProviderNotFound | ErrDuplicateProvider | ErrProviderExchange
| ErrProviderUserFetch | ErrMissingProviderParams
| ErrInvalidState | ErrExpiredState | ErrMalformedState
| ErrInvalidExchangeCode | ErrExpiredExchangeCode | ErrClientMismatch
| ErrMissingConfig | ErrInvalidConfig.

#[global] Instance sentinel_eq_dec : EqDecision sentinel.
Proof. solve_decision. Defined.

(** A Go [error] value: a sentinel itself, a sentinel wrapped by
    [fmt.Errorf("%w: ...")], or an error that wraps no sentinel. *)
Inductive error : Type :=
| Sentinel (s : sentinel)
| Wrapped (s : sentinel) (detail : string)
| Other (detail : string).

(** [errors.Is(err, target)] for a sentinel [target]. *)
Definition errors_Is (err : error) (target : sentinel) : bool :=
  match err with
  | Sentinel s | Wrapped s _ => bool_decide (s = target)
  | Other _ => false
  end.

Record UserInfo := {
  ProviderName : string;
  ProviderID : string;
  Username : string;
  DisplayName : string;
  AvatarURL : string;
  Email : string
}.

Record AuthResult := { User : UserInfo }.

Record StatePayload := {
  sp_ClientID : string;
  sp_Provider : string;
  sp_RedirectURI : string;
  sp_Nonce : string;
  sp_ExpiresAt : Z
}.

Record ExchangePayload := {
  ep_ClientID : string;
  ep_ExpiresAt : Z;
  ep_User : UserInfo
}.

Record ClientApp := {
  ID : string;
  Name : string;
  APIKey : string;
  AllowedCallbacks : list string;
  AllowedProviders : list string
}.

End domain.
Import domain.

Abbreviation res := (result domain.error).

(** ** Library functions with a fixed meaning *)

(** [hmac.Equal(a, b)]: true exactly when the two byte strings have the
    same length and the same contents (the comparison time does not
    depend on the contents, which has no counterpart here). *)
Definition hmac_Equal (a b : string) : bool := bool_decide (a = b).

(** [strings.TrimPrefix(s, prefix)]. *)
Fixpoint strip_prefix (prefix s : string) : option string :=
  match prefix, s with
  | EmptyString, _ => Some s
  | String p prefix', String c s' =>
      if Ascii.eqb p c then strip_prefix prefix' s' else None
  | String _ _, EmptyString => None
  end.

Definition TrimPrefix (s prefix : string) : string :=
  match strip_prefix prefix s with
  | Some rest => rest
  | None => s
  end.

(** [strings.SplitN(s, ".", 2)]: the whole string when it holds no dot,
    else the text before the first dot and the text after it. *)
Fixpoint cut_dot (s : string) : option (string * string) :=
  match s with
  | EmptyString => None
  | String c s' =>
      if Ascii.eqb c "." then Some (EmptyString, s')
      else match cut_dot s' with
           | Some (before, after) => Some (String c before, after)
           | None => None
           end
  end.

Definition SplitN_dot_2 (s : string) : list string :=
  match cut_dot s with
  | Some (before, after) => [before; after]
  | None => [s]
  end.

(** [strings.HasPrefix(s, prefix)]. *)
Definition HasPrefix (s prefix : string) : bool :=
  match strip_prefix prefix s with Some _ => true | None => false end.

(** [strings.Contains(s, substr)]. *)
Fixpoint Contains (s substr : string) : bool :=
  if HasPrefix s substr then true
  else match s with
       | EmptyString => false
       | String _ s' => Contains s' substr
       end.

(** [time.Time.After] and [time.Time.Add] on instants, and the duration
    constants of package [time]. *)
Definition After (t u : Z) : bool := u <? t.
Definition Add (t d : Z) : Z := t + d.
Definition Second : Z := 1000000000.
Definition Minute : Z := 60 * Second.

(** [hex.EncodeToString]: two lower-case hexadecimal digits per byte. *)
Definition hexdigit (n : N) : ascii :=
  match n with
  | 0 => "0" | 1 => "1" | 2 => "2" | 3 => "3" | 4 => "4" | 5 => "5"
  | 6 => "6" | 7 => "7" | 8 => "8" | 9 => "9" | 10 => "a" | 11 => "b"
  | 12 => "c" | 13 => "d" | 14 => "e" | _ => "f"
  end%N%char.

Fixpoint hex_EncodeToString (src : list byte) : string :=
  match src with
  | [] => EmptyString
  | b :: rest =>
      let n := Byte.to_N b in
      String (hexdigit (n / 16)) (String (hexdigit (n mod 16))
        (hex_EncodeToString rest))
  end.

(** ** package unicode/utf8

    The encodings the package accepts, after its tables [first] and
    [acceptRanges]: one byte below [0x80]; [0xC2]-[0xDF] and one
    continuation byte; [0xE0]-[0xEF] and two; [0xF0]-[0xF4] and three,
    where the byte after [0xE0], [0xED], [0xF0] and [0xF4] is held to
    [0xA0]-[0xBF], [0x80]-[0x9F], [0x90]-[0xBF] and [0x80]-[0x8F]. *)

Module utf8.

Definition between (lo hi : N) (c : ascii) : bool :=
  ((lo <=? N_of_ascii c) && (N_of_ascii c <=? hi))%N.

(** A continuation byte, [0x80] to [0xBF]. *)
Definition continuation : ascii -> bool := between 128 191.

(** The size [DecodeRuneInString] reports at the start of [s]: the
    number of bytes of the encoding that starts there, [None] where it
    reports [RuneError] with size 1, because no encoding starts there
    (or because [s] is empty). *)
Definition rune_size (s : string) : option nat :=
  match s with
  | EmptyString => None
  | String c0 rest =>
      let b0 := N_of_ascii c0 in
      if (b0 <? 128)%N then Some 1%nat
      else if between 194 223 c0 then
        match rest with
        | String c1 _ => if continuation c1 then Some 2%nat else None
        | _ => None
        end
      else if between 224 239 c0 then
        match rest with
        | String c1 (String c2 _) =>
            if between (if (b0 =? 224)%N then 160 else 128)
                 (if (b0 =? 237)%N then 159 else 191) c1
               && continuation c2
            then Some 3%nat else None
        | _ => None
        end
      else if between 240 244 c0 then
        match rest with
        | String c1 (String c2 (String c3 _)) =>
            if between (if (b0 =? 240)%N then 144 else 128)
                 (if (b0 =? 244)%N then 143 else 191) c1
               && continuation c2 && continuation c3
            then Some 4%nat else None
        | _ => None
        end
      else None
  end.

(** [pending] counts the bytes of the current encoding that are still
    to come. *)
Fixpoint valid_after (pending : nat) (s : string) : bool :=
  match s with
  | EmptyString => match pending with O => true | S _ => false end
  | String _ rest =>
      match pending with
      | S pending' => valid_after pending' rest
      | O =>
          match rune_size s with
          | Some (S pending') => valid_after pending' rest
          | _ => false
          end
      end
  end.

(** [utf8.ValidString]: the string is made of encodings only. *)
Definition ValidString (s : string) : bool := valid_after 0 s.

(** U+FFFD, the replacement character, in UTF-8. *)
Definition replacement : string :=
  String (ascii_of_N 239) (String (ascii_of_N 191)
    (String (ascii_of_N 189) EmptyString)).

End utf8.

(** [crypto/rand.Read(b)] against a tape of entropy: it fills the whole
    buffer of [n] bytes from the tape, or fails and reads nothing. *)
Definition rand_Read (n : nat) (entropy : list byte)
  : option (list byte * list byte) :=
  if (n <=? length entropy)%nat then Some (take n entropy, drop n entropy)
  else None.

(** ** Library interfaces *)

(** [base64.RawURLEncoding]. *)
Record Base64 := {
  EncodeToString : list byte -> string;
  DecodeString : string -> option (list byte)
}.

(** Decoding undoes encoding. *)
Definition base64_lossless (B : Base64) : Prop :=
  forall src, DecodeString B (EncodeToString B src) = Some src.

(** The alphabet of the encoding holds no dot. *)
Definition base64_no_dot (B : Base64) : Prop :=
  forall src, cut_dot (EncodeToString B src) = None.

(** [json.Marshal] and [json.Unmarshal] at a Go type [T]. [Marshal]
    can fail (an instant whose year has more than four digits has no
    JSON form), and so can [Unmarshal]. *)
Record JSON (T : Type) := {
  Marshal : T -> option (list byte);
  Unmarshal : list byte -> option T
}.
Arguments Marshal {T} _ _.
Arguments Unmarshal {T} _ _.


(** A Go string as encoding/json hands it back: [Marshal] writes strings
    coerced to valid UTF-8, that is, it copies each encoding and writes
    [\ufffd] for each byte where none starts, and [Unmarshal] reads
    that as U+FFFD. [pending] counts the bytes of the current encoding
    that are still to copy. *)
Fixpoint coerced_after (pending : nat) (s : string) : string :=
  match s with
  | EmptyString => EmptyString
  | String c rest =>
      match pending with
      | S pending' => String c (coerced_after pending' rest)
      | O =>
          match utf8.rune_size s with
          | Some (S pending') => String c (coerced_after pending' rest)
          | _ => utf8.replacement +:+ coerced_after 0 rest
          end
      end
  end.

Definition coerced (s : string) : string := coerced_after 0 s.

(** The payloads with their strings coerced, and the payloads that hold
    valid UTF-8 only. An instant is not changed by JSON. *)
Definition coerced_UserInfo (u : UserInfo) : UserInfo :=
  {| ProviderName := coerced (ProviderName u);
     ProviderID := coerced (ProviderID u);
     Username := coerced (Username u);
     DisplayName := coerced (DisplayName u);
     AvatarURL := coerced (AvatarURL u);
     Email := coerced (Email u) |}.

Definition coerced_StatePayload (p : StatePayload) : StatePayload :=
  {| sp_ClientID := coerced (sp_ClientID p);
     sp_Provider := coerced (sp_Provider p);
     sp_RedirectURI := coerced (sp_RedirectURI p);
     sp_Nonce := coerced (sp_Nonce p);
     sp_ExpiresAt := sp_ExpiresAt p |}.

Definition coerced_ExchangePayload (p : ExchangePayload) : ExchangePayload :=
  {| ep_ClientID := coerced (ep_ClientID p);
     ep_ExpiresAt := ep_ExpiresAt p;
     ep_User := coerced_UserInfo (ep_User p) |}.

Definition valid_UserInfo (u : UserInfo) : bool :=
  utf8.ValidString (ProviderName u) && utf8.ValidString (ProviderID u)
  && utf8.ValidString (Username u) && utf8.ValidString (DisplayName u)
  && utf8.ValidString (AvatarURL u) && utf8.ValidString (Email u).

Definition valid_ExchangePayload (p : ExchangePayload) : bool :=
  utf8.ValidString (ep_ClientID p) && valid_UserInfo (ep_User p).

(** What encoding/json does for every value of a type: what [Unmarshal]
    reads from what [Marshal] wrote is the value with its strings
    coerced. *)
Definition json_coerces {T} (coerced_value : T -> T) (J : JSON T) : Prop :=
  forall v data,
    Marshal J v = Some data -> Unmarshal J data = Some (coerced_value v).

(** [cipher.AEAD]. [Seal nonce plaintext ad] is the ciphertext followed
    by the tag (what [Seal] appends to its [dst]). *)
Record AEAD := {
  NonceSize : nat;
  Seal : list byte -> list byte -> list byte -> list byte;
  Open : list byte -> list byte -> list byte -> option (list byte)
}.

(** Opening what was sealed under the same nonce and data succeeds. *)
Definition aead_correct (a : AEAD) : Prop :=
  forall nonce plaintext ad,
    length nonce = NonceSize a ->
    Open a nonce (Seal a nonce plaintext ad) ad = Some plaintext.

(** The libraries the broker is linked against. [aes_gcm key] is
    AES-GCM under [key]; [url_set_query uri k v] is [url.Parse(uri)]
    followed by setting the query parameter [k] to [v] and printing the
    URL, [None] when the parse fails. *)
Record Libraries := {
  RawURLEncoding : Base64;
  hmac_sha256 : list byte -> list byte -> list byte;
  json_StatePayload : JSON StatePayload;
  json_ExchangePayload : JSON ExchangePayload;
  aes_gcm : list byte -> AEAD;
  url_set_query : string -> string -> string -> option string
}.

(** ** package client *)

Module client.

Record Registry := {
  byID : gmap string ClientApp;
  byAPIKey : gmap string ClientApp
}.

(** The body of the [for i := range clients] loop of [NewRegistry],
    started from the registry built so far. *)
Fixpoint NewRegistry_loop (clients : list ClientApp) (r : Registry)
  : res Registry :=
  match clients with
  | [] => Ok r
  | c :: rest =>
      match byID r !! ID c with
      | Some _ => Err (Wrapped ErrDuplicateClientID (ID c))
      | None =>
          NewRegistry_loop rest
            {| byID := <[ID c := c]> (byID r);
               byAPIKey := <[APIKey c := c]> (byAPIKey r) |}
      end
  end.

Definition NewRegistry (clients : list ClientApp) : res Registry :=
  NewRegistry_loop clients {| byID := ∅; byAPIKey := ∅ |}.

Definition Get (r : Registry) (clientID : string) : res ClientApp :=
  match byID r !! clientID with
  | Some c => Ok c
  | None => Err (Sentinel ErrClientNotFound)
  end.

(** The [for key, c := range r.byAPIKey] loop over the map's entries,
    taken in the order [entries]. *)
Fixpoint scanAPIKeys (entries : list (string * ClientApp)) (apiKey : string)
  : res ClientApp :=
  match entries with
  | [] => Err (Sentinel ErrInvalidAPIKey)
  | (key, c) :: rest =>
      if hmac_Equal key apiKey then Ok c else scanAPIKeys rest apiKey
  end.

(** Go leaves the iteration order of a map unspecified; [map_to_list]
    fixes one, and [scanAPIKeys_order] below shows that the outcome does
    not depend on it. *)
Definition GetByAPIKey (r : Registry) (apiKey : string) : res ClientApp :=
  scanAPIKeys (map_to_list (byAPIKey r)) apiKey.

Fixpoint contains (l : list string) (x : string) : bool :=
  match l with
  | [] => false
  | allowed :: rest => if bool_decide (allowed = x) then true else contains rest x
  end.

Definition ValidateCallback (r : Registry) (clientID callbackURI : string)
  : res unit :=
  let! c := Get r clientID in
  if contains (AllowedCallbacks c) callbackURI then Ok tt
  else Err (Sentinel ErrCallbackNotAllowed).

Definition ValidateProvider (r : Registry) (clientID provider : string)
  : res unit :=
  let! c := Get r clientID in
  if contains (AllowedProviders c) provider then Ok tt
  else Err (Sentinel ErrProviderNotAllowed).

End client.

(** ** package state *)

Module state.

Definition defaultExpiry : Z := 5 * Minute.
Definition nonceBytes : nat := 16.

(** [now] is the service's clock: it maps the reading of the system
    clock at the time of a call to the time the service works with.
    [time.Now] is the identity; a test replaces it by a constant. *)
Record Service := {
  key : list byte;
  expiry : Z;
  now : Z -> Z
}.

Definition NewService (key : list byte) : Service :=
  {| key := key; expiry := defaultExpiry; now := fun wall => wall |}.

Definition SetNow (s : Service) (fn : Z -> Z) : Service :=
  {| key := key s; expiry := expiry s; now := fn |}.

(** The two assignments [payload.Nonce = ...] and
    [payload.ExpiresAt = ...] that [Generate] makes to its copy of the
    payload. *)
Definition stamp (payload : StatePayload) (nonce : string) (expiresAt : Z)
  : StatePayload :=
  {| sp_ClientID := sp_ClientID payload;
     sp_Provider := sp_Provider payload;
     sp_RedirectURI := sp_RedirectURI payload;
     sp_Nonce := nonce;
     sp_ExpiresAt := expiresAt |}.

Section WithLibraries.
Context (L : Libraries).

Definition sign (s : Service) (data : string) : string :=
  EncodeToString (RawURLEncoding L)
    (hmac_sha256 L (key s) (list_byte_of_string data)).

(** [Generate] reads the system clock ([wall]) and draws its nonce
    from [entropy]; it returns what is left of the entropy. *)
Definition Generate (s : Service) (payload : StatePayload)
    (entropy : list byte) (wall : Z) : res string * list byte :=
  match rand_Read nonceBytes entropy with
  | None => (Err (Other "generating nonce"), entropy)
  | Some (nonce, entropy') =>
      let payload :=
        stamp payload (hex_EncodeToString nonce)
          (Add (now s wall) (expiry s)) in
      match Marshal (json_StatePayload L) payload with
      | None => (Err (Other "marshaling state payload"), entropy')
      | Some data =>
          let encoded := EncodeToString (RawURLEncoding L) data in
          let sig := sign s encoded in
          (Ok (encoded +:+ "." +:+ sig), entropy')
      end
  end.

Definition Validate (s : Service) (token : string) (wall : Z)
  : res StatePayload :=
  match SplitN_dot_2 token with
  | [encoded; sig] =>
      let expectedSig := sign s encoded in
      if negb (hmac_Equal sig expectedSig) then
        Err (Sentinel ErrInvalidState)
      else
        match DecodeString (RawURLEncoding L) encoded with
        | None => Err (Sentinel ErrMalformedState)
        | Some data =>
            match Unmarshal (json_StatePayload L) data with
            | None => Err (Sentinel ErrMalformedState)
            | Some payload =>
                if After (now s wall) (sp_ExpiresAt payload) then
                  Err (Sentinel ErrExpiredState)
                else Ok payload
            end
        end
  | _ => Err (Sentinel ErrMalformedState)
  end.

End WithLibraries.

End state.

(** ** package exchange *)

Module exchange.

Definition defaultCodeExpiry : Z := 30 * Second.

Record Codec := {
  aead : AEAD;
  expiry : Z;
  now : Z -> Z
}.

Definition SetNow (c : Codec) (fn : Z -> Z) : Codec :=
  {| aead := aead c; expiry := expiry c; now := fn |}.

(** The assignment [payload.ExpiresAt = ...] that [Encode] makes to
    its copy of the payload. *)
Definition stamp (payload : ExchangePayload) (expiresAt : Z)
  : ExchangePayload :=
  {| ep_ClientID := ep_ClientID payload;
     ep_ExpiresAt := expiresAt;
     ep_User := ep_User payload |}.

Section WithLibraries.
Context (L : Libraries).

(** [aes.NewCipher(key)]: the key selects AES-128, AES-192 or
    AES-256 by its length of 16, 24 or 32 bytes; any other length is
    a [KeySizeError]. The block is represented by its key. *)
Definition aes_NewCipher (key : list byte) : res (list byte) :=
  if bool_decide (length key ∈ [16; 24; 32]%nat) then Ok key
  else Err (Other "crypto/aes: invalid key size").

(** [cipher.NewGCM(block)] fails only for a cipher whose block size
    is not 16 bytes, which AES never is. *)
Definition cipher_NewGCM (block : list byte) : res AEAD :=
  Ok (aes_gcm L block).

Definition NewCodec (key : list byte) : res Codec :=
  match aes_NewCipher key with
  | Err _ => Err (Other "creating AES cipher")
  | Ok block =>
      match cipher_NewGCM block with
      | Err _ => Err (Other "creating GCM")
      | Ok aead =>
          Ok {| aead := aead;
                expiry := defaultCodeExpiry;
                now := fun wall => wall |}
      end
  end.

Definition Encode (c : Codec) (payload : ExchangePayload)
    (entropy : list byte) (wall : Z) : res string * list byte :=
  let payload := stamp payload (Add (now c wall) (expiry c)) in
  match Marshal (json_ExchangePayload L) payload with
  | None => (Err (Other "marshaling exchange payload"), entropy)
  | Some plaintext =>
      match rand_Read (NonceSize (aead c)) entropy with
      | None => (Err (Other "generating nonce"), entropy)
      | Some (nonce, entropy') =>
          let ciphertext := (nonce ++ Seal (aead c) nonce plaintext [])%list in
          (Ok (EncodeToString (RawURLEncoding L) ciphertext), entropy')
      end
  end.

Definition Decode (c : Codec) (code : string) (wall : Z)
  : res ExchangePayload :=
  match DecodeString (RawURLEncoding L) code with
  | None => Err (Sentinel ErrInvalidExchangeCode)
  | Some raw =>
      if (length raw <? NonceSize (aead c))%nat then
        Err (Sentinel ErrInvalidExchangeCode)
      else
        let nonce := take (NonceSize (aead c)) raw in
        let ciphertext := drop (NonceSize (aead c)) raw in
        match Open (aead c) nonce ciphertext [] with
        | None => Err (Sentinel ErrInvalidExchangeCode)
        | Some plaintext =>
            match Unmarshal (json_ExchangePayload L) plaintext with
            | None => Err (Sentinel ErrInvalidExchangeCode)
            | Some payload =>
                if After (now c wall) (ep_ExpiresAt payload) then
                  Err (Sentinel ErrExpiredExchangeCode)
                else Ok payload
            end
        end
  end.

End WithLibraries.

End exchange.

(** The last record of a client list whose projection [proj] (the id,
    or the API key) is [k]: the record under which the loop of
    [NewRegistry] leaves the key [k], as [client_facts] shows. *)
Definition latest (proj : ClientApp -> string) (k : string)
    (cs : list ClientApp) : option ClientApp :=
  last (filter (fun c => proj c = k) cs).

(** ** package auth *)

Module auth.

(** The [Provider] interface. [Exchange] talks to the identity
    provider; here it is the outcome of that conversation as a function
    of the callback parameters. *)
Record Provider := {
  Name : string;
  AuthURL : string -> res string;
  Exchange : gmap string string -> res AuthResult
}.

Record Registry := { providers : gmap string Provider }.

Definition NewRegistry : Registry := {| providers := ∅ |}.

Definition Register (r : Registry) (p : Provider) : res Registry :=
  let name := Name p in
  match providers r !! name with
  | Some _ => Err (Wrapped ErrDuplicateProvider name)
  | None => Ok {| providers := <[name := p]> (providers r) |}
  end.

Definition Get (r : Registry) (name : string) : res Provider :=
  match providers r !! name with
  | Some p => Ok p
  | None => Err (Sentinel ErrProviderNotFound)
  end.

(** [Names]: the names met by the [for name := range r.providers] loop.
    Go leaves the order of the loop unspecified; [map_to_list] fixes
    one. *)
Definition Names (r : Registry) : list string :=
  (map_to_list (providers r)).*1.

End auth.

(** ** package regexp, for the one pattern the broker compiles *)

Module regexp.

(** The pieces a pattern is a sequence of: a literal text, an optional
    character [c?], and the capturing group [(\d+)]. *)
Inductive item : Type :=
| Lit (s : string)
| Opt (c : ascii)
| CaptureDigits.

(** [\d] is an ASCII digit. *)
Definition is_digit (c : ascii) : bool :=
  ((48 <=? nat_of_ascii c) && (nat_of_ascii c <=? 57))%nat.

(** The texts [\d*] matches. *)
Fixpoint digits_only (s : string) : bool :=
  match s with
  | EmptyString => true
  | String c s' => is_digit c && digits_only s'
  end.

(** A text that does not go on with a digit. *)
Definition ends_digits (rest : string) : Prop :=
  match rest with
  | EmptyString => True
  | String c _ => is_digit c = false
  end.

(** Greedy [\d*] after the digits [taken]: the longest run first, then
    shorter ones, until the continuation [k] accepts. *)
Fixpoint star_digits {A} (k : string -> string -> option A)
    (taken s : string) : option A :=
  match s with
  | String c s' =>
      if is_digit c then
        match star_digits k (taken +:+ String c EmptyString) s' with
        | Some r => Some r
        | None => k taken s
        end
      else k taken s
  | EmptyString => k taken s
  end.

(** A match of the whole sequence at the start of [s]: the captured
    groups and the unread rest of [s]. Alternatives are tried in the
    order of a backtracking matcher, which is the order of preference of
    Go's leftmost-first semantics. *)
Fixpoint match_here (items : list item) (s : string)
  : option (list string * string) :=
  match items with
  | [] => Some ([], s)
  | Lit l :: items' =>
      match strip_prefix l s with
      | Some s' => match_here items' s'
      | None => None
      end
  | Opt c :: items' =>
      match s with
      | String c' s' =>
          if Ascii.eqb c c' then
            match match_here items' s' with
            | Some r => Some r
            | None => match_here items' s
            end
          else match_here items' s
      | EmptyString => match_here items' s
      end
  | CaptureDigits :: items' =>
      match s with
      | String c s' =>
          if is_digit c then
            star_digits
              (fun taken rest =>
                 match match_here items' rest with
                 | Some (groups, rest') => Some (taken :: groups, rest')
                 | None => None
                 end)
              (String c EmptyString) s'
          else None
      | EmptyString => None
      end
  end.

(** The leftmost match in [s]: the matched text and the groups. *)
Fixpoint find (items : list item) (s : string)
  : option (string * list string) :=
  match match_here items s with
  | Some (groups, rest) =>
      Some (substring 0 (String.length s - String.length rest) s, groups)
  | None =>
      match s with
      | String _ s' => find items s'
      | EmptyString => None
      end
  end.

(** [Regexp.FindStringSubmatch]: the match followed by its groups,
    or [nil]. *)
Definition FindStringSubmatch (re : list item) (s : string) : list string :=
  match find re s with
  | Some (whole, groups) => whole :: groups
  | None => []
  end.

End regexp.

(** ** package steam *)

Module steam.

Import regexp.

Definition providerName : string := "steam".

(** [https?://steamcommunity\.com/openid/id/(\d+)] *)
Definition steamIDRegex : list item :=
  [Lit "http"; Opt "s"; Lit "://steamcommunity.com/openid/id/";
   CaptureDigits].

Record Config := {
  APIKey : string;
  Realm : string;
  CallbackURL : string
}.

(** An outbound request: the method, the URL without its query, and
    the url-encoded values sent as the query (GET) or the body (POST). *)
Record HTTPRequest := {
  Method : string;
  URL : string;
  Values : gmap string string
}.

(** A response; [Body] is [None] when reading the body fails. *)
Record HTTPResponse := {
  StatusCode : Z;
  Body : option string
}.

(** One player of a [playerSummaryResponse]. *)
Record Player := {
  SteamID : string;
  PersonaName : string;
  AvatarFull : string;
  ProfileURL : string;
  RealName : string
}.

(** [httpClient] is [http.Client.Do]: [None] when the round trip
    fails. *)
Record Provider := {
  cfg : Config;
  httpClient : HTTPRequest -> option HTTPResponse;
  openIDEndpoint : string;
  playerSummaryURL : string
}.

Definition extractSteamID (claimedID : string) : res string :=
  let matches := FindStringSubmatch steamIDRegex claimedID in
  if (length matches <? 2)%nat then
    Err (Wrapped ErrProviderExchange "cannot extract Steam ID")
  else Ok (nth 1 matches EmptyString).

Section WithJSON.
(** [json.Unmarshal] at [playerSummaryResponse]: the players of the
    response, [None] when the body is not valid JSON for it. *)
Context (unmarshalPlayers : string -> option (list Player)).

(** The functions below return, next to their result, the requests
    they sent, in order. *)

Definition validateAssertion (p : Provider) (params : gmap string string)
  : res unit * list HTTPRequest :=
  let verifyParams :=
    <["openid.mode" := "check_authentication"]>
      (filter (fun kv => HasPrefix kv.1 "openid." = true) params) in
  let req := {| Method := "POST"; URL := openIDEndpoint p;
                Values := verifyParams |} in
  match httpClient p req with
  | None => (Err (Wrapped ErrProviderExchange "request failed"), [req])
  | Some resp =>
      match Body resp with
      | None =>
          (Err (Wrapped ErrProviderExchange "reading response"), [req])
      | Some body =>
          if negb (Contains body "is_valid:true") then
            (Err (Wrapped ErrProviderExchange "assertion not valid"), [req])
          else (Ok tt, [req])
      end
  end.

Definition fetchPlayerSummary (p : Provider) (steamID : string)
  : res UserInfo * list HTTPRequest :=
  let params : gmap string string :=
    <["key" := APIKey (cfg p)]> (<["steamids" := steamID]> ∅) in
  let req := {| Method := "GET"; URL := playerSummaryURL p;
                Values := params |} in
  match httpClient p req with
  | None => (Err (Wrapped ErrProviderUserFetch "request failed"), [req])
  | Some resp =>
      match Body resp with
      | None =>
          (Err (Wrapped ErrProviderUserFetch "reading response"), [req])
      | Some body =>
          if negb (StatusCode resp =? 200) then
            (Err (Wrapped ErrProviderUserFetch "status"), [req])
          else
            match unmarshalPlayers body with
            | None =>
                (Err (Wrapped ErrProviderUserFetch "invalid JSON"), [req])
            | Some [] =>
                (Err (Wrapped ErrProviderUserFetch
                        "no player data returned"), [req])
            | Some (player :: _) =>
                (Ok {| ProviderName := providerName;
                       ProviderID := SteamID player;
                       Username := PersonaName player;
                       DisplayName := PersonaName player;
                       AvatarURL := AvatarFull player;
                       Email := EmptyString |}, [req])
            end
      end
  end.

Definition Exchange (p : Provider) (params : gmap string string)
  : res AuthResult * list HTTPRequest :=
  match params !! "openid.claimed_id" with
  | None | Some EmptyString =>
      (Err (Sentinel ErrMissingProviderParams), [])
  | Some claimedID =>
      match validateAssertion p params with
      | (Err e, sent) => (Err e, sent)
      | (Ok _, sent) =>
          match extractSteamID claimedID with
          | Err e => (Err e, sent)
          | Ok steamID =>
              match fetchPlayerSummary p steamID with
              | (Err e, sent') => (Err e, (sent ++ sent')%list)
              | (Ok user, sent') =>
                  (Ok {| User := user |}, (sent ++ sent')%list)
              end
          end
      end
  end.

End WithJSON.

End steam.

(** ** package discord *)

Module discord.

Definition providerName : string := "discord".

Record Config := {
  ClientID : string;
  ClientSecret : string;
  Scopes : list string;
  CallbackURL : string
}.

(** An outbound request: the method, the URL, the url-encoded form sent
    as the body, and the headers the provider sets (the empty string for
    a header that is not set). *)
Record HTTPRequest := {
  Method : string;
  URL : string;
  Form : gmap string string;
  ContentType : string;
  Authorization : string
}.

(** A response; [Body] is [None] when reading the body fails. *)
Record HTTPResponse := {
  StatusCode : Z;
  Body : option string
}.

Record tokenResponse := {
  AccessToken : string;
  TokenType : string
}.

Record discordUser := {
  du_ID : string;
  du_Username : string;
  du_GlobalName : string;
  du_Avatar : string;
  du_Email : string;
  du_Discriminator : string
}.

(** [httpClient] is [http.Client.Do]: [None] when the round trip
    fails. The URLs of a provider are taken to parse, so that
    [http.NewRequestWithContext] does not fail. *)
Record Provider := {
  cfg : Config;
  httpClient : HTTPRequest -> option HTTPResponse;
  authEndpoint : string;
  tokenURL : string;
  userURL : string
}.

Section WithJSON.
(** [json.Unmarshal] at [tokenResponse] and at [discordUser]: [None]
    when the body is not valid JSON for the type; a field the body does
    not have is the empty string. *)
Context (unmarshalToken : string -> option tokenResponse).
Context (unmarshalUser : string -> option discordUser).

(** The functions below return, next to their result, the requests
    they sent, in order. *)

Definition exchangeCode (p : Provider) (code : string)
  : res string * list HTTPRequest :=
  let data : gmap string string :=
    <["client_id" := ClientID (cfg p)]>
      (<["client_secret" := ClientSecret (cfg p)]>
         (<["grant_type" := "authorization_code"]>
            (<["code" := code]>
               (<["redirect_uri" := CallbackURL (cfg p)]> ∅)))) in
  let req := {| Method := "POST"; URL := tokenURL p; Form := data;
                ContentType := "application/x-www-form-urlencoded";
                Authorization := EmptyString |} in
  match httpClient p req with
  | None => (Err (Wrapped ErrProviderExchange "request failed"), [req])
  | Some resp =>
      match Body resp with
      | None => (Err (Wrapped ErrProviderExchange "reading response"), [req])
      | Some body =>
          if negb (StatusCode resp =? 200) then
            (Err (Wrapped ErrProviderExchange "status"), [req])
          else
            match unmarshalToken body with
            | None => (Err (Wrapped ErrProviderExchange "invalid JSON"), [req])
            | Some tokenResp =>
                if bool_decide (AccessToken tokenResp = EmptyString) then
                  (Err (Wrapped ErrProviderExchange "empty access token"),
                   [req])
                else (Ok (AccessToken tokenResp), [req])
            end
      end
  end.

Definition fetchUser (p : Provider) (accessToken : string)
  : res UserInfo * list HTTPRequest :=
  let req := {| Method := "GET"; URL := userURL p; Form := ∅;
                ContentType := EmptyString;
                Authorization := "Bearer " +:+ accessToken |} in
  match httpClient p req with
  | None => (Err (Wrapped ErrProviderUserFetch "request failed"), [req])
  | Some resp =>
      match Body resp with
      | None => (Err (Wrapped ErrProviderUserFetch "reading response"), [req])
      | Some body =>
          if negb (StatusCode resp =? 200) then
            (Err (Wrapped ErrProviderUserFetch "status"), [req])
          else
            match unmarshalUser body with
            | None =>
                (Err (Wrapped ErrProviderUserFetch "invalid JSON"), [req])
            | Some du =>
                let avatarURL :=
                  if negb (bool_decide (du_Avatar du = EmptyString)) then
                    "https://cdn.discordapp.com/avatars/" +:+ du_ID du
                      +:+ "/" +:+ du_Avatar du +:+ ".png"
                  else EmptyString in
                let displayName :=
                  if bool_decide (du_GlobalName du = EmptyString)
                  then du_Username du else du_GlobalName du in
                (Ok {| ProviderName := providerName;
                       ProviderID := du_ID du;
                       Username := du_Username du;
                       DisplayName := displayName;
                       AvatarURL := avatarURL;
                       Email := du_Email du |}, [req])
            end
      end
  end.

Definition Exchange (p : Provider) (params : gmap string string)
  : res AuthResult * list HTTPRequest :=
  match params !! "code" with
  | None | Some EmptyString => (Err (Sentinel ErrMissingProviderParams), [])
  | Some code =>
      match exchangeCode p code with
      | (Err e, sent) => (Err e, sent)
      | (Ok token, sent) =>
          match fetchUser p token with
          | (Err e, sent') => (Err e, sent ++ sent')
          | (Ok user, sent') => (Ok {| User := user |}, sent ++ sent')
          end
      end
  end.

End WithJSON.

End discord.

(** ** package handler *)

Module handler.

Definition StatusOK : Z := 200.
Definition StatusFound : Z := 302.
Definition StatusBadRequest : Z := 400.
Definition StatusUnauthorized : Z := 401.
Definition StatusForbidden : Z := 403.
Definition StatusInternalServerError : Z := 500.
Definition StatusBadGateway : Z := 502.

(** What a handler reads of an [http.Request]: the path wildcards, the
    parsed query ([url.Values]) and the headers. *)
Record Request := {
  PathValues : gmap string string;
  Query : gmap string (list string);
  Header : gmap string (list string)
}.

(** [r.PathValue(name)] *)
Definition PathValue (r : Request) (name : string) : string :=
  default EmptyString (PathValues r !! name).

(** [url.Values.Get] and [http.Header.Get]: the first value, or the
    empty string. *)
Definition Values_Get (v : gmap string (list string)) (key : string)
  : string :=
  match v !! key with
  | Some (x :: _) => x
  | _ => EmptyString
  end.

(** The body of a response: [{"error": msg}], [{"user": ...}], or the
    page [http.Redirect] writes. *)
Inductive Body : Type :=
| ErrorJSON (msg : string)
| AuthResultJSON (result : AuthResult)
| RedirectPage (url : string).

Record Response := {
  Code : Z;
  ContentType : string;
  Location : option string;
  ResponseBody : Body
}.

(** Modelled from the spec: [writeError] is defined in a file of package
    [handler] that is not part of the sources at hand. All JSON response
    bodies set [Content-Type: application/json]; all error bodies are
    [{"error": "<message>"}]. *)
Definition writeError (status : Z) (msg : string) : Response :=
  {| Code := status; ContentType := "application/json";
     Location := None; ResponseBody := ErrorJSON msg |}.

(** Modelled from the spec: [writeJSON], of the same absent file. The
    success body of GET /exchange is [{"user": ...}], sent as
    [application/json]. *)
Definition writeJSON (status : Z) (v : AuthResult) : Response :=
  {| Code := status; ContentType := "application/json";
     Location := None; ResponseBody := AuthResultJSON v |}.

(** [http.Redirect(w, r, url, code)] *)
Definition Redirect (url : string) (code : Z) : Response :=
  {| Code := code; ContentType := "text/html; charset=utf-8";
     Location := Some url; ResponseBody := RedirectPage url |}.

(** The user profile a response body discloses, if any. *)
Definition disclosed_user (resp : Response) : option UserInfo :=
  match ResponseBody resp with
  | AuthResultJSON result => Some (User result)
  | _ => None
  end.

(** The zero [time.Time], January 1 of year 1. *)
Definition zeroTime : Z := -62135596800 * Second.

Section WithLibraries.
Context (L : Libraries).

(** GET /auth/{provider}. [entropy] and [wall] are what
    [stateService.Generate] reads. *)
Definition Authorize (clients : client.Registry) (providers : auth.Registry)
    (stateService : state.Service) (r : Request)
    (entropy : list byte) (wall : Z) : Response * list byte :=
  let clientID := Values_Get (Query r) "client_id" in
  if bool_decide (clientID = EmptyString) then
    (writeError StatusBadRequest "missing client_id parameter", entropy)
  else
  let redirectURI := Values_Get (Query r) "redirect_uri" in
  if bool_decide (redirectURI = EmptyString) then
    (writeError StatusBadRequest "missing redirect_uri parameter", entropy)
  else
  let providerName := PathValue r "provider" in
  if bool_decide (providerName = EmptyString) then
    (writeError StatusBadRequest "missing provider", entropy)
  else
  match client.Get clients clientID with
  | Err _ => (writeError StatusBadRequest "unknown client", entropy)
  | Ok _ =>
  match client.ValidateCallback clients clientID redirectURI with
  | Err _ =>
      (writeError StatusBadRequest "redirect_uri not allowed", entropy)
  | Ok _ =>
  match auth.Get providers providerName with
  | Err _ => (writeError StatusBadRequest "unknown provider", entropy)
  | Ok provider =>
  match client.ValidateProvider clients clientID providerName with
  | Err err =>
      if errors_Is err ErrProviderNotAllowed then
        (writeError StatusForbidden
           "provider not allowed for this client", entropy)
      else (writeError StatusBadRequest "unknown client", entropy)
  | Ok _ =>
  match state.Generate L stateService
          {| sp_ClientID := clientID;
             sp_Provider := providerName;
             sp_RedirectURI := redirectURI;
             sp_Nonce := EmptyString;
             sp_ExpiresAt := zeroTime |} entropy wall with
  | (Err _, entropy') =>
      (writeError StatusInternalServerError
         "failed to generate state token", entropy')
  | (Ok stateToken, entropy') =>
  match auth.AuthURL provider stateToken with
  | Err _ =>
      (writeError StatusInternalServerError
         "failed to generate auth URL", entropy')
  | Ok authURL => (Redirect authURL StatusFound, entropy')
  end end end end end end.

(** GET /callback/{provider}. [wall] is the system clock when the
    state token is validated, [wall'] when the code is encoded. *)
Definition Callback (providers : auth.Registry)
    (stateService : state.Service) (codec : exchange.Codec) (r : Request)
    (entropy : list byte) (wall wall' : Z) : Response * list byte :=
  let providerName := PathValue r "provider" in
  let stateToken := Values_Get (Query r) "state" in
  if bool_decide (stateToken = EmptyString) then
    (writeError StatusBadRequest "missing state parameter", entropy)
  else
  match state.Validate L stateService stateToken wall with
  | Err err =>
      if errors_Is err ErrExpiredState then
        (writeError StatusBadRequest "state token expired", entropy)
      else (writeError StatusBadRequest "invalid state token", entropy)
  | Ok statePayload =>
  match auth.Get providers providerName with
  | Err _ => (writeError StatusBadRequest "unknown provider", entropy)
  | Ok provider =>
  let params : gmap string string := omap head (Query r) in
  match auth.Exchange provider params with
  | Err err =>
      if errors_Is err ErrMissingProviderParams then
        (writeError StatusBadRequest "missing provider parameters", entropy)
      else (writeError StatusBadGateway "provider exchange failed", entropy)
  | Ok result =>
  match exchange.Encode L codec
          {| ep_ClientID := sp_ClientID statePayload;
             ep_ExpiresAt := zeroTime;
             ep_User := User result |} entropy wall' with
  | (Err _, entropy') =>
      (writeError StatusInternalServerError
         "failed to create exchange code", entropy')
  | (Ok code, entropy') =>
  match url_set_query L (sp_RedirectURI statePayload) "code" code with
  | None =>
      (writeError StatusInternalServerError "invalid redirect URI",
       entropy')
  | Some redirectURL => (Redirect redirectURL StatusFound, entropy')
  end end end end end.

(** GET /exchange *)
Definition Exchange (clients : client.Registry) (codec : exchange.Codec)
    (r : Request) (wall : Z) : Response :=
  let code := Values_Get (Query r) "code" in
  if bool_decide (code = EmptyString) then
    writeError StatusBadRequest "missing code parameter"
  else
  let authHeader := Values_Get (Header r) "Authorization" in
  let apiKey := TrimPrefix authHeader "Bearer " in
  if bool_decide (apiKey = EmptyString) || bool_decide (apiKey = authHeader)
  then
    writeError StatusUnauthorized "missing or invalid Authorization header"
  else
  match exchange.Decode L codec code wall with
  | Err err =>
      if errors_Is err ErrExpiredExchangeCode then
        writeError StatusBadRequest "exchange code expired"
      else writeError StatusBadRequest "invalid exchange code"
  | Ok payload =>
  match client.GetByAPIKey clients apiKey with
  | Err _ => writeError StatusUnauthorized "invalid API key"
  | Ok clientApp =>
  if negb (bool_decide (ID clientApp = ep_ClientID payload)) then
    writeError StatusForbidden
      "API key does not match the client that initiated the auth flow"
  else writeJSON StatusOK {| User := ep_User payload |}
  end end.

End WithLibraries.

(** [sort.Strings]: the strings in increasing order, compared byte by
    byte. *)
Definition sort_Strings (names : list string) : list string :=
  merge_sort String.le names.

(** A response whose body is a JSON array of strings. *)
Record NamesResponse := {
  names_Code : Z;
  names_ContentType : string;
  names_Body : list string
}.

(** Modelled from the spec: [writeJSON], of the absent file, at a value
    of type [[]string]; JSON bodies are sent as [application/json]. *)
Definition writeNames (status : Z) (names : list string) : NamesResponse :=
  {| names_Code := status; names_ContentType := "application/json";
     names_Body := names |}.

(** GET /providers *)
Definition Providers (registry : auth.Registry) : NamesResponse :=
  let names := auth.Names registry in
  writeNames StatusOK (sort_Strings names).

End handler.

(** ** The entry point *)

Module main.

(** The part of [main] that builds the exchange codec; [log.Fatalf]
    ends the process, which is the error here. *)
Definition buildCodec (L : Libraries) (encKey : list byte)
  : res exchange.Codec :=
  if negb (length encKey =? 32)%nat then
    Err (Other "exchange_encryption_key must be exactly 32 bytes")
  else
    match exchange.NewCodec L encKey with
    | Err _ => Err (Other "failed to create exchange codec")
    | Ok codec => Ok codec
    end.

End main.

(** ** A reference instance of the library interfaces

    Small stand-ins for the libraries, simple enough to compute with:
    they show that what the theorems below ask of the libraries can be
    met, and they make the model run on concrete requests. Base 16 stands
    in for base 64, a keyed prefix for the ciphertext, and for JSON the
    fields in base 16 with a dot behind each, their strings coerced to
    valid UTF-8 as encoding/json coerces them. *)

Module reference.

Definition unhex (c : ascii) : option N :=
  let n := N_of_ascii c in
  (if (48 <=? n) && (n <=? 57) then Some (n - 48)
   else if (97 <=? n) && (n <=? 102) then Some (n - 87)
   else None)%N.

Fixpoint hex_DecodeString (s : string) : option (list byte) :=
  match s with
  | EmptyString => Some []
  | String hi (String lo rest) =>
      match unhex hi, unhex lo, hex_DecodeString rest with
      | Some a, Some b, Some bs =>
          match Byte.of_N (16 * a + b) with
          | Some x => Some (x :: bs)
          | None => None
          end
      | _, _, _ => None
      end
  | String _ EmptyString => None
  end.

Definition base16 : Base64 :=
  {| EncodeToString := hex_EncodeToString;
     DecodeString := hex_DecodeString |}.

Definition keyed_digest (key data : list byte) : list byte := key ++ data.

(** The fields of a record, one after the other: each in base 16, with
    a dot behind it. *)
Fixpoint write_fields (fields : list string) : string :=
  match fields with
  | [] => EmptyString
  | field :: rest =>
      hex_EncodeToString (list_byte_of_string field) +:+ "."
        +:+ write_fields rest
  end.

Fixpoint read_fields (n : nat) (s : string) : option (list string) :=
  match n with
  | O => match s with EmptyString => Some [] | String _ _ => None end
  | S n' =>
      match cut_dot s with
      | Some (field, rest) =>
          match hex_DecodeString field, read_fields n' rest with
          | Some f, Some fields => Some (string_of_list_byte f :: fields)
          | _, _ => None
          end
      | None => None
      end
  end.

Definition string_of_Z (z : Z) : string :=
  NilZero.string_of_int (Z.to_int z).

Definition Z_of_string (s : string) : option Z :=
  option_map Z.of_int (NilZero.int_of_string s).

(** The strings are written coerced, as encoding/json writes them. *)
Definition fields_StatePayload : JSON StatePayload :=
  {| Marshal v :=
       Some (list_byte_of_string
               (write_fields
                  [coerced (sp_ClientID v); coerced (sp_Provider v);
                   coerced (sp_RedirectURI v); coerced (sp_Nonce v);
                   string_of_Z (sp_ExpiresAt v)]));
     Unmarshal data :=
       match read_fields 5 (string_of_list_byte data) with
       | Some [cid; prv; rdr; nce; exp] =>
           match Z_of_string exp with
           | Some e =>
               Some {| sp_ClientID := cid; sp_Provider := prv;
                       sp_RedirectURI := rdr; sp_Nonce := nce;
                       sp_ExpiresAt := e |}
           | None => None
           end
       | _ => None
       end |}.

Definition fields_ExchangePayload : JSON ExchangePayload :=
  {| Marshal v :=
       let u := ep_User v in
       Some (list_byte_of_string
               (write_fields
                  [coerced (ep_ClientID v); string_of_Z (ep_ExpiresAt v);
                   coerced (ProviderName u); coerced (ProviderID u);
                   coerced (Username u); coerced (DisplayName u);
                   coerced (AvatarURL u); coerced (Email u)]));
     Unmarshal data :=
       match read_fields 8 (string_of_list_byte data) with
       | Some [cid; exp; prv; pid; usr; dsp; ava; eml] =>
           match Z_of_string exp with
           | Some e =>
               Some {| ep_ClientID := cid; ep_ExpiresAt := e;
                       ep_User :=
                         {| ProviderName := prv; ProviderID := pid;
                            Username := usr; DisplayName := dsp;
                            AvatarURL := ava; Email := eml |} |}
           | None => None
           end
       | _ => None
       end |}.

(** [trim_bytes prefix l] is what follows [prefix] in [l]. *)
Fixpoint trim_bytes (prefix l : list byte) : option (list byte) :=
  match prefix, l with
  | [], _ => Some l
  | p :: prefix', x :: l' =>
      if Byte.eqb p x then trim_bytes prefix' l' else None
  | _ :: _, [] => None
  end.

(** The sealed text is the plaintext behind the key, the nonce and the
    additional data; opening checks that prefix. *)
Definition keyed_prefix (key : list byte) : AEAD :=
  {| NonceSize := 12;
     Seal nonce plaintext ad := key ++ nonce ++ ad ++ plaintext;
     Open nonce ciphertext ad := trim_bytes (key ++ nonce ++ ad) ciphertext |}.

Definition libraries : Libraries :=
  {| RawURLEncoding := base16;
     hmac_sha256 := keyed_digest;
     json_StatePayload := fields_StatePayload;
     json_ExchangePayload := fields_ExchangePayload;
     aes_gcm := keyed_prefix;
     url_set_query uri k v := Some (uri +:+ "?" +:+ k +:+ "=" +:+ v) |}.

End reference.

(** ** The scenarios of the specification, as data *)

Module scenario.

Definition website : ClientApp :=
  {| ID := "website"; Name := "Website"; APIKey := "web-api-key-secret";
     AllowedCallbacks := ["https://example.com/auth/callback"];
     AllowedProviders := ["discord"; "steam"] |}.

Definition admin : ClientApp :=
  {| ID := "admin"; Name := "Admin Panel"; APIKey := "admin-api-key-secret";
     AllowedCallbacks := ["https://admin.example.com/callback"];
     AllowedProviders := ["discord"] |}.

Definition tactical : UserInfo :=
  {| ProviderName := "discord"; ProviderID := "987654321";
     Username := "tactical"; DisplayName := "Tactical Commander";
     AvatarURL := "https://cdn.discordapp.com/avatars/987654321/abc.png";
     Email := "tactical@example.com" |}.

(** A provider that answers every callback with the same user. *)
Definition stub (name : string) (user : UserInfo) : auth.Provider :=
  {| auth.Name := name;
     auth.AuthURL stateToken :=
       Ok ("https://" +:+ name +:+ ".example/authorize?state=" +:+ stateToken);
     auth.Exchange _ := Ok {| User := user |} |}.

Definition clients : client.Registry :=
  {| client.byID := <["website" := website]> (<["admin" := admin]> ∅);
     client.byAPIKey :=
       <["web-api-key-secret" := website]>
         (<["admin-api-key-secret" := admin]> ∅) |}.

Definition providers : auth.Registry :=
  {| auth.providers :=
       <["discord" := stub "discord" tactical]>
         (<["steam" := stub "steam" tactical]> ∅) |}.

Definition stateKey : list byte := list_byte_of_string "test-state-key".
Definition encKey : list byte :=
  list_byte_of_string "01234567890123456789012345678901".
Definition shortKey : list byte := list_byte_of_string "0123456789012345".

Definition stateService : state.Service := state.NewService stateKey.

Definition codec : exchange.Codec :=
  {| exchange.aead := reference.keyed_prefix encKey;
     exchange.expiry := exchange.defaultCodeExpiry;
     exchange.now := fun wall => wall |}.

(** The libraries the scenarios run with. *)
Definition L : Libraries := reference.libraries.

(** The clock of a service that was not given another, [time.Now]. *)
Definition systemClock (wall : Z) : Z := wall.

(** Thirty-two bytes of entropy, and a reading of the clock. *)
Definition entropy : list byte := list_byte_of_string "abcdefghijklmnopqrstuvwxyz012345".
Definition noon : Z := 1700000000 * Second.

(** A second client with the API key of [website]. *)
Definition twin : ClientApp :=
  {| ID := "mirror"; Name := "Mirror"; APIKey := "web-api-key-secret";
     AllowedCallbacks := []; AllowedProviders := [] |}.

(** A client whose id is the empty string. *)
Definition anonymous : ClientApp :=
  {| ID := EmptyString; Name := "Anonymous"; APIKey := "anon-api-key";
     AllowedCallbacks := ["https://example.com/auth/callback"];
     AllowedProviders := [] |}.

Definition anonymousOnly : client.Registry :=
  {| client.byID := {[ EmptyString := anonymous ]};
     client.byAPIKey := {[ "anon-api-key" := anonymous ]} |}.

(** The payloads the handlers hand to the codecs in S1, and what the
    codecs make of them at [noon] with [entropy]. *)
Definition websitePayload : ExchangePayload :=
  {| ep_ClientID := "website"; ep_ExpiresAt := handler.zeroTime;
     ep_User := tactical |}.

Definition exchangeCode : string :=
  Eval vm_compute in
    match exchange.Encode L codec websitePayload
            entropy noon with
    | (Ok code, _) => code
    | _ => EmptyString
    end.

Definition statePayload (provider : string) : StatePayload :=
  {| sp_ClientID := "website"; sp_Provider := provider;
     sp_RedirectURI := "https://example.com/auth/callback";
     sp_Nonce := EmptyString; sp_ExpiresAt := handler.zeroTime |}.

Definition stateToken (provider : string) : string :=
  match state.Generate L stateService
          (statePayload provider) entropy noon with
  | (Ok token, _) => token
  | _ => EmptyString
  end.

(** A claimed_id on another host that carries a Steam profile URL in
    its query, the callback parameters around it, and a Steam that
    confirms the assertion and knows the player. *)
Definition forgedClaimedID : string :=
  "https://evil.example/?u=https://steamcommunity.com/openid/id/76561198012345678".

Definition forgedParams : gmap string string :=
  <["openid.claimed_id" := forgedClaimedID]>
    (<["openid.mode" := "id_res"]> (<["state" := "token"]> ∅)).

Definition steamBackend (req : steam.HTTPRequest)
  : option steam.HTTPResponse :=
  if bool_decide (steam.Method req = "POST") then
    Some {| steam.StatusCode := 200; steam.Body := Some "is_valid:true" |}
  else
    Some {| steam.StatusCode := 200; steam.Body := Some "{}" |}.

Definition victim : steam.Player :=
  {| steam.SteamID := "76561198012345678"; steam.PersonaName := "victim";
     steam.AvatarFull := "https://avatars.example/full.jpg";
     steam.ProfileURL := EmptyString; steam.RealName := EmptyString |}.

Definition unmarshalVictim (body : string) : option (list steam.Player) :=
  Some [victim].

Definition steamProvider : steam.Provider :=
  {| steam.cfg := {| steam.APIKey := "steam-api-key";
                     steam.Realm := "https://auth.example.com";
                     steam.CallbackURL :=
                       "https://auth.example.com/callback/steam" |};
     steam.httpClient := steamBackend;
     steam.openIDEndpoint := "https://steamcommunity.com/openid/login";
     steam.playerSummaryURL :=
       "https://api.steampowered.com/ISteamUser/GetPlayerSummaries/v2/" |}.

Definition request (provider : string) (query : list (string * string))
    (authorization : option string) : handler.Request :=
  {| handler.PathValues := {[ "provider" := provider ]};
     handler.Query := list_to_map (prod_map id (fun v => [v]) <$> query);
     handler.Header :=
       match authorization with
       | Some v => {[ "Authorization" := [v] ]}
       | None => ∅
       end |}.

(** A user name with the byte [0xFF], which starts no encoding, and a
    client id that is that byte alone. *)
Definition invalidByte : ascii := ascii_of_N 255.

Definition garbledName : string := String "t" (String invalidByte "x").

Definition garbledPayload : ExchangePayload :=
  {| ep_ClientID := "website"; ep_ExpiresAt := handler.zeroTime;
     ep_User :=
       {| ProviderName := "discord"; ProviderID := "987654321";
          Username := garbledName; DisplayName := "Tactical Commander";
          AvatarURL := "https://cdn.discordapp.com/avatars/987654321/abc.png";
          Email := "tactical@example.com" |} |}.

Definition garbledState : StatePayload :=
  {| sp_ClientID := String invalidByte EmptyString;
     sp_Provider := "discord";
     sp_RedirectURI := "https://example.com/auth/callback";
     sp_Nonce := EmptyString; sp_ExpiresAt := handler.zeroTime |}.


Definition nextExchangeCode : string :=
  Eval vm_compute in
    match exchange.Encode L codec websitePayload (drop 12 entropy) noon with
    | (Ok code, _) => code
    | _ => EmptyString
    end.

(** The callback parameters of a Steam login, with a canonical
    claimed_id and a parameter that is not of OpenID. *)
Definition steamClaimedID : string :=
  "https://steamcommunity.com/openid/id/76561198012345678".

Definition steamParams : gmap string string :=
  <["openid.claimed_id" := steamClaimedID]>
    (<["openid.mode" := "id_res"]> (<["state" := "token"]> ∅)).

(** A Discord that gives a token for every code and knows one user. *)
Definition discordBackend (req : discord.HTTPRequest)
  : option discord.HTTPResponse :=
  if bool_decide (discord.Method req = "POST") then
    Some {| discord.StatusCode := 200; discord.Body := Some "token" |}
  else
    Some {| discord.StatusCode := 200; discord.Body := Some "user" |}.

Definition unmarshalAccess (body : string) : option discord.tokenResponse :=
  Some {| discord.AccessToken := "access-token";
          discord.TokenType := "Bearer" |}.

Definition commander : discord.discordUser :=
  {| discord.du_ID := "987654321"; discord.du_Username := "tactical";
     discord.du_GlobalName := "Tactical Commander";
     discord.du_Avatar := "abc"; discord.du_Email := "tactical@example.com";
     discord.du_Discriminator := "0" |}.

Definition unmarshalCommander (body : string) : option discord.discordUser :=
  Some commander.

Definition discordProvider : discord.Provider :=
  {| discord.cfg := {| discord.ClientID := "discord-client-id";
                       discord.ClientSecret := "discord-client-secret";
                       discord.Scopes := ["identify"; "email"];
                       discord.CallbackURL :=
                         "https://auth.example.com/callback/discord" |};
     discord.httpClient := discordBackend;
     discord.authEndpoint := "https://discord.com/oauth2/authorize";
     discord.tokenURL := "https://discord.com/api/oauth2/token";
     discord.userURL := "https://discord.com/api/users/@me" |}.

Definition discordParams : gmap string string :=
  <["code" := "auth-code"]> (<["state" := "token"]> ∅).

(** A provider whose exchange fails, and a registry that has it as
    discord. *)
Definition failing (name : string) : auth.Provider :=
  {| auth.Name := name;
     auth.AuthURL stateToken :=
       Ok ("https://" +:+ name +:+ ".example/authorize?state=" +:+ stateToken);
     auth.Exchange _ := Err (Wrapped ErrProviderExchange "status 500") |}.

Definition failingProviders : auth.Registry :=
  {| auth.providers := {[ "discord" := failing "discord" ]} |}.

(** The first request of S1, and the callback that follows it. *)
Definition authorizeRequest : handler.Request :=
  request "discord"
    [("client_id", "website");
     ("redirect_uri", "https://example.com/auth/callback")] None.

Definition callbackRequest : handler.Request :=
  request "discord"
    [("state", stateToken "discord"); ("code", "auth-code")] None.

End scenario.

(** * Properties *)

(** ** Valid UTF-8 and the strings of encoding/json *)

Module utf8_facts.

(** A string of encodings is handed back as it is. *)
Lemma coerced_after_valid s : forall pending,
  utf8.valid_after pending s = true -> coerced_after pending s = s.
Proof.
  induction s as [|c s IH]; intros pending; [done|].
  cbn [utf8.valid_after coerced_after]. destruct pending as [|pending].
  - destruct (utf8.rune_size (String c s)) as [[|pending]|]; try done.
    intros Hv. by rewrite IH.
  - intros Hv. by rewrite IH.
Qed.

Lemma coerced_valid s : utf8.ValidString s = true -> coerced s = s.
Proof. apply coerced_after_valid. Qed.

Lemma hexdigit_ascii (b : byte) :
  (N_of_ascii (hexdigit (Byte.to_N b / 16)) <? 128)%N = true
  /\ (N_of_ascii (hexdigit (Byte.to_N b mod 16)) <? 128)%N = true.
Proof. destruct b; by vm_compute. Qed.

(** Hexadecimal text is valid UTF-8. *)
Lemma hex_EncodeToString_valid (src : list byte) :
  utf8.ValidString (hex_EncodeToString src) = true.
Proof.
  unfold utf8.ValidString. induction src as [|b src IH]; [done|].
  destruct (hexdigit_ascii b) as [Hhi Hlo].
  cbn [hex_EncodeToString utf8.valid_after utf8.rune_size].
  rewrite Hhi. cbn [utf8.valid_after utf8.rune_size]. by rewrite Hlo.
Qed.

Lemma coerced_UserInfo_valid u :
  valid_UserInfo u = true -> coerced_UserInfo u = u.
Proof.
  unfold valid_UserInfo, coerced_UserInfo. rewrite !andb_true_iff.
  intros [[[[[H1 H2] H3] H4] H5] H6]. destruct u; simpl in *.
  by rewrite !coerced_valid.
Qed.

Lemma coerced_ExchangePayload_valid p :
  valid_ExchangePayload p = true -> coerced_ExchangePayload p = p.
Proof.
  unfold valid_ExchangePayload, coerced_ExchangePayload.
  rewrite andb_true_iff. intros [H1 H2]. destruct p; simpl in *.
  by rewrite coerced_valid, coerced_UserInfo_valid.
Qed.

Lemma coerced_StatePayload_valid p :
  utf8.ValidString (sp_ClientID p) = true ->
  utf8.ValidString (sp_Provider p) = true ->
  utf8.ValidString (sp_RedirectURI p) = true ->
  utf8.ValidString (sp_Nonce p) = true ->
  coerced_StatePayload p = p.
Proof.
  intros H1 H2 H3 H4. unfold coerced_StatePayload. destruct p; simpl in *.
  by rewrite !coerced_valid.
Qed.

End utf8_facts.

(** ** The reference libraries meet what is asked of libraries *)

Module reference_facts.
Import reference.

Lemma hex_byte (b : byte) :
  let n := Byte.to_N b in
  unhex (hexdigit (n / 16)) = Some (n / 16)%N
  /\ unhex (hexdigit (n mod 16)) = Some (n mod 16)%N
  /\ Byte.of_N (16 * (n / 16) + n mod 16) = Some b
  /\ Ascii.eqb (hexdigit (n / 16)) "." = false
  /\ Ascii.eqb (hexdigit (n mod 16)) "." = false.
Proof. destruct b; vm_compute; done. Qed.

Lemma base16_lossless : base64_lossless base16.
Proof.
  intros src. simpl. induction src as [|b src IH]; [done|].
  destruct (hex_byte b) as (Hhi & Hlo & Hb & _).
  cbn [hex_EncodeToString hex_DecodeString].
  by rewrite Hhi, Hlo, IH, Hb.
Qed.

Lemma base16_no_dot : base64_no_dot base16.
Proof.
  intros src. simpl. induction src as [|b src IH]; [done|].
  destruct (hex_byte b) as (_ & _ & _ & Hhi & Hlo).
  cbn [hex_EncodeToString cut_dot]. by rewrite Hhi, Hlo, IH.
Qed.

Lemma trim_bytes_app (prefix l : list byte) :
  trim_bytes prefix (prefix ++ l) = Some l.
Proof.
  induction prefix as [|p prefix IH]; simpl; [done|].
  by rewrite Byte.byte_dec_lb.
Qed.

Lemma keyed_prefix_correct (key : list byte) :
  aead_correct (keyed_prefix key).
Proof.
  intros nonce plaintext ad _. simpl.
  rewrite !(assoc_L (++)). apply trim_bytes_app.
Qed.

End reference_facts.

(** ** The client registry *)

Module client_facts.
Import client.

Lemma latest_cons proj k c cs :
  latest proj k (c :: cs) =
    match latest proj k cs with
    | Some c' => Some c'
    | None => if decide (proj c = k) then Some c else None
    end.
Proof.
  unfold latest. rewrite filter_cons.
  destruct (decide (proj c = k)); [by rewrite last_cons | by destruct (last _)].
Qed.

Lemma latest_elem proj k cs c :
  latest proj k cs = Some c -> c ∈ cs /\ proj c = k.
Proof.
  unfold latest. intros H%last_Some. destruct H as [l' Hl'].
  assert (Hin : c ∈ filter (fun c => proj c = k) cs).
  { rewrite Hl'. set_solver. }
  by apply list_elem_of_filter in Hin as [? ?].
Qed.

Lemma latest_None proj k cs :
  latest proj k cs = None <-> forall c, c ∈ cs -> proj c ≠ k.
Proof.
  unfold latest. rewrite last_None. split.
  - intros Hnil c Hc Hk.
    assert (Hin : c ∈ filter (fun c => proj c = k) cs)
      by (apply list_elem_of_filter; done).
    rewrite Hnil in Hin. set_solver.
  - intros Hall. induction cs as [|c cs IH]; [done|].
    rewrite filter_cons_False; [|apply Hall; set_solver].
    apply IH. intros c' Hc'. apply Hall. set_solver.
Qed.

(** With pairwise distinct projections a record is the only one, hence
    the last one, under its own key. *)
Lemma latest_NoDup proj cs c :
  NoDup (proj <$> cs) -> c ∈ cs -> latest proj (proj c) cs = Some c.
Proof.
  induction cs as [|c' cs IH]; intros Hnd Hin; [set_solver|].
  rewrite fmap_cons in Hnd. apply NoDup_cons in Hnd as [Hfresh Hnd].
  rewrite latest_cons. apply elem_of_cons in Hin as [->|Hin].
  - replace (latest proj (proj c') cs) with (@None ClientApp).
    + by rewrite decide_True.
    + symmetry. apply latest_None. intros d Hd Heq.
      apply Hfresh. rewrite <- Heq. by apply list_elem_of_fmap_2.
  - by rewrite IH.
Qed.

(** What the loop of [NewRegistry] leaves in the two maps. *)
Lemma NewRegistry_loop_lookup cs : forall r0 r,
  NewRegistry_loop cs r0 = Ok r ->
  (forall k, byID r !! k =
     match latest ID k cs with Some c => Some c | None => byID r0 !! k end)
  /\ (forall k, byAPIKey r !! k =
     match latest APIKey k cs with
     | Some c => Some c
     | None => byAPIKey r0 !! k
     end).
Proof.
  induction cs as [|c cs IH]; intros r0 r Hloop; simpl in Hloop.
  - by inversion Hloop.
  - destruct (byID r0 !! ID c) eqn:Hfree; [discriminate|].
    apply IH in Hloop as [HbyID HbyKey]. simpl in *.
    split; intros k; rewrite latest_cons.
    + rewrite HbyID. destruct (latest ID k cs); [done|].
      destruct (decide (ID c = k)) as [->|Hne].
      * by rewrite lookup_insert_eq.
      * by rewrite lookup_insert_ne.
    + rewrite HbyKey. destruct (latest APIKey k cs); [done|].
      destruct (decide (APIKey c = k)) as [->|Hne].
      * by rewrite lookup_insert_eq.
      * by rewrite lookup_insert_ne.
Qed.

(** The loop runs to its end when no id occurs twice in the list or is
    already taken. *)
Lemma NewRegistry_loop_Ok cs : forall r0,
  NoDup (ID <$> cs) ->
  (forall c, c ∈ cs -> byID r0 !! ID c = None) ->
  exists r, NewRegistry_loop cs r0 = Ok r.
Proof.
  induction cs as [|c cs IH]; intros r0 Hnd Hfree; simpl.
  - by eexists.
  - rewrite fmap_cons in Hnd. apply NoDup_cons in Hnd as [Hfresh Hnd].
    rewrite Hfree by set_solver. apply IH; [done|].
    intros c' Hc'. simpl. rewrite lookup_insert_ne.
    + apply Hfree. set_solver.
    + intros Heq. apply Hfresh. rewrite Heq. by apply list_elem_of_fmap_2.
Qed.

Lemma NewRegistry_Ok cs :
  NoDup (ID <$> cs) -> exists r, NewRegistry cs = Ok r.
Proof. intros Hnd. apply NewRegistry_loop_Ok; [done|]. intros. apply lookup_empty. Qed.

Lemma NewRegistry_byAPIKey cs r k :
  NewRegistry cs = Ok r -> byAPIKey r !! k = latest APIKey k cs.
Proof.
  intros [_ H]%NewRegistry_loop_lookup. rewrite H. simpl.
  destruct (latest APIKey k cs); [done | apply lookup_empty].
Qed.

Lemma NewRegistry_byID cs r k :
  NewRegistry cs = Ok r -> byID r !! k = latest ID k cs.
Proof.
  intros [H _]%NewRegistry_loop_lookup. rewrite H. simpl.
  destruct (latest ID k cs); [done | apply lookup_empty].
Qed.

(** The scan finds the entry of a key whatever the order of the
    entries, as long as no key occurs twice. *)
Lemma scanAPIKeys_elem entries k c :
  NoDup entries.*1 -> (k, c) ∈ entries -> scanAPIKeys entries k = Ok c.
Proof.
  induction entries as [|[k' c'] entries IH]; intros Hnd Hin; [set_solver|].
  rewrite fmap_cons in Hnd. apply NoDup_cons in Hnd as [Hfresh Hnd].
  simpl. unfold hmac_Equal. case_bool_decide as Hk.
  - subst k'. apply elem_of_cons in Hin as [Heq|Hin]; [congruence|].
    exfalso. apply Hfresh. simpl.
    by apply (list_elem_of_fmap_2 fst _ (k, c)).
  - apply IH; [done|]. apply elem_of_cons in Hin as [Heq|Hin]; [congruence|done].
Qed.

Lemma scanAPIKeys_absent entries k :
  (forall c, (k, c) ∉ entries) ->
  scanAPIKeys entries k = Err (Sentinel ErrInvalidAPIKey).
Proof.
  induction entries as [|[k' c'] entries IH]; intros Hout; [done|].
  simpl. unfold hmac_Equal. case_bool_decide as Hk.
  - subst k'. exfalso. apply (Hout c'). set_solver.
  - apply IH. intros c Hc. apply (Hout c). set_solver.
Qed.

Lemma scanAPIKeys_Ok entries k c :
  scanAPIKeys entries k = Ok c -> (k, c) ∈ entries.
Proof.
  induction entries as [|[k' c'] entries IH]; simpl; [done|].
  unfold hmac_Equal. case_bool_decide as Hk.
  - intros [= ->]. subst k'. set_solver.
  - intros H%IH. set_solver.
Qed.

Lemma scanAPIKeys_Err entries k e :
  scanAPIKeys entries k = Err e ->
  e = Sentinel ErrInvalidAPIKey /\ forall c, (k, c) ∉ entries.
Proof.
  induction entries as [|[k' c'] entries IH]; simpl.
  - intros [= <-]. split; [done | set_solver].
  - unfold hmac_Equal. case_bool_decide as Hk; [done|].
    intros [-> Hout]%IH. split; [done|].
    intros c [Heq|Hin]%elem_of_cons; [congruence | by apply (Hout c)].
Qed.

Lemma scanAPIKeys_order entries entries' k :
  NoDup entries.*1 -> entries ≡ₚ entries' ->
  scanAPIKeys entries k = scanAPIKeys entries' k.
Proof.
  intros Hnd Hperm.
  assert (Hnd' : NoDup entries'.*1) by (by rewrite <- Hperm).
  destruct (scanAPIKeys entries k) as [c|e] eqn:Hscan.
  - apply scanAPIKeys_Ok in Hscan.
    symmetry. apply scanAPIKeys_elem; [done | by rewrite <- Hperm].
  - apply scanAPIKeys_Err in Hscan as [-> Hout].
    symmetry. apply scanAPIKeys_absent.
    intros c Hc. apply (Hout c). by rewrite Hperm.
Qed.

(** [GetByAPIKey] is a lookup in [byAPIKey]. *)
Lemma GetByAPIKey_lookup r k :
  GetByAPIKey r k =
    match byAPIKey r !! k with
    | Some c => Ok c
    | None => Err (Sentinel ErrInvalidAPIKey)
    end.
Proof.
  unfold GetByAPIKey. destruct (byAPIKey r !! k) as [c|] eqn:Hk.
  - apply scanAPIKeys_elem; [apply NoDup_fst_map_to_list|].
    by apply elem_of_map_to_list.
  - apply scanAPIKeys_absent. intros c Hc%elem_of_map_to_list. congruence.
Qed.

(** The client a key resolves to is a record of the list that was
    registered, and the key is its API key. *)
Lemma GetByAPIKey_registered cs r k c :
  NewRegistry cs = Ok r -> GetByAPIKey r k = Ok c -> c ∈ cs /\ APIKey c = k.
Proof.
  intros Hr. rewrite GetByAPIKey_lookup, (NewRegistry_byAPIKey _ _ _ Hr).
  destruct (latest APIKey k cs) as [c'|] eqn:Hk; [|done].
  intros [= <-]. by apply latest_elem in Hk.
Qed.

(** When no two records share an API key, the key of a registered
    client resolves to that client. *)
Lemma GetByAPIKey_member cs r c :
  NewRegistry cs = Ok r -> NoDup (APIKey <$> cs) -> c ∈ cs ->
  GetByAPIKey r (APIKey c) = Ok c.
Proof.
  intros Hr Hnd Hin.
  rewrite GetByAPIKey_lookup, (NewRegistry_byAPIKey _ _ _ Hr).
  by rewrite latest_NoDup.
Qed.

End client_facts.

Section SharedAPIKey.
Import client client_facts.

(** C10. When the client list holds two records [c1], then [c2], with
    distinct ids (as all ids of the list are) and the same api_key, and
    [c2] is the last record with that key, [NewRegistry] succeeds;
    [GetByAPIKey] on the shared key returns [c2], the later record; no
    key makes [GetByAPIKey] return [c1], while [Get] still finds [c1]
    by its id. *)
Theorem shared_api_key_later_record_wins
    (l1 l2 l3 : list ClientApp) (c1 c2 : ClientApp) :
  NoDup (ID <$> (l1 ++ c1 :: l2 ++ c2 :: l3)) ->
  APIKey c1 = APIKey c2 ->
  (forall c, c ∈ l3 -> APIKey c ≠ APIKey c2) ->
  exists r,
    NewRegistry (l1 ++ c1 :: l2 ++ c2 :: l3) = Ok r
    /\ GetByAPIKey r (APIKey c1) = Ok c2
    /\ (forall k, GetByAPIKey r k ≠ Ok c1)
    /\ Get r (ID c1) = Ok c1.
Proof.
  intros Hnd Hkey Hlast.
  destruct (NewRegistry_Ok _ Hnd) as [r Hr]. exists r.
  assert (Hne : c1 ≠ c2).
  { intros ->. rewrite fmap_app, fmap_cons, fmap_app, fmap_cons in Hnd.
    apply NoDup_app in Hnd as (_ & _ & Hnd).
    apply NoDup_cons in Hnd as [Hfresh _]. apply Hfresh. set_solver. }
  assert (Hlatest : latest APIKey (APIKey c2) (l1 ++ c1 :: l2 ++ c2 :: l3)
                    = Some c2).
  { unfold latest.
    rewrite filter_app, filter_cons, filter_app, filter_cons.
    rewrite decide_True by done. rewrite (decide_True (P := _ c2 = _)) by done.
    assert (Hl3 : filter (fun c => APIKey c = APIKey c2) l3 = []).
    { apply last_None, (latest_None APIKey (APIKey c2) l3), Hlast. }
    rewrite Hl3, last_app. simpl.
    by rewrite app_comm_cons, last_snoc. }
  split; [done|]. split; [|split].
  - rewrite GetByAPIKey_lookup, (NewRegistry_byAPIKey _ _ _ Hr).
    by rewrite Hkey, Hlatest.
  - intros k. rewrite GetByAPIKey_lookup, (NewRegistry_byAPIKey _ _ _ Hr).
    destruct (latest APIKey k _) as [c|] eqn:Hk; [|done].
    intros [= ->]. apply latest_elem in Hk as Hk'. destruct Hk' as [_ <-].
    rewrite Hkey, Hlatest in Hk. congruence.
  - unfold Get. rewrite (NewRegistry_byID _ _ _ Hr).
    rewrite latest_NoDup; [done | done | set_solver].
Qed.

End SharedAPIKey.

(** ** Entropy *)

Lemma rand_Read_Some n entropy nonce entropy' :
  rand_Read n entropy = Some (nonce, entropy') ->
  nonce = take n entropy /\ entropy' = drop n entropy /\ length nonce = n.
Proof.
  unfold rand_Read. destruct (n <=? length entropy)%nat eqn:Hn; [|done].
  intros [= <- <-]. apply Nat.leb_le in Hn.
  repeat split. rewrite length_take. lia.
Qed.

(** ** The exchange codec *)

Module exchange_facts.
Import exchange.

Section WithLibraries.
Context (L : Libraries).

Lemma aes_NewCipher_Ok key block :
  aes_NewCipher key = Ok block ->
  block = key /\ length key ∈ [16; 24; 32]%nat.
Proof.
  unfold aes_NewCipher. case_bool_decide; [|done]. by intros [= <-].
Qed.

Lemma NewCodec_Ok key c :
  NewCodec L key = Ok c ->
  c = {| aead := aes_gcm L key; expiry := defaultCodeExpiry;
         now := fun wall => wall |}
  /\ length key ∈ [16; 24; 32]%nat.
Proof.
  unfold NewCodec. destruct (aes_NewCipher key) as [block|] eqn:Hb; [|done].
  apply aes_NewCipher_Ok in Hb as [-> Hlen]. by intros [= <-].
Qed.

Lemma NewCodec_Err key :
  is_Err (NewCodec L key) <-> length key ∉ [16; 24; 32]%nat.
Proof.
  unfold NewCodec, aes_NewCipher. case_bool_decide; simpl; tauto.
Qed.

(** What [Decode] does with a code of the shape [Encode] writes. *)
Lemma Decode_sealed c nonce plaintext payload wall :
  base64_lossless (RawURLEncoding L) ->
  aead_correct (aead c) ->
  length nonce = NonceSize (aead c) ->
  Unmarshal (json_ExchangePayload L) plaintext = Some payload ->
  Decode L c
    (EncodeToString (RawURLEncoding L)
       (nonce ++ Seal (aead c) nonce plaintext [])) wall
  = if After (now c wall) (ep_ExpiresAt payload)
    then Err (Sentinel ErrExpiredExchangeCode) else Ok payload.
Proof.
  intros Hb64 Haead Hlen Hjson. unfold Decode. rewrite Hb64.
  rewrite length_app, <- Hlen.
  replace (length nonce + _ <? length nonce)%nat with false
    by (symmetry; apply Nat.ltb_ge; lia).
  rewrite take_app_length, drop_app_length.
  rewrite Haead by done. by rewrite Hjson.
Qed.

(** What [Decode] makes of a code of [Encode], up to the expiry: the
    payload that was written, with its strings coerced. The libraries
    are asked that base64 decoding undoes encoding, that the AEAD opens
    what it sealed, and that JSON hands back what it wrote with the
    strings coerced. *)
Lemma Decode_Encode_coerced
    (key : list byte) (c : Codec) (clock : Z -> Z) (p : ExchangePayload)
    (entropy entropy' : list byte) (wall wall' : Z) (code : string) :
  base64_lossless (RawURLEncoding L) ->
  aead_correct (aes_gcm L key) ->
  json_coerces coerced_ExchangePayload (json_ExchangePayload L) ->
  NewCodec L key = Ok c ->
  Encode L (SetNow c clock) p entropy wall = (Ok code, entropy') ->
  clock wall' <= clock wall + 30 * Second ->
  Decode L (SetNow c clock) code wall'
  = Ok (coerced_ExchangePayload (stamp p (clock wall + 30 * Second))).
Proof.
  intros Hb64 Haead Hjson [-> _]%NewCodec_Ok Henc Hlate.
  unfold Encode, SetNow in Henc. simpl in Henc.
  unfold Add, defaultCodeExpiry in Henc.
  destruct (Marshal _ _) as [plaintext|] eqn:Hm; [|done].
  destruct (rand_Read _ _) as [[nonce rest]|] eqn:Hr; [|done].
  injection Henc as <- <-.
  apply rand_Read_Some in Hr as (_ & _ & Hlen).
  pose proof (Decode_sealed
                (SetNow {| aead := aes_gcm L key;
                           expiry := defaultCodeExpiry;
                           now := fun wall => wall |} clock)
                nonce plaintext _ wall' Hb64 Haead Hlen (Hjson _ _ Hm))
    as Hdec.
  simpl in Hdec. rewrite Hdec.
  unfold After. by replace (_ <? _) with false by (symmetry; lia).
Qed.

(** C2, as the code has it. Round trip of the exchange codec. For
    every payload [p] whose client id and user fields are valid UTF-8
    and every key that [NewCodec] accepts, under any clock: when
    [Encode] yields a code, [Decode] of that code at a time not after
    the embedded expiry succeeds, and the payload it returns has the
    client id and the user of [p] and expires 30 seconds after the
    time of encoding. The payload travels as JSON, and encoding/json
    replaces each byte of a string that starts no UTF-8 encoding by
    U+FFFD: a field that is not valid UTF-8 does not come back
    unchanged. The libraries are asked that base64 decoding undoes
    encoding, that the AEAD opens what it sealed, and that JSON hands
    back what it wrote with the strings coerced. *)
Theorem exchange_roundtrip
    (key : list byte) (c : Codec) (clock : Z -> Z) (p : ExchangePayload)
    (entropy entropy' : list byte) (wall wall' : Z) (code : string) :
  base64_lossless (RawURLEncoding L) ->
  aead_correct (aes_gcm L key) ->
  json_coerces coerced_ExchangePayload (json_ExchangePayload L) ->
  valid_ExchangePayload p = true ->
  NewCodec L key = Ok c ->
  Encode L (SetNow c clock) p entropy wall = (Ok code, entropy') ->
  clock wall' <= clock wall + 30 * Second ->
  exists p',
    Decode L (SetNow c clock) code wall' = Ok p'
    /\ ep_ClientID p' = ep_ClientID p
    /\ ep_User p' = ep_User p
    /\ ep_ExpiresAt p' = clock wall + 30 * Second.
Proof.
  intros Hb64 Haead Hjson Hvalid Hc Henc Hlate.
  exists (stamp p (clock wall + 30 * Second)). split; [|done].
  rewrite (Decode_Encode_coerced key c clock p entropy entropy' wall wall'
             code) by done.
  by rewrite utf8_facts.coerced_ExchangePayload_valid.
Qed.

(** C5, as the code has it. [NewCodec] fails exactly for the keys
    whose length is none of 16, 24 and 32, the key sizes of AES; a
    key of 16 or 24 bytes is accepted. That the key has exactly 32
    bytes is checked by the entry point, which gives up before it
    calls [NewCodec] on any other length, so that the codec the
    broker runs with is always built from a 32-byte key. *)
Theorem NewCodec_key_sizes (key : list byte) :
  (is_Err (NewCodec L key) <-> length key ∉ [16; 24; 32]%nat)
  /\ (length key ≠ 32%nat -> is_Err (main.buildCodec L key))
  /\ (forall c, main.buildCodec L key = Ok c ->
        length key = 32%nat /\ NewCodec L key = Ok c).
Proof.
  split; [apply NewCodec_Err|]. unfold main.buildCodec.
  destruct (length key =? 32)%nat eqn:Hlen; simpl.
  - apply Nat.eqb_eq in Hlen. split; [done|]. intros c.
    destruct (NewCodec L key); [|done]. by intros [= ->].
  - split; done.
Qed.

End WithLibraries.

End exchange_facts.

(** ** The state service *)

Module state_facts.
Import state.

Lemma cut_dot_app encoded sig :
  cut_dot encoded = None ->
  cut_dot (encoded +:+ "." +:+ sig) = Some (encoded, sig).
Proof.
  induction encoded as [|ch encoded IH]; simpl; [done|].
  destruct (Ascii.eqb ch ".") eqn:Hch; [done|].
  destruct (cut_dot encoded) as [[? ?]|] eqn:Hcut; [done|].
  intros _. by rewrite IH.
Qed.

Section WithLibraries.
Context (L : Libraries).

(** Signing does not look at the clock. *)
Lemma sign_SetNow s clock data :
  sign L (SetNow s clock) data = sign L s data.
Proof. done. Qed.

(** [Validate] under a clock is: the checks that do not look at the
    clock, as [Validate] makes them under any other clock, then the
    comparison with the clock. *)
Lemma Validate_clock s token clock0 wall0 sp clock wall :
  Validate L (SetNow s clock0) token wall0 = Ok sp ->
  Validate L (SetNow s clock) token wall =
    if After (clock wall) (sp_ExpiresAt sp)
    then Err (Sentinel ErrExpiredState) else Ok sp.
Proof.
  unfold Validate. destruct (SplitN_dot_2 token) as [|encoded [|sig [|]]];
    try done.
  rewrite !sign_SetNow. destruct (negb _); [done|].
  destruct (DecodeString _ _) as [data|]; [|done].
  destruct (Unmarshal _ _) as [payload|]; [|done]. simpl.
  destruct (After (clock0 wall0) _); [done|]. by intros [= ->].
Qed.

(** What [Validate] makes of a token of [Generate], up to the expiry:
    the payload that was written, with its strings coerced. The
    libraries are asked that base64 decoding undoes encoding, that its
    alphabet has no dot, and that JSON hands back what it wrote with
    the strings coerced. *)
Lemma Validate_Generate_coerced
    (key : list byte) (clock : Z -> Z) (p : StatePayload)
    (entropy entropy' : list byte) (wall wall' : Z) (token : string) :
  base64_lossless (RawURLEncoding L) ->
  base64_no_dot (RawURLEncoding L) ->
  json_coerces coerced_StatePayload (json_StatePayload L) ->
  Generate L (SetNow (NewService key) clock) p entropy wall
    = (Ok token, entropy') ->
  clock wall' <= clock wall + 5 * Minute ->
  rand_Read 16 entropy = Some (take 16 entropy, entropy')
  /\ length (take 16 entropy) = 16%nat
  /\ Validate L (SetNow (NewService key) clock) token wall'
     = Ok (coerced_StatePayload
             (stamp p (hex_EncodeToString (take 16 entropy))
                (clock wall + 5 * Minute))).
Proof.
  intros Hb64 Hdot Hjson Hgen Hlate.
  unfold Generate, nonceBytes in Hgen. simpl in Hgen.
  unfold Add, defaultExpiry in Hgen.
  destruct (rand_Read 16 entropy) as [[nonce rest]|] eqn:Hr; [|done].
  apply rand_Read_Some in Hr as (-> & _ & Hlen).
  destruct (Marshal _ _) as [data|] eqn:Hm; [|done].
  injection Hgen as <- <-.
  split; [done|]. split; [done|].
  unfold Validate, SplitN_dot_2. rewrite cut_dot_app by apply Hdot.
  unfold hmac_Equal. rewrite bool_decide_eq_true_2 by done. simpl.
  rewrite Hb64, (Hjson _ _ Hm). simpl.
  unfold After. by replace (_ <? _) with false by (symmetry; lia).
Qed.

(** C3, as the code has it. Round trip of the state service. For
    every payload [p] whose client id, provider and redirect URI are
    valid UTF-8 and every signing key, under any clock: when
    [Generate] yields a token, it has read 16 bytes of entropy, and
    [Validate] of the token at a time not after the expiry succeeds
    with a payload that agrees with [p] on client id, provider and
    redirect URI, whose nonce is the hexadecimal text of those 16
    bytes whatever the nonce of [p] was, and whose expiry is the time
    of issue plus 5 minutes, later than the time of issue. The
    payload travels as JSON, and encoding/json replaces each byte of a
    string that starts no UTF-8 encoding by U+FFFD: a field that is
    not valid UTF-8 does not come back unchanged. The libraries are
    asked that base64 decoding undoes encoding, that its alphabet has
    no dot, and that JSON hands back what it wrote with the strings
    coerced. *)
Theorem state_roundtrip
    (key : list byte) (clock : Z -> Z) (p : StatePayload)
    (entropy entropy' : list byte) (wall wall' : Z) (token : string) :
  base64_lossless (RawURLEncoding L) ->
  base64_no_dot (RawURLEncoding L) ->
  json_coerces coerced_StatePayload (json_StatePayload L) ->
  utf8.ValidString (sp_ClientID p) = true ->
  utf8.ValidString (sp_Provider p) = true ->
  utf8.ValidString (sp_RedirectURI p) = true ->
  Generate L (SetNow (NewService key) clock) p entropy wall
    = (Ok token, entropy') ->
  clock wall' <= clock wall + 5 * Minute ->
  exists nonce p',
    rand_Read 16 entropy = Some (nonce, entropy')
    /\ length nonce = 16%nat
    /\ Validate L (SetNow (NewService key) clock) token wall' = Ok p'
    /\ sp_ClientID p' = sp_ClientID p
    /\ sp_Provider p' = sp_Provider p
    /\ sp_RedirectURI p' = sp_RedirectURI p
    /\ sp_Nonce p' = hex_EncodeToString nonce
    /\ sp_ExpiresAt p' = clock wall + 5 * Minute
    /\ clock wall < sp_ExpiresAt p'.
Proof.
  intros Hb64 Hdot Hjson Hcid Hprv Hrdr Hgen Hlate.
  destruct (Validate_Generate_coerced key clock p entropy entropy' wall
              wall' token Hb64 Hdot Hjson Hgen Hlate) as (Hr & Hlen & Hval).
  rewrite utf8_facts.coerced_StatePayload_valid in Hval
    by (done || apply utf8_facts.hex_EncodeToString_valid).
  exists (take 16 entropy),
    (stamp p (hex_EncodeToString (take 16 entropy))
       (clock wall + 5 * Minute)).
  split; [done|]. split; [done|]. split; [done|].
  repeat split. simpl. unfold Minute, Second. lia.
Qed.

End WithLibraries.

End state_facts.

(** ** The reference JSON coerces as encoding/json does *)

Module reference_json_facts.
Import reference.

Lemma Z_of_string_of_Z (z : Z) : Z_of_string (string_of_Z z) = Some z.
Proof.
  unfold Z_of_string, string_of_Z. rewrite NilZero.isi.
  - simpl. by rewrite DecimalZ.of_to.
  - destruct z; simpl; try done. intros [= H]. by apply DecimalPos.Unsigned.to_uint_nonnil in H.
  - destruct z; simpl; try done. intros [= H]. by apply DecimalPos.Unsigned.to_uint_nonnil in H.
Qed.

Lemma read_write_fields (fields : list string) : forall n,
  n = length fields ->
  read_fields n (write_fields fields) = Some fields.
Proof.
  induction fields as [|field fields IH]; intros n ->; [done|].
  cbn [length read_fields write_fields]. specialize (IH _ eq_refl).
  rewrite state_facts.cut_dot_app by apply reference_facts.base16_no_dot.
  pose proof (reference_facts.base16_lossless (list_byte_of_string field))
    as Hhex. simpl in Hhex. rewrite Hhex, IH.
  by rewrite string_of_list_byte_of_string.
Qed.

Lemma fields_StatePayload_coerces :
  json_coerces coerced_StatePayload fields_StatePayload.
Proof.
  intros v data Hm.
  replace data
    with (list_byte_of_string
            (write_fields
               [coerced (sp_ClientID v); coerced (sp_Provider v);
                coerced (sp_RedirectURI v); coerced (sp_Nonce v);
                string_of_Z (sp_ExpiresAt v)]))
    by (by injection Hm).
  cbn [Unmarshal fields_StatePayload].
  rewrite string_of_list_byte_of_string, (read_write_fields [_; _; _; _; _] 5 eq_refl).
  by rewrite Z_of_string_of_Z.
Qed.

Lemma fields_ExchangePayload_coerces :
  json_coerces coerced_ExchangePayload fields_ExchangePayload.
Proof.
  intros v data Hm.
  replace data
    with (list_byte_of_string
            (write_fields
               [coerced (ep_ClientID v); string_of_Z (ep_ExpiresAt v);
                coerced (ProviderName (ep_User v));
                coerced (ProviderID (ep_User v));
                coerced (Username (ep_User v));
                coerced (DisplayName (ep_User v));
                coerced (AvatarURL (ep_User v));
                coerced (Email (ep_User v))]))
    by (by injection Hm).
  cbn [Unmarshal fields_ExchangePayload].
  rewrite string_of_list_byte_of_string, (read_write_fields [_; _; _; _; _; _; _; _] 8 eq_refl).
  by rewrite Z_of_string_of_Z.
Qed.

End reference_json_facts.

(** ** Expiry in the two codecs *)

Section Expiry.
Context (L : Libraries).

Lemma Decode_clock c code clock0 wall0 ep clock wall :
  exchange.Decode L (exchange.SetNow c clock0) code wall0 = Ok ep ->
  exchange.Decode L (exchange.SetNow c clock) code wall =
    if After (clock wall) (ep_ExpiresAt ep)
    then Err (Sentinel ErrExpiredExchangeCode) else Ok ep.
Proof.
  unfold exchange.Decode. simpl.
  destruct (DecodeString _ _) as [raw|]; [|done].
  destruct (_ <? _)%nat; [done|].
  destruct (Open _ _ _ _) as [plaintext|]; [|done].
  destruct (Unmarshal _ _) as [payload|]; [|done].
  destruct (After (clock0 wall0) _); [done|]. by intros [= ->].
Qed.

(** C4. Expiry is strict in both codecs. Take a state token that is
    valid but for the time, that is, one that [Validate] accepts under
    some clock, with payload [sp]; under any clock, [Validate] answers
    [ErrExpiredState] exactly when the time is after [sp]'s expiry, and
    accepts the token, with the same payload, at any time up to and
    including the expiry. The same holds of an exchange code, [Decode]
    and [ErrExpiredExchangeCode]. *)
Theorem expiry_is_strict
    (s : state.Service) (c : exchange.Codec) (token code : string)
    (sp : StatePayload) (ep : ExchangePayload)
    (clock0 clock1 : Z -> Z) (wall0 wall1 : Z) :
  state.Validate L (state.SetNow s clock0) token wall0 = Ok sp ->
  exchange.Decode L (exchange.SetNow c clock1) code wall1 = Ok ep ->
  forall (clock : Z -> Z) (wall : Z),
    (state.Validate L (state.SetNow s clock) token wall
       = Err (Sentinel ErrExpiredState) <-> clock wall > sp_ExpiresAt sp)
    /\ (clock wall <= sp_ExpiresAt sp ->
        state.Validate L (state.SetNow s clock) token wall = Ok sp)
    /\ (exchange.Decode L (exchange.SetNow c clock) code wall
          = Err (Sentinel ErrExpiredExchangeCode)
        <-> clock wall > ep_ExpiresAt ep)
    /\ (clock wall <= ep_ExpiresAt ep ->
        exchange.Decode L (exchange.SetNow c clock) code wall = Ok ep).
Proof.
  intros Hs Hc clock wall.
  rewrite (state_facts.Validate_clock L _ _ _ _ _ clock wall Hs).
  rewrite (Decode_clock _ _ _ _ _ clock wall Hc).
  unfold After.
  destruct (Z.ltb_spec (sp_ExpiresAt sp) (clock wall));
    destruct (Z.ltb_spec (ep_ExpiresAt ep) (clock wall));
    repeat split; try done; try lia.
Qed.

End Expiry.

(** ** The handlers *)

Lemma length_append (a b : string) :
  String.length (a +:+ b) = (String.length a + String.length b)%nat.
Proof. induction a as [|ch a IH]; simpl; [done | by rewrite IH]. Qed.

(** A header [Bearer <key>] with a key in it passes the header check of
    GET /exchange, and the key is what is left of it. *)
Lemma TrimPrefix_Bearer (apiKey : string) :
  TrimPrefix ("Bearer " +:+ apiKey) "Bearer " = apiKey
  /\ apiKey ≠ "Bearer " +:+ apiKey.
Proof.
  split; [done|]. intros Heq. apply (f_equal String.length) in Heq.
  rewrite length_append in Heq. simpl in Heq. lia.
Qed.

Lemma contains_elem (l : list string) (x : string) :
  client.contains l x = true <-> x ∈ l.
Proof.
  induction l as [|y l IH]; simpl.
  - split; [done | by intros ?%elem_of_nil].
  - case_bool_decide as Hy.
    + subst y. split; [intros _; apply list_elem_of_here | done].
    + rewrite IH. split; [apply list_elem_of_further|].
      intros [Heq|Hin]%elem_of_cons; [congruence | done].
Qed.

Module handler_facts.
Import handler.

Section WithLibraries.
Context (L : Libraries).

(** The first two checks of [Exchange] let a request through when its
    code is not empty ([Hcode]) and its header is [Bearer <key>]
    ([Hhdr]) with a key in it ([Hkey]). *)
Ltac pass_request_checks Hcode Hhdr Hkey :=
  rewrite (bool_decide_eq_false_2 _ Hcode);
  rewrite Hhdr, (proj1 (TrimPrefix_Bearer _));
  rewrite (bool_decide_eq_false_2 _ Hkey);
  rewrite (bool_decide_eq_false_2 _ (proj2 (TrimPrefix_Bearer _)));
  cbn [orb].


(** C7. At GET /exchange the code is decoded before the key is
    looked up. For a request with a non-empty code and a header
    [Bearer <key>] whose key is the API key of no registered client:
    when the code does not decode the answer is 400, "exchange code
    expired" for an expired code and "invalid exchange code"
    otherwise; when the code decodes the answer is 401. *)
Theorem decode_precedes_authentication
    (cs : list ClientApp) (clients : client.Registry)
    (codec : exchange.Codec) (r : Request) (wall : Z) (apiKey : string) :
  client.NewRegistry cs = Ok clients ->
  Values_Get (Query r) "code" ≠ EmptyString ->
  Values_Get (Header r) "Authorization" = "Bearer " +:+ apiKey ->
  apiKey ≠ EmptyString ->
  (forall c, c ∈ cs -> APIKey c ≠ apiKey) ->
  Exchange L clients codec r wall =
    match exchange.Decode L codec (Values_Get (Query r) "code") wall with
    | Err err =>
        if errors_Is err ErrExpiredExchangeCode
        then writeError 400 "exchange code expired"
        else writeError 400 "invalid exchange code"
    | Ok _ => writeError 401 "invalid API key"
    end.
Proof.
  intros Hreg Hcode Hhdr Hkey Hnone. unfold Exchange.
  pass_request_checks Hcode Hhdr Hkey.
  destruct (exchange.Decode _ _ _ _) as [payload|err]; [|done].
  rewrite client_facts.GetByAPIKey_lookup.
  rewrite (client_facts.NewRegistry_byAPIKey _ _ _ Hreg).
  by rewrite (proj2 (client_facts.latest_None APIKey apiKey cs)).
Qed.

Lemma Validate_empty s wall :
  is_Err (state.Validate L s EmptyString wall).
Proof. done. Qed.

(** C9. GET /callback/{provider} accepts a state whose provider
    differs from the path. For a state token that verifies, with a
    provider field other than the path segment: the answer is
    "unknown provider" exactly when the provider of the path is not
    registered, with status 400; when it is registered, it is that
    provider which is asked for the exchange, and if the exchange,
    the encoding of the code and the parse of the redirect URI
    succeed the answer is the 302 redirect to the client; an answer
    other than that redirect is due to one of these steps failing. *)
Theorem callback_accepts_provider_mismatch
    (providers : auth.Registry) (stateService : state.Service)
    (codec : exchange.Codec) (r : Request)
    (entropy : list byte) (wall wall' : Z) (sp : StatePayload) :
  let path := PathValue r "provider" in
  let params : gmap string string := omap head (Query r) in
  let resp := Callback L providers stateService codec r entropy wall wall' in
  let encoded result :=
    exchange.Encode L codec
      {| ep_ClientID := sp_ClientID sp; ep_ExpiresAt := zeroTime;
         ep_User := User result |} entropy wall' in
  state.Validate L stateService (Values_Get (Query r) "state") wall
    = Ok sp ->
  sp_Provider sp ≠ path ->
  (is_Err (auth.Get providers path)
     <-> ResponseBody resp.1 = ErrorJSON "unknown provider")
  /\ (is_Err (auth.Get providers path) -> Code resp.1 = 400)
  /\ (forall provider,
        auth.Get providers path = Ok provider ->
        (forall result code entropy' redirectURL,
            auth.Exchange provider params = Ok result ->
            encoded result = (Ok code, entropy') ->
            url_set_query L (sp_RedirectURI sp) "code" code
              = Some redirectURL ->
            resp = (Redirect redirectURL 302, entropy'))
        /\ (Code resp.1 ≠ 302 ->
            is_Err (auth.Exchange provider params)
            \/ (exists result,
                  auth.Exchange provider params = Ok result
                  /\ (is_Err (encoded result).1
                      \/ exists code entropy',
                           encoded result = (Ok code, entropy')
                           /\ url_set_query L (sp_RedirectURI sp)
                                "code" code = None)))).
Proof.
  intros path params resp encoded Hval _. subst resp encoded.
  unfold Callback. fold path. fold params.
  case_bool_decide as Htok.
  { pose proof (Validate_empty stateService wall) as Hempty.
    rewrite Htok in Hval. by rewrite Hval in Hempty. }
  rewrite Hval. destruct (auth.Get providers path) as [provider|e] eqn:Hget.
  - split; [|split; [done|]].
    + split; [done|].
      destruct (auth.Exchange provider params) as [result|err].
      * destruct (exchange.Encode _ _ _ _ _) as [[code|] entropy'];
          [|done]. by destruct (url_set_query _ _ _ _).
      * by destruct (errors_Is _ _).
    + intros ? [= <-]. split.
      * intros result code entropy' redirectURL -> -> ->. done.
      * destruct (auth.Exchange provider params) as [result|err];
          [|by left].
        intros Hcode. right. exists result. split; [done|].
        destruct (exchange.Encode _ _ _ _ _) as [[code|] entropy'];
          [|by left].
        right. exists code, entropy'. split; [done|].
        by destruct (url_set_query _ _ _ _).
  - split; [done|]. split; [done|]. done.
Qed.

(** C6, as the code has it. GET /auth/{provider} answers 403 exactly
    when client_id, redirect_uri and provider are not empty, the
    client exists, the redirect URI is on its list, and the provider
    is registered but not on the client's list. A request that names
    an unregistered provider is answered 400, never 403, whatever the
    client's list; the message is "unknown provider" when the three
    inputs are not empty, the client exists and the redirect URI is
    on its list, and otherwise that of the earlier check that
    failed. *)
Theorem authorize_check_order
    (clients : client.Registry) (providers : auth.Registry)
    (stateService : state.Service) (r : Request)
    (entropy : list byte) (wall : Z) :
  let clientID := Values_Get (Query r) "client_id" in
  let redirectURI := Values_Get (Query r) "redirect_uri" in
  let providerName := PathValue r "provider" in
  let resp := (Authorize L clients providers stateService r entropy wall).1 in
  let inputs_present :=
    clientID ≠ EmptyString /\ redirectURI ≠ EmptyString
    /\ providerName ≠ EmptyString in
  (Code resp = 403 <->
     inputs_present
     /\ exists c,
          client.Get clients clientID = Ok c
          /\ redirectURI ∈ AllowedCallbacks c
          /\ is_Ok (auth.Get providers providerName)
          /\ providerName ∉ AllowedProviders c)
  /\ (is_Err (auth.Get providers providerName) ->
      Code resp = 400
      /\ (inputs_present ->
          (exists c, client.Get clients clientID = Ok c
                     /\ redirectURI ∈ AllowedCallbacks c) ->
          resp = writeError 400 "unknown provider")).
Proof.
  intros clientID redirectURI providerName resp inputs_present.
  subst resp inputs_present. unfold Authorize.
  fold clientID. fold redirectURI. fold providerName.
  unfold client.ValidateCallback, client.ValidateProvider.
  case_bool_decide; [simpl; split; [split; [done|tauto]|tauto]|].
  case_bool_decide; [simpl; split; [split; [done|tauto]|tauto]|].
  case_bool_decide; [simpl; split; [split; [done|tauto]|tauto]|].
  destruct (client.Get clients clientID) as [c|e] eqn:Hc.
  2:{ simpl. split; [split; [done|]|].
      - by intros (_ & c & ? & _).
      - intros _. split; [done|]. by intros _ (c & ? & _). }
  destruct (client.contains (AllowedCallbacks c) redirectURI) eqn:Hcb.
  2:{ simpl. split; [split; [done|]|].
      - intros (_ & c' & [= <-] & Hin%contains_elem & _). congruence.
      - intros _. split; [done|].
        intros _ (c' & [= <-] & Hin%contains_elem). congruence. }
  apply contains_elem in Hcb.
  destruct (auth.Get providers providerName) as [provider|e] eqn:Hp.
  2:{ simpl. split; [split; [done|]|done].
      by intros (_ & c' & _ & _ & ? & _). }
  destruct (client.contains (AllowedProviders c) providerName) eqn:Hpr.
  - apply contains_elem in Hpr. split; [|done]. split.
    + destruct (state.Generate _ _ _ _ _) as [[tok|] ?]; [|done].
      by destruct (auth.AuthURL _ _).
    + by intros (_ & c' & [= <-] & _ & _ & Hout).
  - simpl. split; [|done]. split; [|done]. intros _.
    split; [done|]. exists c. repeat split; try done.
    intros Hin%contains_elem. congruence.
Qed.

End WithLibraries.

End handler_facts.

(** ** The Steam provider *)

Module regexp_facts.
Import regexp.

Lemma strip_prefix_Some prefix s rest :
  strip_prefix prefix s = Some rest -> s = prefix +:+ rest.
Proof.
  revert s. induction prefix as [|p prefix IH]; intros s; simpl.
  - by intros [= ->].
  - destruct s as [|c s]; [done|].
    destruct (Ascii.eqb_spec p c) as [->|]; [|done].
    by intros ->%IH.
Qed.

Lemma append_assoc (a b c : string) : (a +:+ b) +:+ c = a +:+ (b +:+ c).
Proof.
  induction a as [|ch a IH]; [done|].
  change (String ch ((a +:+ b) +:+ c) = String ch (a +:+ (b +:+ c))).
  by f_equal.
Qed.

Lemma append_empty_r (a : string) : a +:+ EmptyString = a.
Proof.
  induction a as [|ch a IH]; [done|].
  change (String ch (a +:+ EmptyString) = String ch a). by f_equal.
Qed.

Lemma digits_only_snoc taken c :
  digits_only taken = true -> is_digit c = true ->
  digits_only (taken +:+ String c EmptyString) = true.
Proof.
  induction taken as [|ch taken IH]; simpl; intros Ht Hc.
  - by rewrite Hc.
  - apply andb_true_iff in Ht as [-> Ht]. simpl. by apply IH.
Qed.

(** Whatever [star_digits] hands to its continuation is [taken] followed
    by more digits read from [s]. *)
Lemma star_digits_Some {A} (k : string -> string -> option A) s :
  forall taken r,
    digits_only taken = true ->
    star_digits k taken s = Some r ->
    exists more rest,
      s = more +:+ rest
      /\ digits_only (taken +:+ more) = true
      /\ k (taken +:+ more) rest = Some r.
Proof.
  assert (Hstop : forall taken r s0,
            digits_only taken = true -> k taken s0 = Some r ->
            exists more rest,
              s0 = more +:+ rest
              /\ digits_only (taken +:+ more) = true
              /\ k (taken +:+ more) rest = Some r).
  { intros taken r s0 Ht Hk. exists EmptyString, s0.
    by rewrite append_empty_r. }
  induction s as [|c s IH]; intros taken r Ht; simpl; [by apply Hstop|].
  destruct (is_digit c) eqn:Hc; [|by apply Hstop].
  destruct (star_digits k (taken +:+ String c EmptyString) s) as [r'|] eqn:Hs;
    [|by apply Hstop].
  intros [= <-]. apply IH in Hs as (more & rest & -> & Hd & Hk);
    [|by apply digits_only_snoc].
  exists (String c more), rest. rewrite append_assoc in Hd, Hk. done.
Qed.

Lemma find_Some items s whole groups :
  find items s = Some (whole, groups) ->
  exists before matched rest,
    s = before +:+ matched /\ match_here items matched = Some (groups, rest).
Proof.
  induction s as [|c s IH]; simpl.
  - destruct (match_here items "") as [[g rest]|] eqn:Hm; [|done].
    intros [= _ <-]. by exists EmptyString, EmptyString, rest.
  - destruct (match_here items (String c s)) as [[g rest]|] eqn:Hm.
    + intros [= _ <-]. by exists EmptyString, (String c s), rest.
    + intros (before & matched & rest & -> & Hmatch)%IH.
      by exists (String c before), matched, rest.
Qed.

Lemma match_here_Lit l items s :
  match_here (Lit l :: items) s =
    match strip_prefix l s with
    | Some s' => match_here items s'
    | None => None
    end.
Proof. done. Qed.

Lemma match_here_Opt c items s :
  match_here (Opt c :: items) s =
    match s with
    | String c' s' =>
        if Ascii.eqb c c' then
          match match_here items s' with
          | Some r => Some r
          | None => match_here items s
          end
        else match_here items s
    | EmptyString => match_here items s
    end.
Proof. by destruct s. Qed.

(** The end of the Steam pattern: the path, then the captured digits. *)
Lemma match_here_path_digits s groups rest :
  match_here [Lit "://steamcommunity.com/openid/id/"; CaptureDigits] s
    = Some (groups, rest) ->
  exists id,
    groups = [id]
    /\ s = "://steamcommunity.com/openid/id/" +:+ id +:+ rest
    /\ id ≠ EmptyString /\ digits_only id = true.
Proof.
  rewrite match_here_Lit.
  destruct (strip_prefix _ s) as [s'|] eqn:Hs; [|done].
  apply strip_prefix_Some in Hs as ->.
  destruct s' as [|c s']; [done|]. cbn [match_here].
  destruct (is_digit c) eqn:Hc; [|done].
  intros (more & after & -> & Hd & [= <- <-])%star_digits_Some;
    [|by simpl; rewrite Hc].
  by exists (String c more).
Qed.

(** The Steam pattern, matched at the start of a text. *)
Lemma match_here_steamID s groups rest :
  match_here
    [Lit "http"; Opt "s"; Lit "://steamcommunity.com/openid/id/";
     CaptureDigits] s = Some (groups, rest) ->
  exists scheme id,
    groups = [id]
    /\ s = scheme +:+ "://steamcommunity.com/openid/id/" +:+ id +:+ rest
    /\ (scheme = "http" \/ scheme = "https")
    /\ id ≠ EmptyString /\ digits_only id = true.
Proof.
  rewrite match_here_Lit.
  destruct (strip_prefix "http" s) as [s1|] eqn:Hs; [|done].
  apply strip_prefix_Some in Hs as ->. rewrite match_here_Opt.
  assert (Hplain : forall m,
            match_here [Lit "://steamcommunity.com/openid/id/"; CaptureDigits]
              m = Some (groups, rest) ->
            forall scheme, (scheme = "http" \/ scheme = "https") ->
            exists scheme0 id,
              groups = [id]
              /\ scheme +:+ m
                 = scheme0 +:+ "://steamcommunity.com/openid/id/"
                   +:+ id +:+ rest
              /\ (scheme0 = "http" \/ scheme0 = "https")
              /\ id ≠ EmptyString /\ digits_only id = true).
  { intros m (id & -> & -> & Hne & Hd)%match_here_path_digits scheme Hscheme.
    by exists scheme, id. }
  destruct s1 as [|c s1]; [intros H; apply (Hplain _ H "http"); by left|].
  destruct (Ascii.eqb_spec "s" c) as [<-|Hc];
    [|intros H; apply (Hplain _ H "http"); by left].
  destruct (match_here _ s1) as [r|] eqn:Hs.
  - intros [= ->]. apply (Hplain _ Hs "https"). by right.
  - intros H. apply (Hplain _ H "http"). by left.
Qed.

End regexp_facts.

Module steam_facts.
Import steam scenario.

(** What [extractSteamID] does ensure: the SteamID it returns is a
    non-empty run of digits that follows, somewhere in the claimed_id,
    the text [http://steamcommunity.com/openid/id/] or its https form.
    Nothing is asked of what stands before or after. *)
Lemma extractSteamID_Ok claimedID steamID :
  extractSteamID claimedID = Ok steamID ->
  exists before scheme after,
    claimedID = before +:+ scheme +:+ "://steamcommunity.com/openid/id/"
                +:+ steamID +:+ after
    /\ (scheme = "http" \/ scheme = "https")
    /\ steamID ≠ EmptyString
    /\ regexp.digits_only steamID = true.
Proof.
  unfold extractSteamID, regexp.FindStringSubmatch.
  destruct (regexp.find steamIDRegex claimedID) as [[whole groups]|] eqn:Hfind;
    [|done].
  apply regexp_facts.find_Some in Hfind
    as (before & matched & rest & -> & Hmatch).
  apply regexp_facts.match_here_steamID in Hmatch
    as (scheme & id & -> & -> & Hscheme & Hne & Hd).
  simpl. intros [= <-]. by exists before, scheme, rest.
Qed.

(** What the tests of [extractSteamID] expect. *)
Example extractSteamID_tests :
  extractSteamID "https://steamcommunity.com/openid/id/76561198012345678"
    = Ok "76561198012345678"
  /\ extractSteamID "http://steamcommunity.com/openid/id/12345" = Ok "12345"
  /\ is_Err (extractSteamID "https://evil.com/openid/id/12345")
  /\ is_Err (extractSteamID "not-a-url").
Proof. vm_compute. done. Qed.

(** C8 fails on the code: the pattern is searched for anywhere in the
    claimed_id. For the claimed_id [forgedClaimedID], on the host
    evil.example, [extractSteamID] returns the SteamID found in the
    query, and once Steam has confirmed the assertion [Exchange]
    fetches the player summary of that SteamID and succeeds. *)
Theorem claimed_id_on_another_host_is_accepted :
  HasPrefix forgedClaimedID "https://evil.example/" = true
  /\ extractSteamID forgedClaimedID = Ok "76561198012345678"
  /\ exists user sent fetch,
       Exchange unmarshalVictim steamProvider forgedParams
         = (Ok {| User := user |}, sent)
       /\ ProviderID user = "76561198012345678"
       /\ fetch ∈ sent
       /\ Method fetch = "GET"
       /\ URL fetch = playerSummaryURL steamProvider
       /\ Values fetch !! "steamids" = Some "76561198012345678".
Proof.
  split; [done|]. split; [by vm_compute|].
  remember (Exchange unmarshalVictim steamProvider forgedParams) as out
    eqn:Hout.
  vm_compute in Hout. subst out.
  eexists _, _, _. split; [reflexivity|].
  split; [done|]. split; [apply list_elem_of_further, list_elem_of_here|].
  by vm_compute.
Qed.

End steam_facts.

(** ** The theorems at the scenarios *)

Section Scenarios.
Import scenario.


Lemma NoDup_website_twin : NoDup (ID <$> [] ++ website :: [] ++ twin :: []).
Proof. apply (bool_decide_unpack _). by vm_compute. Defined.

(** [website] and [twin] share an API key: the registry is built, and
    the key leads to [twin]. *)
Lemma shared_api_key_later_record_wins_witness :
  APIKey website = APIKey twin
  /\ exists r,
       client.NewRegistry [website; twin] = Ok r
       /\ client.GetByAPIKey r "web-api-key-secret" = Ok twin
       /\ (forall k, client.GetByAPIKey r k ≠ Ok website)
       /\ client.Get r "website" = Ok website.
Proof.
  split; [reflexivity|].
  apply (shared_api_key_later_record_wins [] [] [] website twin
           NoDup_website_twin eq_refl).
  intros c Hc. by apply elem_of_nil in Hc.
Defined.

(** S1: the code made for [website] at [noon] is read back 30 seconds
    later. *)
Lemma exchange_roundtrip_witness :
  exchange.NewCodec L encKey = Ok codec
  /\ exists p',
       exchange.Decode L (exchange.SetNow codec systemClock) exchangeCode
         (noon + 30 * Second) = Ok p'
       /\ ep_ClientID p' = "website"
       /\ ep_User p' = tactical
       /\ ep_ExpiresAt p' = noon + 30 * Second.
Proof.
  split; [reflexivity|].
  apply (exchange_facts.exchange_roundtrip L encKey codec systemClock
           websitePayload entropy (drop 12 entropy) noon
           (noon + 30 * Second) exchangeCode).
  - apply reference_facts.base16_lossless.
  - apply reference_facts.keyed_prefix_correct.
  - apply reference_json_facts.fields_ExchangePayload_coerces.
  - by vm_compute.
  - reflexivity.
  - by vm_compute.
  - by vm_compute.
Defined.

(** S1: the state token issued at [noon] verifies five minutes later. *)
Lemma state_roundtrip_witness :
  exists nonce p',
    rand_Read 16 entropy = Some (nonce, drop 16 entropy)
    /\ length nonce = 16%nat
    /\ state.Validate L (state.SetNow (state.NewService stateKey) systemClock)
         (stateToken "discord") (noon + 5 * Minute) = Ok p'
    /\ sp_ClientID p' = "website"
    /\ sp_Provider p' = "discord"
    /\ sp_RedirectURI p' = "https://example.com/auth/callback"
    /\ sp_Nonce p' = hex_EncodeToString nonce
    /\ sp_ExpiresAt p' = noon + 5 * Minute
    /\ noon < sp_ExpiresAt p'.
Proof.
  apply (state_facts.state_roundtrip L stateKey systemClock
           (statePayload "discord") entropy (drop 16 entropy) noon
           (noon + 5 * Minute) (stateToken "discord")).
  - apply reference_facts.base16_lossless.
  - apply reference_facts.base16_no_dot.
  - apply reference_json_facts.fields_StatePayload_coerces.
  - by vm_compute.
  - by vm_compute.
  - by vm_compute.
  - by vm_compute.
  - by vm_compute.
Defined.

(** C2 fails at a user name that holds the byte [0xFF]: the code is
    made and read back within its time, and the user name comes back
    with U+FFFD where the byte was, so that the user is not the one
    that was encoded. *)
Lemma exchange_roundtrip_garbles_invalid_utf8 :
  exchange.NewCodec L encKey = Ok codec
  /\ json_coerces coerced_ExchangePayload (json_ExchangePayload L)
  /\ utf8.ValidString (Username (ep_User garbledPayload)) = false
  /\ exists code p',
       exchange.Encode L (exchange.SetNow codec systemClock) garbledPayload
         entropy noon = (Ok code, drop 12 entropy)
       /\ exchange.Decode L (exchange.SetNow codec systemClock) code noon
          = Ok p'
       /\ Username (ep_User p') = "t" +:+ utf8.replacement +:+ "x"
       /\ ep_User p' ≠ ep_User garbledPayload.
Proof.
  split; [reflexivity|].
  split; [apply reference_json_facts.fields_ExchangePayload_coerces|].
  split; [by vm_compute|].
  assert (Henc : exists code,
            exchange.Encode L (exchange.SetNow codec systemClock)
              garbledPayload entropy noon = (Ok code, drop 12 entropy)).
  { vm_compute. eexists. reflexivity. }
  destruct Henc as [code Henc].
  exists code,
    (coerced_ExchangePayload
       (exchange.stamp garbledPayload (noon + 30 * Second))).
  split; [exact Henc|]. split.
  - apply (exchange_facts.Decode_Encode_coerced L encKey codec systemClock
             garbledPayload entropy (drop 12 entropy) noon noon code).
    + apply reference_facts.base16_lossless.
    + apply reference_facts.keyed_prefix_correct.
    + apply reference_json_facts.fields_ExchangePayload_coerces.
    + reflexivity.
    + exact Henc.
    + by vm_compute.
  - split; by vm_compute.
Qed.

(** C3 fails at a client id that is the byte [0xFF]: the token is
    issued and verifies within its time, and the client id comes back
    as U+FFFD. *)
Lemma state_roundtrip_garbles_invalid_utf8 :
  json_coerces coerced_StatePayload (json_StatePayload L)
  /\ utf8.ValidString (sp_ClientID garbledState) = false
  /\ exists token p',
       state.Generate L (state.SetNow (state.NewService stateKey) systemClock)
         garbledState entropy noon = (Ok token, drop 16 entropy)
       /\ state.Validate L
            (state.SetNow (state.NewService stateKey) systemClock)
            token noon = Ok p'
       /\ sp_ClientID p' = utf8.replacement
       /\ sp_ClientID p' ≠ sp_ClientID garbledState.
Proof.
  split; [apply reference_json_facts.fields_StatePayload_coerces|].
  split; [by vm_compute|].
  assert (Hgen : exists token,
            state.Generate L
              (state.SetNow (state.NewService stateKey) systemClock)
              garbledState entropy noon = (Ok token, drop 16 entropy)).
  { vm_compute. eexists. reflexivity. }
  destruct Hgen as [token Hgen].
  exists token,
    (coerced_StatePayload
       (state.stamp garbledState (hex_EncodeToString (take 16 entropy))
          (noon + 5 * Minute))).
  split; [exact Hgen|]. split.
  - apply (state_facts.Validate_Generate_coerced L stateKey systemClock
             garbledState entropy (drop 16 entropy) noon noon token).
    + apply reference_facts.base16_lossless.
    + apply reference_facts.base16_no_dot.
    + apply reference_json_facts.fields_StatePayload_coerces.
    + exact Hgen.
    + by vm_compute.
  - split; by vm_compute.
Qed.

(** The token and the code of S1 are accepted at their expiry and
    refused one nanosecond later. *)
Lemma expiry_is_strict_witness :
  state.Validate L (state.SetNow stateService systemClock) (stateToken "discord")
    (noon + 5 * Minute)
    = Ok (state.stamp (statePayload "discord")
            (hex_EncodeToString (take 16 entropy)) (noon + 5 * Minute))
  /\ state.Validate L (state.SetNow stateService systemClock)
       (stateToken "discord") (noon + 5 * Minute + 1)
     = Err (Sentinel ErrExpiredState)
  /\ exchange.Decode L (exchange.SetNow codec systemClock) exchangeCode
       (noon + 30 * Second)
     = Ok (exchange.stamp websitePayload (noon + 30 * Second))
  /\ exchange.Decode L (exchange.SetNow codec systemClock) exchangeCode
       (noon + 30 * Second + 1)
     = Err (Sentinel ErrExpiredExchangeCode).
Proof.
  assert (Hs : state.Validate L (state.SetNow stateService systemClock)
                 (stateToken "discord") noon
               = Ok (state.stamp (statePayload "discord")
                       (hex_EncodeToString (take 16 entropy))
                       (noon + 5 * Minute))) by (by vm_compute).
  assert (Hc : exchange.Decode L (exchange.SetNow codec systemClock) exchangeCode
                 noon
               = Ok (exchange.stamp websitePayload (noon + 30 * Second)))
    by (by vm_compute).
  pose proof (expiry_is_strict L stateService codec _ _ _ _ systemClock systemClock
                noon noon Hs Hc) as Hstrict.
  destruct (Hstrict systemClock (noon + 5 * Minute)) as (_ & Hs1 & _ & _).
  destruct (Hstrict systemClock (noon + 5 * Minute + 1)) as (Hs2 & _ & _ & _).
  destruct (Hstrict systemClock (noon + 30 * Second)) as (_ & _ & _ & Hc1).
  destruct (Hstrict systemClock (noon + 30 * Second + 1)) as (_ & _ & Hc2 & _).
  split; [apply Hs1; by vm_compute|].
  split; [apply Hs2; by vm_compute|].
  split; [apply Hc1; by vm_compute|].
  apply Hc2; by vm_compute.
Defined.


(** A key of no client: an unreadable code is answered 400, the code
    of S1 is answered 401. *)
Lemma decode_precedes_authentication_witness :
  client.NewRegistry [website; admin] = Ok clients
  /\ handler.Exchange L clients codec
       (request "" [("code", "zz")] (Some "Bearer guess")) noon
     = handler.writeError 400 "invalid exchange code"
  /\ handler.Exchange L clients codec
       (request "" [("code", exchangeCode)] (Some "Bearer guess")) noon
     = handler.writeError 401 "invalid API key".
Proof.
  assert (Hreg : client.NewRegistry [website; admin] = Ok clients)
    by (by vm_compute).
  assert (Hnone : forall c, c ∈ [website; admin] -> APIKey c ≠ "guess").
  { intros c [->|[->|Hc%elem_of_nil]%elem_of_cons]%elem_of_cons; done. }
  split; [exact Hreg|]. split.
  - rewrite (handler_facts.decode_precedes_authentication L _ clients codec
               (request "" [("code", "zz")] (Some "Bearer guess")) noon
               "guess" Hreg); [by vm_compute | by vm_compute | by vm_compute
                               | done | exact Hnone].
  - rewrite (handler_facts.decode_precedes_authentication L _ clients codec
               (request "" [("code", exchangeCode)] (Some "Bearer guess"))
               noon "guess" Hreg);
      [by vm_compute | by vm_compute | by vm_compute | done | exact Hnone].
Defined.

(** A state issued for steam, returned to /callback/discord: the flow
    completes with the discord provider. *)
Lemma callback_accepts_provider_mismatch_witness :
  let r := request "discord"
             [("state", stateToken "steam"); ("code", "auth-code")] None in
  state.Validate L stateService (stateToken "steam") noon
    = Ok (state.stamp (statePayload "steam")
            (hex_EncodeToString (take 16 entropy)) (noon + 5 * Minute))
  /\ handler.Code
       (handler.Callback L providers stateService codec r entropy noon noon).1
     = 302.
Proof.
  intros r.
  assert (Hval : state.Validate L stateService
                   (handler.Values_Get (handler.Query r) "state") noon
                 = Ok (state.stamp (statePayload "steam")
                         (hex_EncodeToString (take 16 entropy))
                         (noon + 5 * Minute))) by (by vm_compute).
  split; [exact Hval|].
  destruct (handler_facts.callback_accepts_provider_mismatch L providers
              stateService codec r entropy noon noon _ Hval)
    as (_ & _ & Hreg); [by vm_compute|].
  destruct (Hreg (stub "discord" tactical)) as [Hok _]; [by vm_compute|].
  match goal with
  | |- context [handler.Callback ?a ?b ?c ?d ?e ?f ?g ?h] =>
      remember (handler.Callback a b c d e f g h) as out eqn:Hout
  end.
  vm_compute in Hout. subst out. reflexivity.
Defined.

(** S4: [admin] allows only discord and asks for steam: 403. *)
Lemma authorize_check_order_witness :
  handler.Code
    (handler.Authorize L clients providers stateService
       (request "steam"
          [("client_id", "admin");
           ("redirect_uri", "https://admin.example.com/callback")] None)
       entropy noon).1 = 403.
Proof.
  apply (proj1 (handler_facts.authorize_check_order L clients providers
                  stateService _ entropy noon)).
  split; [by vm_compute|]. exists admin.
  split; [by vm_compute|]. split; [apply list_elem_of_here|].
  split; [by vm_compute|].
  intros [Heq|Hin%elem_of_nil]%elem_of_cons; done.
Defined.

(** The entry point refuses a 16-byte key and accepts the 32-byte one. *)
Lemma NewCodec_key_sizes_witness :
  is_Err (main.buildCodec L shortKey)
  /\ main.buildCodec L encKey = Ok codec.
Proof.
  split.
  - apply (proj1 (proj2 (exchange_facts.NewCodec_key_sizes L shortKey))).
    by vm_compute.
  - reflexivity.
Defined.

(** C5 fails at a 16-byte key: it is not 32 bytes long, and [NewCodec]
    returns a codec for it. *)
Lemma NewCodec_accepts_16_byte_key :
  length shortKey ≠ 32%nat
  /\ ~ is_Err (exchange.NewCodec L shortKey)
  /\ exists c, exchange.NewCodec L shortKey = Ok c.
Proof.
  split; [by vm_compute|]. split; [by vm_compute|]. by eexists.
Qed.

(** C6 fails at two requests. The first names the unregistered
    provider github and an unknown client: the answer is "unknown
    client", not "unknown provider". The second has no client_id, while
    a client with the empty id exists, allows the redirect URI, and
    does not allow the registered provider discord: the answer is 400,
    not 403. *)
Lemma authorize_earlier_checks_win :
  let r1 := request "github"
              [("client_id", "nobody");
               ("redirect_uri", "https://example.com/auth/callback")]
              None in
  let r2 := request "discord"
              [("redirect_uri", "https://example.com/auth/callback")]
              None in
  (is_Err (auth.Get providers "github")
   /\ (handler.Authorize L clients providers stateService r1 entropy noon).1
      = handler.writeError 400 "unknown client"
   /\ handler.writeError 400 "unknown client"
      ≠ handler.writeError 400 "unknown provider")
  /\ (client.Get anonymousOnly
        (handler.Values_Get (handler.Query r2) "client_id") = Ok anonymous
      /\ handler.Values_Get (handler.Query r2) "redirect_uri"
         ∈ AllowedCallbacks anonymous
      /\ is_Ok (auth.Get providers (handler.PathValue r2 "provider"))
      /\ (handler.PathValue r2 "provider" ∉ AllowedProviders anonymous)
      /\ handler.Code
           (handler.Authorize L anonymousOnly providers stateService r2
              entropy noon).1 = 400).
Proof.
  intros r1 r2. split; [split; [by vm_compute|split; [by vm_compute|done]]|].
  split; [by vm_compute|]. split; [apply list_elem_of_here|].
  split; [by vm_compute|]. split; [by intros ?%elem_of_nil|].
  by vm_compute.
Qed.

End Scenarios.

(** * Further properties of the code *)

(** ** The client registry *)

Module client_properties.
Import client client_facts.

Lemma NewRegistry_loop_Ok_inv cs : forall r0 r,
  NewRegistry_loop cs r0 = Ok r ->
  NoDup (ID <$> cs) /\ forall c, c ∈ cs -> byID r0 !! ID c = None.
Proof.
  induction cs as [|c cs IH]; intros r0 r Hloop; simpl in Hloop.
  - split; [constructor | by intros c ?%elem_of_nil].
  - destruct (byID r0 !! ID c) eqn:Hfree; [discriminate|].
    apply IH in Hloop as [Hnd Hrest]. simpl in Hrest.
    assert (Hfresh : forall c', c' ∈ cs -> ID c' ≠ ID c).
    { intros c' Hc' Heq. specialize (Hrest c' Hc').
      by rewrite Heq, lookup_insert_eq in Hrest. }
    split.
    + rewrite fmap_cons. apply NoDup_cons. split; [|done].
      intros (c' & Heq & Hc')%list_elem_of_fmap. by apply (Hfresh c').
    + intros c' [->|Hc']%elem_of_cons; [done|].
      specialize (Hrest c' Hc').
      by rewrite lookup_insert_ne in Hrest by (symmetry; by apply Hfresh).
Qed.

Lemma NewRegistry_loop_Err cs : forall r0 e,
  NewRegistry_loop cs r0 = Err e ->
  exists c, c ∈ cs /\ e = Wrapped ErrDuplicateClientID (ID c).
Proof.
  induction cs as [|c cs IH]; intros r0 e Hloop; simpl in Hloop; [done|].
  destruct (byID r0 !! ID c).
  - injection Hloop as <-. exists c. split; [apply list_elem_of_here | done].
  - apply IH in Hloop as (c' & Hc' & ->). exists c'.
    split; [by apply list_elem_of_further | done].
Qed.

(** [NewRegistry] succeeds exactly when no two records of the list have
    the same id; when it fails, the error is [ErrDuplicateClientID]
    wrapped with the id of a record of the list. *)
Theorem NewRegistry_unique_ids (cs : list ClientApp) :
  (is_Ok (NewRegistry cs) <-> NoDup (ID <$> cs))
  /\ (forall e, NewRegistry cs = Err e ->
        errors_Is e ErrDuplicateClientID = true
        /\ exists c, c ∈ cs /\ e = Wrapped ErrDuplicateClientID (ID c)).
Proof.
  split; [split|].
  - destruct (NewRegistry cs) as [r|] eqn:Hr; [|done].
    intros _. by apply NewRegistry_loop_Ok_inv in Hr as [? _].
  - intros [r ->]%NewRegistry_Ok. done.
  - intros e (c & Hc & ->)%NewRegistry_loop_Err. split; [done|]. by exists c.
Qed.

(** On a registry built from a list, [Get] returns the last record of
    the list with the id, and the ids of the list are distinct. *)
Lemma Get_latest (cs : list ClientApp) (r : Registry) (id : string) :
  NewRegistry cs = Ok r ->
  NoDup (ID <$> cs)
  /\ Get r id = match latest ID id cs with
                | Some c => Ok c
                | None => Err (Sentinel ErrClientNotFound)
                end.
Proof.
  intros Hr. unfold Get. rewrite (NewRegistry_byID _ _ _ Hr).
  apply NewRegistry_loop_Ok_inv in Hr as [Hnd _]. split; [done|].
  by destruct (latest ID id cs).
Qed.

(** On a registry built from a list, [Get] finds exactly the records of
    the list, each under its id, and answers [ErrClientNotFound] for any
    other id. *)
Theorem Get_registered (cs : list ClientApp) (r : Registry) (id : string) :
  NewRegistry cs = Ok r ->
  (forall c, Get r id = Ok c <-> c ∈ cs /\ ID c = id)
  /\ ((forall c, c ∈ cs -> ID c ≠ id) ->
      Get r id = Err (Sentinel ErrClientNotFound)).
Proof.
  intros Hr. destruct (Get_latest cs r id Hr) as [Hnd ->]. split.
  - intros c. split.
    + destruct (latest ID id cs) as [c'|] eqn:Hl; [|done].
      intros [= <-]. by apply latest_elem in Hl.
    + intros [Hc <-]. by rewrite latest_NoDup.
  - intros Hnone. by rewrite (proj2 (latest_None ID id cs)).
Qed.

(** [GetByAPIKey] does not depend on the order in which Go walks the
    map: scanning the entries of [byAPIKey] in any order gives the same
    answer. *)
Theorem GetByAPIKey_any_order
    (r : Registry) (entries : list (string * ClientApp)) (apiKey : string) :
  entries ≡ₚ map_to_list (byAPIKey r) ->
  scanAPIKeys entries apiKey = GetByAPIKey r apiKey.
Proof.
  intros Hperm. unfold GetByAPIKey. symmetry.
  apply scanAPIKeys_order; [apply NoDup_fst_map_to_list | done].
Qed.

(** On a registry built from a list, [GetByAPIKey] succeeds exactly for
    the API keys of the list and returns a record of the list with that
    key; any other key is answered [ErrInvalidAPIKey], the only error;
    and when no two records share a key each record is found under its
    own. *)
Theorem GetByAPIKey_registered_keys
    (cs : list ClientApp) (r : Registry) (apiKey : string) :
  NewRegistry cs = Ok r ->
  (is_Ok (GetByAPIKey r apiKey) <-> exists c, c ∈ cs /\ APIKey c = apiKey)
  /\ (forall c, GetByAPIKey r apiKey = Ok c -> c ∈ cs /\ APIKey c = apiKey)
  /\ (forall e, GetByAPIKey r apiKey = Err e -> e = Sentinel ErrInvalidAPIKey)
  /\ (NoDup (APIKey <$> cs) ->
      forall c, c ∈ cs -> GetByAPIKey r (APIKey c) = Ok c).
Proof.
  intros Hr. split; [|split; [|split]].
  - rewrite GetByAPIKey_lookup, (NewRegistry_byAPIKey _ _ _ Hr).
    destruct (latest APIKey apiKey cs) as [c|] eqn:Hl; simpl.
    + split; [|done]. intros _. exists c. by apply latest_elem in Hl.
    + split; [done|]. intros (c & Hc & Hk).
      by apply (proj1 (latest_None APIKey apiKey cs) Hl c).
  - intros c. by apply GetByAPIKey_registered.
  - intros e. rewrite GetByAPIKey_lookup.
    destruct (byAPIKey r !! apiKey); [done | by intros [= <-]].
  - intros Hnd c Hc. by apply (GetByAPIKey_member cs).
Qed.

(** On a registry built from a list, [ValidateCallback] accepts a URI
    exactly when the record with the given id lists that very string,
    and [ValidateProvider] likewise for provider names; for an id of no
    record both answer [ErrClientNotFound], not a refusal of the URI or
    of the provider. *)
Theorem Validate_exact_match
    (cs : list ClientApp) (r : Registry) (id x : string) :
  NewRegistry cs = Ok r ->
  (ValidateCallback r id x = Ok tt <->
     exists c, c ∈ cs /\ ID c = id /\ x ∈ AllowedCallbacks c)
  /\ (ValidateProvider r id x = Ok tt <->
     exists c, c ∈ cs /\ ID c = id /\ x ∈ AllowedProviders c)
  /\ ((forall c, c ∈ cs -> ID c ≠ id) ->
      ValidateCallback r id x = Err (Sentinel ErrClientNotFound)
      /\ ValidateProvider r id x = Err (Sentinel ErrClientNotFound))
  /\ (forall c, c ∈ cs -> ID c = id ->
      (x ∉ AllowedCallbacks c ->
       ValidateCallback r id x = Err (Sentinel ErrCallbackNotAllowed))
      /\ (x ∉ AllowedProviders c ->
          ValidateProvider r id x = Err (Sentinel ErrProviderNotAllowed))).
Proof.
  intros Hr. destruct (Get_latest cs r id Hr) as [Hnd Hlatest].
  assert (Hget : forall c, Get r id = Ok c <-> c ∈ cs /\ ID c = id).
  { intros c. rewrite Hlatest. split.
    - destruct (latest ID id cs) as [c'|] eqn:Hl; [|done].
      intros [= <-]. by apply latest_elem in Hl.
    - intros [Hc <-]. by rewrite latest_NoDup. }
  assert (Hnone : (forall c, c ∈ cs -> ID c ≠ id) ->
                  Get r id = Err (Sentinel ErrClientNotFound)).
  { intros Hno. by rewrite Hlatest, (proj2 (latest_None ID id cs)). }
  unfold ValidateCallback, ValidateProvider.
  destruct (Get r id) as [c0|e] eqn:Hc0.
  - destruct (proj1 (Hget c0) eq_refl) as [Hin Hid].
    assert (Hsame : forall c, c ∈ cs -> ID c = id -> c = c0).
    { intros c Hc Hcid. assert (Ok c0 = Ok c) as Hc' by (by apply Hget).
      congruence. }
    split; [|split; [|split]].
    + destruct (contains _ x) eqn:Hx.
      * apply contains_elem in Hx. split; [|done]. intros _. by exists c0.
      * split; [done|]. intros (c & Hc & Hcid & Hin').
        rewrite (Hsame c Hc Hcid) in Hin'.
        apply contains_elem in Hin'. congruence.
    + destruct (contains _ x) eqn:Hx.
      * apply contains_elem in Hx. split; [|done]. intros _. by exists c0.
      * split; [done|]. intros (c & Hc & Hcid & Hin').
        rewrite (Hsame c Hc Hcid) in Hin'.
        apply contains_elem in Hin'. congruence.
    + intros Hno. by destruct (Hno c0 Hin).
    + intros c Hc Hcid. rewrite (Hsame c Hc Hcid). split; intros Hout.
      * destruct (contains _ x) eqn:Hx; [|done].
        by apply contains_elem in Hx.
      * destruct (contains _ x) eqn:Hx; [|done].
        by apply contains_elem in Hx.
  - assert (Hno : forall c, c ∈ cs -> ID c ≠ id).
    { intros c Hc Hcid. assert (Err e = Ok c) as Hc' by (by apply Hget).
      congruence. }
    assert (e = Sentinel ErrClientNotFound) as ->.
    { specialize (Hnone Hno). congruence. }
    split; [|split; [|split]].
    + split; [done|]. intros (c & Hc & Hcid & _). destruct (Hno c Hc Hcid).
    + split; [done|]. intros (c & Hc & Hcid & _). destruct (Hno c Hc Hcid).
    + done.
    + intros c Hc Hcid. destruct (Hno c Hc Hcid).
Qed.

End client_properties.

(** ** The provider registry and GET /providers *)

Module auth_properties.
Import auth.

(** [Register] succeeds exactly when the name of the provider is free.
    Then the provider is found under its name and every other name is
    answered as before; when the name is taken the error is
    [ErrDuplicateProvider]. *)
Theorem Register_Get (r : Registry) (p : Provider) :
  (is_Ok (Register r p) <-> is_Err (Get r (Name p)))
  /\ (forall r', Register r p = Ok r' ->
        Get r' (Name p) = Ok p
        /\ forall name, name ≠ Name p -> Get r' name = Get r name)
  /\ (forall e, Register r p = Err e ->
        errors_Is e ErrDuplicateProvider = true).
Proof.
  unfold Register, Get.
  destruct (providers r !! Name p) as [q|] eqn:Hq; simpl.
  - split; [done|]. split; [done|]. by intros e [= <-].
  - split; [done|]. split; [|done]. intros r' [= <-]. simpl. split.
    + by rewrite lookup_insert_eq.
    + intros name Hne. by rewrite lookup_insert_ne.
Qed.

(** [Names] lists every registered name once, and nothing else. *)
Lemma Names_spec (r : Registry) :
  NoDup (Names r) /\ forall name, name ∈ Names r <-> is_Ok (Get r name).
Proof.
  unfold Names, Get. split; [apply NoDup_fst_map_to_list|].
  intros name. rewrite list_elem_of_fmap. split.
  - intros ([n p] & -> & Hin%elem_of_map_to_list). simpl. by rewrite Hin.
  - destruct (providers r !! name) as [p|] eqn:Hp; [|done].
    intros _. exists (name, p). split; [done | by apply elem_of_map_to_list].
Qed.

(** GET /providers answers 200 with the registered names, each once, in
    increasing order, and nothing else; the body is the same whatever
    the order in which Go walks the map of the registry. *)
Theorem Providers_sorted (r : Registry) :
  let resp := handler.Providers r in
  handler.names_Code resp = 200
  /\ Sorted String.le (handler.names_Body resp)
  /\ NoDup (handler.names_Body resp)
  /\ (forall name, name ∈ handler.names_Body resp <-> is_Ok (Get r name))
  /\ (forall names, names ≡ₚ Names r ->
        handler.sort_Strings names = handler.names_Body resp).
Proof.
  destruct (Names_spec r) as [Hnd Hnames]. simpl. unfold handler.sort_Strings.
  split; [done|]. split; [apply Sorted_merge_sort; apply _|].
  split; [by rewrite merge_sort_Permutation|].
  split; [intros name; by rewrite merge_sort_Permutation|].
  intros names Hperm.
  apply (Sorted_unique String.le); try apply Sorted_merge_sort; try apply _.
  by rewrite !merge_sort_Permutation.
Qed.

End auth_properties.

(** ** The state service *)

Module state_properties.
Import state.

Lemma cut_dot_Some s before after :
  cut_dot s = Some (before, after) ->
  s = before +:+ "." +:+ after /\ cut_dot before = None.
Proof.
  revert before. induction s as [|ch s IH]; intros before; simpl; [done|].
  destruct (Ascii.eqb_spec ch ".") as [->|Hch].
  - by intros [= <- <-].
  - destruct (cut_dot s) as [[b a]|] eqn:Hcut; [|done].
    intros [= <- <-]. destruct (IH b eq_refl) as [-> Hb]. split; [done|].
    simpl. rewrite (proj2 (Ascii.eqb_neq ch ".") Hch). by rewrite Hb.
Qed.


Section WithLibraries.
Context (L : Libraries).

(** What a token that [Generate] returns is made of. *)
Lemma Generate_Ok s p entropy wall token entropy' :
  Generate L s p entropy wall = (Ok token, entropy') ->
  exists data,
    entropy' = drop 16 entropy
    /\ (16 <= length entropy)%nat
    /\ Marshal (json_StatePayload L)
         (stamp p (hex_EncodeToString (take 16 entropy))
            (now s wall + expiry s)) = Some data
    /\ token = EncodeToString (RawURLEncoding L) data +:+ "."
               +:+ sign L s (EncodeToString (RawURLEncoding L) data).
Proof.
  unfold Generate, nonceBytes, rand_Read, Add.
  destruct (16 <=? length entropy)%nat eqn:Hlen; [|done].
  apply Nat.leb_le in Hlen.
  destruct (Marshal _ _) as [data|] eqn:Hm; [|done].
  intros [= <- <-]. by exists data.
Qed.

(** What [Validate] makes of a payload segment with its signature. *)
Lemma Validate_signed s clock wall data sp :
  base64_lossless (RawURLEncoding L) ->
  base64_no_dot (RawURLEncoding L) ->
  Unmarshal (json_StatePayload L) data = Some sp ->
  Validate L (SetNow s clock)
    (EncodeToString (RawURLEncoding L) data +:+ "."
     +:+ sign L s (EncodeToString (RawURLEncoding L) data)) wall
  = if After (clock wall) (sp_ExpiresAt sp)
    then Err (Sentinel ErrExpiredState) else Ok sp.
Proof.
  intros Hb64 Hdot Hjson. unfold Validate, SplitN_dot_2.
  rewrite state_facts.cut_dot_app by apply Hdot.
  rewrite state_facts.sign_SetNow. unfold hmac_Equal.
  rewrite bool_decide_eq_true_2 by done. simpl. by rewrite Hb64, Hjson.
Qed.

(** [Validate] accepts nothing but a payload segment without a dot,
    followed by a dot and by exactly the signature of that segment under
    the key of the service; the payload it returns is what the segment
    decodes to, and it is not expired at the time of the call. *)
Theorem Validate_accepts_only_signed
    (s : Service) (token : string) (wall : Z) (sp : StatePayload) :
  Validate L s token wall = Ok sp ->
  exists encoded data,
    token = encoded +:+ "." +:+ sign L s encoded
    /\ cut_dot encoded = None
    /\ DecodeString (RawURLEncoding L) encoded = Some data
    /\ Unmarshal (json_StatePayload L) data = Some sp
    /\ now s wall <= sp_ExpiresAt sp.
Proof.
  unfold Validate, SplitN_dot_2.
  destruct (cut_dot token) as [[encoded sig]|] eqn:Hcut; [|done].
  apply cut_dot_Some in Hcut as [-> Hnodot].
  unfold hmac_Equal. case_bool_decide as Hsig; [|done]. simpl.
  destruct (DecodeString _ _) as [data|] eqn:Hd; [|done].
  destruct (Unmarshal _ _) as [payload|] eqn:Hu; [|done].
  unfold After. destruct (Z.ltb_spec (sp_ExpiresAt payload) (now s wall));
    [done|].
  intros [= <-]. exists encoded, data. by rewrite Hsig.
Qed.

(** A signature other than the one the service computes is refused with
    [ErrInvalidState], whatever the payload segment holds and whatever
    the time: the signature is compared before the payload is decoded. *)
Theorem Validate_rejects_other_signature
    (s : Service) (encoded sig : string) (wall : Z) :
  cut_dot encoded = None ->
  sig ≠ sign L s encoded ->
  Validate L s (encoded +:+ "." +:+ sig) wall = Err (Sentinel ErrInvalidState).
Proof.
  intros Hnodot Hsig. unfold Validate, SplitN_dot_2.
  rewrite state_facts.cut_dot_app by done.
  unfold hmac_Equal. by rewrite bool_decide_eq_false_2.
Qed.

(** A token without a dot, the empty token among them, is refused with
    [ErrMalformedState]; and [Validate] fails with no error but
    [ErrMalformedState], [ErrInvalidState] and [ErrExpiredState]. *)
Theorem Validate_failures (s : Service) (token : string) (wall : Z) :
  (cut_dot token = None ->
   Validate L s token wall = Err (Sentinel ErrMalformedState))
  /\ (forall e, Validate L s token wall = Err e ->
        e = Sentinel ErrMalformedState \/ e = Sentinel ErrInvalidState
        \/ e = Sentinel ErrExpiredState).
Proof.
  unfold Validate, SplitN_dot_2. split.
  - by intros ->.
  - intros e. destruct (cut_dot token) as [[encoded sig]|];
      [|intros [= <-]; by left].
    destruct (negb _); [intros [= <-]; right; by left|].
    destruct (DecodeString _ _); [|intros [= <-]; by left].
    destruct (Unmarshal _ _); [|intros [= <-]; by left].
    destruct (After _ _); [intros [= <-]; right; by right | done].
Qed.



End WithLibraries.

End state_properties.

(** ** The exchange codec *)

Module exchange_properties.
Import exchange.

Section WithLibraries.
Context (L : Libraries).

(** What a code that [Encode] returns is made of. *)
Lemma Encode_Ok c p entropy wall code entropy' :
  Encode L c p entropy wall = (Ok code, entropy') ->
  exists plaintext,
    entropy' = drop (NonceSize (aead c)) entropy
    /\ (NonceSize (aead c) <= length entropy)%nat
    /\ Marshal (json_ExchangePayload L) (stamp p (now c wall + expiry c))
       = Some plaintext
    /\ code = EncodeToString (RawURLEncoding L)
                (take (NonceSize (aead c)) entropy
                 ++ Seal (aead c) (take (NonceSize (aead c)) entropy)
                      plaintext []).
Proof.
  unfold Encode, rand_Read, Add.
  destruct (Marshal _ _) as [plaintext|] eqn:Hm; [|done].
  destruct (_ <=? _)%nat eqn:Hlen; [|done]. apply Nat.leb_le in Hlen.
  intros [= <- <-]. by exists plaintext.
Qed.

(** [Decode] fails with [ErrInvalidExchangeCode] or
    [ErrExpiredExchangeCode] and with no other error: a code that is not
    base64, or decodes to fewer bytes than a nonce, is invalid, and no
    error tells which of the later steps failed. A payload that
    [Decode] returns is not expired at the time of the call. *)
Theorem Decode_failures (c : Codec) (code : string) (wall : Z) :
  (forall e, Decode L c code wall = Err e ->
     e = Sentinel ErrInvalidExchangeCode
     \/ e = Sentinel ErrExpiredExchangeCode)
  /\ (DecodeString (RawURLEncoding L) code = None ->
      Decode L c code wall = Err (Sentinel ErrInvalidExchangeCode))
  /\ (forall raw,
        DecodeString (RawURLEncoding L) code = Some raw ->
        (length raw < NonceSize (aead c))%nat ->
        Decode L c code wall = Err (Sentinel ErrInvalidExchangeCode))
  /\ (forall p, Decode L c code wall = Ok p -> now c wall <= ep_ExpiresAt p).
Proof.
  unfold Decode. split; [|split; [|split]].
  - intros e. destruct (DecodeString _ _); [|intros [= <-]; by left].
    destruct (_ <? _)%nat; [intros [= <-]; by left|].
    destruct (Open _ _ _ _); [|intros [= <-]; by left].
    destruct (Unmarshal _ _); [|intros [= <-]; by left].
    destruct (After _ _); [intros [= <-]; by right | done].
  - by intros ->.
  - intros raw -> Hshort. by rewrite (proj2 (Nat.ltb_lt _ _) Hshort).
  - intros p. destruct (DecodeString _ _); [|done].
    destruct (_ <? _)%nat; [done|].
    destruct (Open _ _ _ _); [|done].
    destruct (Unmarshal _ _) as [payload|]; [|done].
    unfold After.
    destruct (Z.ltb_spec (ep_ExpiresAt payload) (now c wall)); [done|].
    by intros [= <-].
Qed.


(** Two codes made one after the other by the same codec differ, whatever
    the payloads, as soon as the nonce read for the second is not the
    nonce read for the first; the second nonce is read from the entropy
    the first call left, and each code starts with its nonce. *)
Theorem successive_codes_differ
    (c : Codec) (p1 p2 : ExchangePayload)
    (entropy e1 e2 : list byte) (wall1 wall2 : Z) (code1 code2 : string) :
  let n := NonceSize (aead c) in
  base64_lossless (RawURLEncoding L) ->
  Encode L c p1 entropy wall1 = (Ok code1, e1) ->
  Encode L c p2 e1 wall2 = (Ok code2, e2) ->
  take n entropy ≠ take n (drop n entropy) ->
  code1 ≠ code2
  /\ e1 = drop n entropy /\ e2 = drop n (drop n entropy)
  /\ (exists raw1 raw2,
        DecodeString (RawURLEncoding L) code1 = Some raw1
        /\ DecodeString (RawURLEncoding L) code2 = Some raw2
        /\ take n raw1 = take n entropy
        /\ take n raw2 = take n (drop n entropy)).
Proof.
  intros n Hb64 H1 H2 Hfresh.
  apply Encode_Ok in H1 as (pt1 & -> & Hl1 & _ & ->).
  apply Encode_Ok in H2 as (pt2 & -> & Hl2 & _ & ->). fold n in Hl1, Hl2 |- *.
  assert (Ht1 : length (take n entropy) = n) by (rewrite length_take; lia).
  assert (Ht2 : length (take n (drop n entropy)) = n)
    by (rewrite length_take; lia).
  split; [|split; [done|split; [done|]]].
  - intros Heq. apply (f_equal (DecodeString (RawURLEncoding L))) in Heq.
    rewrite !Hb64 in Heq. injection Heq as Heq.
    apply (f_equal (take n)) in Heq.
    rewrite <- Ht1 in Heq at 1. rewrite take_app_length in Heq.
    rewrite <- Ht2 in Heq at 2. rewrite take_app_length in Heq. done.
  - eexists _, _. rewrite !Hb64. split; [done|]. split; [done|]. split.
    + rewrite <- Ht1 at 1. by rewrite take_app_length.
    + rewrite <- Ht2 at 1. by rewrite take_app_length.
Qed.

End WithLibraries.

End exchange_properties.

(** ** GET /exchange *)

Module exchange_handler_properties.
Import handler.

Lemma TrimPrefix_absent (s prefix : string) :
  HasPrefix s prefix = false -> TrimPrefix s prefix = s.
Proof.
  unfold HasPrefix, TrimPrefix. by destruct (strip_prefix prefix s).
Qed.

Section WithLibraries.
Context (L : Libraries).

(** The two checks of the request let through a code that is not empty
    ([Hcode]) with a header [Bearer <key>] ([Hhdr]) that has a key
    ([Hkey]). *)
Ltac pass_checks Hcode Hhdr Hkey :=
  rewrite (bool_decide_eq_false_2 _ Hcode);
  rewrite Hhdr, (proj1 (TrimPrefix_Bearer _));
  rewrite (bool_decide_eq_false_2 _ Hkey);
  rewrite (bool_decide_eq_false_2 _ (proj2 (TrimPrefix_Bearer _)));
  cbn [orb].

(** The request is checked before the code is looked at: without a
    code the answer is 400 "missing code parameter" whatever the header;
    with a code and a header that is empty, does not start with
    [Bearer ], or is [Bearer ] with no key, the answer is 401, whatever
    the code, the registry and the time. *)
Theorem Exchange_request_checks
    (clients : client.Registry) (codec : exchange.Codec)
    (r : Request) (wall : Z) :
  let code := Values_Get (Query r) "code" in
  let authHeader := Values_Get (Header r) "Authorization" in
  let resp := Exchange L clients codec r wall in
  (code = EmptyString -> resp = writeError 400 "missing code parameter")
  /\ (code ≠ EmptyString ->
      authHeader = EmptyString \/ HasPrefix authHeader "Bearer " = false
      \/ authHeader = "Bearer " ->
      resp = writeError 401 "missing or invalid Authorization header").
Proof.
  intros code authHeader resp. subst resp. unfold Exchange.
  fold code. fold authHeader. split.
  - intros ->. done.
  - intros Hcode Hhdr. rewrite bool_decide_eq_false_2 by done.
    destruct Hhdr as [->|[Hno| ->]]; [done| |done].
    rewrite (TrimPrefix_absent _ _ Hno).
    rewrite (bool_decide_eq_true_2 (authHeader = authHeader)) by done.
    by rewrite orb_true_r.
Qed.

(** From the codec to the handler. A code that [Encode] made for a
    payload whose client id and user fields are valid UTF-8, presented
    with a header [Bearer <key>] whose key the registry resolves to a
    client: up to 30 seconds after encoding, the answer is 200 with the
    encoded user when that client has the encoded id, and 403 when it
    has another; later than that it is 400 "exchange code expired",
    whoever asks. (A client id that is not valid UTF-8 does not come
    back from JSON as it went, and is then the id of no such client.) *)
Theorem encoded_code_at_exchange
    (key : list byte) (codec : exchange.Codec) (clock : Z -> Z)
    (p : ExchangePayload) (entropy entropy' : list byte) (wall wall' : Z)
    (code apiKey : string) (clients : client.Registry) (c : ClientApp)
    (r : Request) :
  let resp := Exchange L clients (exchange.SetNow codec clock) r wall' in
  base64_lossless (RawURLEncoding L) ->
  aead_correct (aes_gcm L key) ->
  json_coerces coerced_ExchangePayload (json_ExchangePayload L) ->
  valid_ExchangePayload p = true ->
  exchange.NewCodec L key = Ok codec ->
  exchange.Encode L (exchange.SetNow codec clock) p entropy wall
    = (Ok code, entropy') ->
  Values_Get (Query r) "code" = code ->
  code ≠ EmptyString ->
  Values_Get (Header r) "Authorization" = "Bearer " +:+ apiKey ->
  apiKey ≠ EmptyString ->
  client.GetByAPIKey clients apiKey = Ok c ->
  (clock wall' <= clock wall + 30 * Second ->
   (ID c = ep_ClientID p -> resp = writeJSON 200 {| User := ep_User p |})
   /\ (ID c ≠ ep_ClientID p ->
       Code resp = 403 /\ disclosed_user resp = None))
  /\ (clock wall' > clock wall + 30 * Second ->
      resp = writeError 400 "exchange code expired").
Proof.
  intros resp Hb64 Haead Hjson Hvalid [-> _]%exchange_facts.NewCodec_Ok Henc
    Hq Hcode Hhdr Hkey Hget.
  apply exchange_properties.Encode_Ok in Henc
    as (plaintext & _ & Hlen & Hm & Hc).
  simpl in Hm, Hlen. unfold exchange.defaultCodeExpiry in Hm.
  apply Hjson in Hm.
  rewrite utf8_facts.coerced_ExchangePayload_valid in Hm by exact Hvalid.
  assert (Hdec : exchange.Decode L
                   (exchange.SetNow
                      {| exchange.aead := aes_gcm L key;
                         exchange.expiry := exchange.defaultCodeExpiry;
                         exchange.now := fun wall => wall |} clock)
                   (Values_Get (Query r) "code") wall'
                 = if After (clock wall') (clock wall + 30 * Second)
                   then Err (Sentinel ErrExpiredExchangeCode)
                   else Ok (exchange.stamp p (clock wall + 30 * Second))).
  { rewrite Hq, Hc.
    assert (Hn : length (take (NonceSize (aes_gcm L key)) entropy)
                 = NonceSize (aes_gcm L key))
      by (rewrite length_take; lia).
    exact (exchange_facts.Decode_sealed L
             (exchange.SetNow
                {| exchange.aead := aes_gcm L key;
                   exchange.expiry := exchange.defaultCodeExpiry;
                   exchange.now := fun wall => wall |} clock)
             _ plaintext _ wall' Hb64 Haead Hn Hm). }
  subst resp. unfold Exchange.
  rewrite <- Hq in Hcode.
  pass_checks Hcode Hhdr Hkey.
  rewrite Hdec, Hget. unfold After. split; intros Htime.
  - replace (_ <? _) with false by (symmetry; lia). simpl. split; intros Hid.
    + by rewrite bool_decide_eq_true_2.
    + by rewrite bool_decide_eq_false_2.
  - by replace (_ <? _) with true by (symmetry; apply Z.ltb_lt; lia).
Qed.

End WithLibraries.

End exchange_handler_properties.

(** ** GET /auth/{provider} and GET /callback/{provider} *)

Module flow_properties.
Import handler.

Lemma dotted_not_empty (a b : string) : a +:+ "." +:+ b ≠ EmptyString.
Proof. by destruct a. Qed.

Section WithLibraries.
Context (L : Libraries).

(** The checks of [Authorize], passed one after the other by a request
    that is answered 302. *)
Ltac authorize_found c Hc Hcb provider Hget Hpr stateToken e1 Hgen
    authURL Hurl :=
  unfold Authorize, client.ValidateCallback, client.ValidateProvider;
  do 3 (case_bool_decide; [by intros [= <- <-]|]);
  destruct (client.Get _ _) as [c|] eqn:Hc; [|by intros [= <- <-]];
  destruct (client.contains (AllowedCallbacks _) _) eqn:Hcb;
    [|by intros [= <- <-]];
  destruct (auth.Get _ _) as [provider|] eqn:Hget; [|by intros [= <- <-]];
  destruct (client.contains (AllowedProviders _) _) eqn:Hpr;
    [|by intros [= <- <-]];
  destruct (state.Generate _ _ _ _ _) as [[stateToken|] e1] eqn:Hgen;
    [|by intros [= <- <-]];
  destruct (auth.AuthURL _ _) as [authURL|] eqn:Hurl;
    [|by intros [= <- <-]];
  apply contains_elem in Hcb; apply contains_elem in Hpr.

(** A 302 from GET /auth/{provider} is given only to a request whose
    client exists, whose redirect URI is on the list of that client, and
    whose provider is registered and on the list of that client; the
    state token is then generated for exactly the client id, provider
    and redirect URI of the request, and the redirect goes to the URL
    that the provider builds around that token. *)
Theorem Authorize_redirects_only_checked_requests
    (clients : client.Registry) (providers : auth.Registry)
    (stateService : state.Service) (r : Request)
    (entropy entropy' : list byte) (wall : Z) (resp : Response) :
  let clientID := Values_Get (Query r) "client_id" in
  let redirectURI := Values_Get (Query r) "redirect_uri" in
  let providerName := PathValue r "provider" in
  Authorize L clients providers stateService r entropy wall
    = (resp, entropy') ->
  Code resp = 302 ->
  exists c provider stateToken authURL,
    client.Get clients clientID = Ok c
    /\ redirectURI ∈ AllowedCallbacks c
    /\ auth.Get providers providerName = Ok provider
    /\ providerName ∈ AllowedProviders c
    /\ state.Generate L stateService
         {| sp_ClientID := clientID; sp_Provider := providerName;
            sp_RedirectURI := redirectURI; sp_Nonce := EmptyString;
            sp_ExpiresAt := zeroTime |} entropy wall
       = (Ok stateToken, entropy')
    /\ auth.AuthURL provider stateToken = Ok authURL
    /\ resp = Redirect authURL 302.
Proof.
  intros clientID redirectURI providerName.
  authorize_found c Hc Hcb provider Hget Hpr stateToken e1 Hgen authURL Hurl.
  intros [= <- <-] _. by exists c, provider, stateToken, authURL.
Qed.

(** A request that GET /auth/{provider} refuses with 400 or 403 costs no
    entropy and sets no Location: no state token is issued. In
    particular a redirect URI that is not on the list of an existing
    client is refused with 400 "redirect_uri not allowed", whatever the
    provider of the path. *)
Theorem Authorize_refusals
    (clients : client.Registry) (providers : auth.Registry)
    (stateService : state.Service) (r : Request)
    (entropy : list byte) (wall : Z) :
  let clientID := Values_Get (Query r) "client_id" in
  let redirectURI := Values_Get (Query r) "redirect_uri" in
  let providerName := PathValue r "provider" in
  let out := Authorize L clients providers stateService r entropy wall in
  (Code out.1 = 400 \/ Code out.1 = 403 ->
   out.2 = entropy /\ Location out.1 = None)
  /\ (forall c,
        clientID ≠ EmptyString -> redirectURI ≠ EmptyString ->
        providerName ≠ EmptyString ->
        client.Get clients clientID = Ok c ->
        redirectURI ∉ AllowedCallbacks c ->
        out = (writeError 400 "redirect_uri not allowed", entropy)).
Proof.
  intros clientID redirectURI providerName out. subst out. unfold Authorize.
  fold clientID. fold redirectURI. fold providerName.
  unfold client.ValidateCallback, client.ValidateProvider. split.
  - case_bool_decide; [done|]. case_bool_decide; [done|].
    case_bool_decide; [done|].
    destruct (client.Get clients clientID) as [c|]; [|done].
    destruct (client.contains (AllowedCallbacks c) redirectURI); [|done].
    destruct (auth.Get providers providerName) as [provider|]; [|done].
    destruct (client.contains (AllowedProviders c) providerName); [|done].
    destruct (state.Generate _ _ _ _ _) as [[stateToken|] e1];
      [|by intros [?|?]].
    destruct (auth.AuthURL provider stateToken); by intros [?|?].
  - intros c H1 H2 H3 Hc Hout.
    rewrite !bool_decide_eq_false_2 by done. rewrite Hc.
    destruct (client.contains (AllowedCallbacks c) redirectURI) eqn:Hcb;
      [|done].
    by apply contains_elem in Hcb.
Qed.

(** A 302 from GET /callback/{provider} is given only when the state
    token verifies, the provider of the path is registered and its
    exchange succeeds; the code is then encoded for the client id of the
    state with the user the provider returned, and the redirect goes to
    the redirect URI of the state with that code as its [code]
    parameter. *)
Theorem Callback_redirects_to_state_redirect
    (providers : auth.Registry) (stateService : state.Service)
    (codec : exchange.Codec) (r : Request)
    (entropy entropy' : list byte) (wall wall' : Z) (resp : Response) :
  Callback L providers stateService codec r entropy wall wall'
    = (resp, entropy') ->
  Code resp = 302 ->
  exists sp provider result code redirectURL,
    state.Validate L stateService (Values_Get (Query r) "state") wall = Ok sp
    /\ auth.Get providers (PathValue r "provider") = Ok provider
    /\ auth.Exchange provider (omap head (Query r)) = Ok result
    /\ exchange.Encode L codec
         {| ep_ClientID := sp_ClientID sp; ep_ExpiresAt := zeroTime;
            ep_User := User result |} entropy wall'
       = (Ok code, entropy')
    /\ url_set_query L (sp_RedirectURI sp) "code" code = Some redirectURL
    /\ resp = Redirect redirectURL 302.
Proof.
  unfold Callback. case_bool_decide; [by intros [= <- <-]|].
  destruct (state.Validate _ _ _ _) as [sp|err];
    [|destruct (errors_Is _ _); by intros [= <- <-]].
  destruct (auth.Get _ _) as [provider|]; [|by intros [= <- <-]].
  destruct (auth.Exchange provider _) as [result|err] eqn:Hex;
    [|destruct (errors_Is _ _); by intros [= <- <-]].
  destruct (exchange.Encode _ _ _ _ _) as [[code|] e1] eqn:Henc;
    [|by intros [= <- <-]].
  destruct (url_set_query _ _ _ _) as [redirectURL|] eqn:Hurl;
    [|by intros [= <- <-]].
  intros [= <- <-] _. by exists sp, provider, result, code, redirectURL.
Qed.

(** GET /callback/{provider} answers 502 exactly when the state token
    verifies, the provider of the path is registered, and its exchange
    fails with an error other than [ErrMissingProviderParams]; an answer
    of 400 or 502 costs no entropy; and there is no status but 302, 400,
    500 and 502. *)
Theorem Callback_failures
    (providers : auth.Registry) (stateService : state.Service)
    (codec : exchange.Codec) (r : Request)
    (entropy : list byte) (wall wall' : Z) :
  let out := Callback L providers stateService codec r entropy wall wall' in
  (Code out.1 = 502 <->
     exists sp provider err,
       state.Validate L stateService (Values_Get (Query r) "state") wall
         = Ok sp
       /\ auth.Get providers (PathValue r "provider") = Ok provider
       /\ auth.Exchange provider (omap head (Query r)) = Err err
       /\ errors_Is err ErrMissingProviderParams = false)
  /\ (Code out.1 = 400 \/ Code out.1 = 502 -> out.2 = entropy)
  /\ (Code out.1 = 302 \/ Code out.1 = 400 \/ Code out.1 = 500
      \/ Code out.1 = 502).
Proof.
  intros out. subst out. unfold Callback.
  case_bool_decide as Htok.
  { split; [split; [done|]|split; [done | by right; left]].
    intros (sp & _ & _ & Hval & _). rewrite Htok in Hval.
    pose proof (handler_facts.Validate_empty L stateService wall) as Hempty.
    by rewrite Hval in Hempty. }
  destruct (state.Validate _ _ _ _) as [sp|err] eqn:Hval.
  2:{ split; [split|split].
      - by destruct (errors_Is _ _).
      - intros (? & ? & ? & ? & _). simplify_eq.
      - by destruct (errors_Is _ _).
      - destruct (errors_Is _ _); by right; left. }
  destruct (auth.Get _ _) as [provider|] eqn:Hget.
  2:{ split; [split; [done|]|split; [done | by right; left]].
      intros (? & ? & ? & _ & ? & _). simplify_eq. }
  destruct (auth.Exchange provider _) as [result|err] eqn:Hex.
  - split; [split|split].
    + destruct (exchange.Encode _ _ _ _ _) as [[code|] e1]; [|done].
      by destruct (url_set_query _ _ _ _).
    + intros (? & ? & ? & _ & ? & ? & _). simplify_eq. congruence.
    + destruct (exchange.Encode _ _ _ _ _) as [[code|] e1];
        [|by intros [?|?]].
      destruct (url_set_query _ _ _ _); by intros [?|?].
    + destruct (exchange.Encode _ _ _ _ _) as [[code|] e1];
        [|by right; right; left].
      destruct (url_set_query _ _ _ _); [by left | by right; right; left].
  - destruct (errors_Is err ErrMissingProviderParams) eqn:Herr.
    + split; [split; [done|]|split; [done | by right; left]].
      intros (? & ? & ? & _ & ? & ? & ?). simplify_eq. congruence.
    + split; [split; [|done]|split; [done | by right; right; right]].
      intros _. by exists sp, provider, err.
Qed.

(** The state is checked before anything else at GET
    /callback/{provider}: a missing state is answered 400 "missing state
    parameter"; a state without a dot, or with a signature other than
    the one the service computes for its payload segment, is answered
    400 "invalid state token"; in each case whatever the provider of the
    path and the other parameters, and at no cost of entropy. *)
Theorem Callback_checks_state_first
    (providers : auth.Registry) (stateService : state.Service)
    (codec : exchange.Codec) (r : Request)
    (entropy : list byte) (wall wall' : Z) :
  let stateToken := Values_Get (Query r) "state" in
  let out := Callback L providers stateService codec r entropy wall wall' in
  (stateToken = EmptyString ->
   out = (writeError 400 "missing state parameter", entropy))
  /\ (stateToken ≠ EmptyString -> cut_dot stateToken = None ->
      out = (writeError 400 "invalid state token", entropy))
  /\ (forall encoded sig,
        stateToken = encoded +:+ "." +:+ sig ->
        cut_dot encoded = None ->
        sig ≠ state.sign L stateService encoded ->
        out = (writeError 400 "invalid state token", entropy)).
Proof.
  intros stateToken out. subst out. unfold Callback. fold stateToken.
  split; [|split].
  - intros ->. done.
  - intros Hne Hnodot. rewrite bool_decide_eq_false_2 by done.
    unfold state.Validate, SplitN_dot_2. by rewrite Hnodot.
  - intros encoded sig Htok Hnodot Hsig.
    rewrite bool_decide_eq_false_2
      by (rewrite Htok; apply dotted_not_empty).
    rewrite Htok. unfold state.Validate, SplitN_dot_2.
    rewrite state_facts.cut_dot_app by done.
    unfold hmac_Equal. by rewrite bool_decide_eq_false_2.
Qed.

(** From GET /auth/{provider} to GET /callback/{provider}, for a
    request whose client id, redirect URI and provider are valid UTF-8.
    When the first answers 302, the client of the request exists and
    lists its redirect URI; and when the state token it issued comes
    back to the second before it expires, with a registered provider in
    the path whose exchange succeeds, the user is encoded for the client
    id of the first request, and the answer is 500 when encoding fails
    or the redirect URI does not parse, and otherwise the redirect to
    the redirect URI of the first request, with the code. (A redirect
    URI that is not valid UTF-8 does not come back from JSON as it
    went.) *)
Theorem authorized_flow_returns_to_checked_redirect
    (clients : client.Registry) (providers : auth.Registry)
    (stateService : state.Service) (codec : exchange.Codec)
    (r1 : Request) (entropy1 entropy1' : list byte) (wall1 : Z)
    (resp1 : Response) :
  let clientID := Values_Get (Query r1) "client_id" in
  let redirectURI := Values_Get (Query r1) "redirect_uri" in
  let providerName := PathValue r1 "provider" in
  base64_lossless (RawURLEncoding L) ->
  base64_no_dot (RawURLEncoding L) ->
  json_coerces coerced_StatePayload (json_StatePayload L) ->
  utf8.ValidString clientID = true ->
  utf8.ValidString redirectURI = true ->
  utf8.ValidString providerName = true ->
  Authorize L clients providers stateService r1 entropy1 wall1
    = (resp1, entropy1') ->
  Code resp1 = 302 ->
  exists c stateToken,
    client.Get clients clientID = Ok c
    /\ redirectURI ∈ AllowedCallbacks c
    /\ state.Generate L stateService
         {| sp_ClientID := clientID; sp_Provider := providerName;
            sp_RedirectURI := redirectURI; sp_Nonce := EmptyString;
            sp_ExpiresAt := zeroTime |} entropy1 wall1
       = (Ok stateToken, entropy1')
    /\ forall (r2 : Request) (entropy2 : list byte) (wall2 wall2' : Z)
         provider result,
         Values_Get (Query r2) "state" = stateToken ->
         state.now stateService wall2
           <= state.now stateService wall1 + state.expiry stateService ->
         auth.Get providers (PathValue r2 "provider") = Ok provider ->
         auth.Exchange provider (omap head (Query r2)) = Ok result ->
         Callback L providers stateService codec r2 entropy2 wall2 wall2'
         = match exchange.Encode L codec
                   {| ep_ClientID := clientID; ep_ExpiresAt := zeroTime;
                      ep_User := User result |} entropy2 wall2' with
           | (Err _, entropy2') =>
               (writeError 500 "failed to create exchange code", entropy2')
           | (Ok code, entropy2') =>
               match url_set_query L redirectURI "code" code with
               | None => (writeError 500 "invalid redirect URI", entropy2')
               | Some redirectURL => (Redirect redirectURL 302, entropy2')
               end
           end.
Proof.
  intros clientID redirectURI providerName Hb64 Hdot Hjson Hcid Hrdr Hprv.
  authorize_found c Hc Huri provider1 Hget1 Hpr stateToken e1 Hgen
    authURL Hauth.
  intros [= <- <-] _. clear Hget1 Hpr Hauth.
  exists c, stateToken. split; [done|]. split; [done|]. split; [done|].
  apply state_properties.Generate_Ok in Hgen as (data & _ & _ & Hm & Htok).
  apply Hjson in Hm.
  rewrite utf8_facts.coerced_StatePayload_valid in Hm
    by (done || apply utf8_facts.hex_EncodeToString_valid).
  intros r2 entropy2 wall2 wall2' provider result Hstate Hlive Hget Hex.
  assert (Hval : state.Validate L stateService stateToken wall2
                 = Ok (state.stamp
                         {| sp_ClientID := clientID;
                            sp_Provider := providerName;
                            sp_RedirectURI := redirectURI;
                            sp_Nonce := EmptyString;
                            sp_ExpiresAt := zeroTime |}
                         (hex_EncodeToString (take 16 entropy1))
                         (state.now stateService wall1
                          + state.expiry stateService))).
  { rewrite Htok.
    etrans; [exact (state_properties.Validate_signed L stateService
                      (state.now stateService) wall2 _ _ Hb64 Hdot Hm)|].
    unfold After. simpl.
    by replace (_ <? _) with false by (symmetry; lia). }
  unfold Callback. rewrite Hstate.
  rewrite bool_decide_eq_false_2
    by (rewrite Htok; apply dotted_not_empty).
  rewrite Hval, Hget. simpl. by rewrite Hex.
Qed.

End WithLibraries.

End flow_properties.

(** ** The Steam provider, continued *)

Module steam_properties.
Import regexp steam.

Lemma strip_prefix_app (prefix s : string) :
  strip_prefix prefix (prefix +:+ s) = Some s.
Proof.
  induction prefix as [|p prefix IH]; [done|].
  change (String p prefix +:+ s) with (String p (prefix +:+ s)).
  simpl. by rewrite Ascii.eqb_refl.
Qed.

Lemma match_here_Lit_app l items s :
  match_here (Lit l :: items) (l +:+ s) = match_here items s.
Proof. by rewrite regexp_facts.match_here_Lit, strip_prefix_app. Qed.

Lemma match_here_Opt_present c items s r :
  match_here items s = Some r ->
  match_here (Opt c :: items) (String c s) = Some r.
Proof.
  intros H. rewrite regexp_facts.match_here_Opt.
  by rewrite Ascii.eqb_refl, H.
Qed.

Lemma match_here_Opt_absent c c' items s :
  c ≠ c' ->
  match_here (Opt c :: items) (String c' s) = match_here items (String c' s).
Proof.
  intros H. rewrite regexp_facts.match_here_Opt.
  by rewrite (proj2 (Ascii.eqb_neq c c') H).
Qed.

(** [\d+] is greedy: when the continuation takes whatever it is given,
    all the digits at hand are captured. *)
Lemma star_digits_greedy {A} (k : string -> string -> option A)
    (g : string -> string -> A) (more rest : string) :
  (forall t r, k t r = Some (g t r)) ->
  digits_only more = true -> ends_digits rest ->
  forall taken,
    star_digits k taken (more +:+ rest) = Some (g (taken +:+ more) rest).
Proof.
  intros Hk. induction more as [|c more IH]; intros Hd Hrest taken.
  - rewrite regexp_facts.append_empty_r.
    change (EmptyString +:+ rest) with rest.
    destruct rest as [|c rest]; simpl; [apply Hk|].
    simpl in Hrest. rewrite Hrest. apply Hk.
  - simpl in Hd. apply andb_true_iff in Hd as [Hc Hd].
    change (String c more +:+ rest) with (String c (more +:+ rest)).
    simpl. rewrite Hc, (IH Hd Hrest).
    by rewrite regexp_facts.append_assoc.
Qed.

Lemma find_at_start items s groups rest :
  match_here items s = Some (groups, rest) ->
  exists whole, find items s = Some (whole, groups).
Proof. intros H. destruct s; simpl; rewrite H; by eexists. Qed.

(** The end of the Steam pattern captures a whole run of digits. *)
Lemma match_here_path_digits_all (c : ascii) (more after : string) :
  is_digit c = true -> digits_only more = true -> ends_digits after ->
  match_here [Lit "://steamcommunity.com/openid/id/"; CaptureDigits]
    ("://steamcommunity.com/openid/id/" +:+ String c more +:+ after)
  = Some ([String c more], after).
Proof.
  intros Hc Hd Hrest. rewrite match_here_Lit_app.
  change (String c more +:+ after) with (String c (more +:+ after)).
  cbn [match_here]. rewrite Hc.
  by rewrite (star_digits_greedy _ (fun t r => ([t], r)) more after).
Qed.

(** The canonical claimed_ids are accepted: for a non-empty run of
    digits behind [http://steamcommunity.com/openid/id/] or its https
    form, at the start of the claimed_id and followed by nothing or by
    something that is not a digit, [extractSteamID] returns the whole
    run. *)
Theorem extractSteamID_canonical (steamID after : string) :
  steamID ≠ EmptyString ->
  digits_only steamID = true ->
  ends_digits after ->
  extractSteamID
    ("https://steamcommunity.com/openid/id/" +:+ steamID +:+ after)
    = Ok steamID
  /\ extractSteamID
       ("http://steamcommunity.com/openid/id/" +:+ steamID +:+ after)
     = Ok steamID.
Proof.
  intros Hne Hd Hrest. destruct steamID as [|c more]; [done|].
  simpl in Hd. apply andb_true_iff in Hd as [Hc Hd].
  pose proof (match_here_path_digits_all c more after Hc Hd Hrest) as Htail.
  unfold extractSteamID, FindStringSubmatch, steamIDRegex. split.
  - destruct (find_at_start
                [Lit "http"; Opt "s"; Lit "://steamcommunity.com/openid/id/";
                 CaptureDigits]
                ("https://steamcommunity.com/openid/id/" +:+ String c more
                 +:+ after) [String c more] after) as [whole ->]; [|done].
    change ("https://steamcommunity.com/openid/id/" +:+ String c more
            +:+ after)
      with ("http" +:+ String "s"
              ("://steamcommunity.com/openid/id/" +:+ String c more
               +:+ after)).
    rewrite match_here_Lit_app. by apply match_here_Opt_present.
  - destruct (find_at_start
                [Lit "http"; Opt "s"; Lit "://steamcommunity.com/openid/id/";
                 CaptureDigits]
                ("http://steamcommunity.com/openid/id/" +:+ String c more
                 +:+ after) [String c more] after) as [whole ->]; [|done].
    change ("http://steamcommunity.com/openid/id/" +:+ String c more
            +:+ after)
      with ("http" +:+ String ":"
              ("//steamcommunity.com/openid/id/" +:+ String c more
               +:+ after)).
    rewrite match_here_Lit_app, match_here_Opt_absent by done.
    exact Htail.
Qed.

Section WithJSON.
Context (unmarshalPlayers : string -> option (list Player)).

Lemma validateAssertion_sent (p : Provider) (params : gmap string string) :
  exists post,
    (validateAssertion p params).2 = [post] /\ Method post = "POST".
Proof.
  unfold validateAssertion.
  match goal with
  | |- context [httpClient p ?req] => set (post := req)
  end.
  exists post. split; [|done].
  destruct (httpClient p post) as [resp|]; [|done].
  destruct (Body resp) as [body|]; [|done]. by destruct (negb _).
Qed.

(** [validateAssertion] sends one POST to the OpenID endpoint. It
    carries the parameters of the callback whose names start with
    [openid.], as they came, except that [openid.mode] is
    [check_authentication]; no other parameter is passed on. The
    assertion is accepted exactly when the body of the answer can be
    read and contains [is_valid:true], whatever the status of the
    answer; every failure of the request, once it is built, is an
    [ErrProviderExchange]. *)
Theorem validateAssertion_request (p : Provider) (params : gmap string string) :
  exists post,
    (validateAssertion p params).2 = [post]
    /\ Method post = "POST"
    /\ URL post = openIDEndpoint p
    /\ Values post !! "openid.mode" = Some "check_authentication"
    /\ (forall k, k ≠ "openid.mode" ->
          Values post !! k
          = if HasPrefix k "openid." then params !! k else None)
    /\ ((validateAssertion p params).1 = Ok tt <->
          exists resp body,
            httpClient p post = Some resp /\ Body resp = Some body
            /\ Contains body "is_valid:true" = true)
    /\ (forall e, (validateAssertion p params).1 = Err e ->
          errors_Is e ErrProviderExchange = true).
Proof.
  unfold validateAssertion.
  set (post := {| Method := "POST"; URL := openIDEndpoint p;
                  Values := <["openid.mode" := "check_authentication"]>
                              (filter (fun kv => HasPrefix kv.1 "openid." = true)
                                 params) |}).
  exists post. split.
  { destruct (httpClient p post) as [resp|]; [|done].
    destruct (Body resp) as [body|]; [|done]. by destruct (negb _). }
  split; [done|]. split; [done|].
  split; [apply lookup_insert_eq|]. split.
  - intros k Hk. simpl. rewrite lookup_insert_ne by done.
    rewrite map_lookup_filter. destruct (params !! k) as [v|]; simpl.
    + destruct (HasPrefix k "openid.") eqn:Hp.
      * by rewrite option_guard_True.
      * by rewrite option_guard_False by (simpl; congruence).
    + by destruct (HasPrefix k "openid.").
  - destruct (httpClient p post) as [resp|]; simpl.
    2:{ split; [split; [done|]|by intros e [= <-]].
        by intros (? & ? & ? & _). }
    destruct (Body resp) as [body|] eqn:Hbody; simpl.
    2:{ split; [split; [done|]|by intros e [= <-]].
        intros (? & ? & ? & ? & _). simplify_eq. }
    destruct (Contains body "is_valid:true") eqn:Hvalid; simpl.
    + split; [|done]. split; [|done]. intros _. by exists resp, body.
    + split; [split; [done|]|by intros e [= <-]].
      intros (? & ? & ? & ? & ?). simplify_eq. congruence.
Qed.

(** [Exchange] asks for a player summary only after Steam has accepted
    the assertion, and only for the SteamID that [extractSteamID] reads
    from the claimed_id; without a claimed_id it fails with
    [ErrMissingProviderParams] and sends nothing. *)
Theorem Exchange_fetches_only_asserted
    (p : Provider) (params : gmap string string) :
  (params !! "openid.claimed_id" = None
   \/ params !! "openid.claimed_id" = Some EmptyString ->
   Exchange unmarshalPlayers p params
     = (Err (Sentinel ErrMissingProviderParams), []))
  /\ (forall req,
        req ∈ (Exchange unmarshalPlayers p params).2 ->
        Method req = "GET" ->
        (validateAssertion p params).1 = Ok tt
        /\ exists claimedID steamID,
             params !! "openid.claimed_id" = Some claimedID
             /\ extractSteamID claimedID = Ok steamID
             /\ URL req = playerSummaryURL p
             /\ Values req !! "steamids" = Some steamID
             /\ Values req !! "key" = Some (APIKey (cfg p))).
Proof.
  destruct (validateAssertion_sent p params) as (post & Hsent & Hpost).
  unfold Exchange. split.
  - by intros [-> | ->].
  - intros req. destruct (params !! "openid.claimed_id") as [claimedID|];
      [|by intros ?%elem_of_nil].
    destruct claimedID as [|ch claimedID]; [by intros ?%elem_of_nil|].
    destruct (validateAssertion p params) as [[[]|e] sent] eqn:Hva;
      simpl in Hsent; subst sent.
    2:{ intros ->%list_elem_of_singleton. congruence. }
    destruct (extractSteamID _) as [steamID|e] eqn:Hid.
    2:{ intros ->%list_elem_of_singleton. congruence. }
    assert (Hfetch : exists get,
              (fetchPlayerSummary unmarshalPlayers p steamID).2 = [get]
              /\ URL get = playerSummaryURL p
              /\ Values get !! "steamids" = Some steamID
              /\ Values get !! "key" = Some (APIKey (cfg p))).
    { unfold fetchPlayerSummary.
      set (get := {| Method := "GET"; URL := playerSummaryURL p;
                     Values := <["key" := APIKey (cfg p)]>
                                 (<["steamids" := steamID]> ∅) |}).
      exists get. split.
      - destruct (httpClient p get) as [resp|]; [|done].
        destruct (Body resp) as [body|]; [|done].
        destruct (negb _); [done|].
        by destruct (unmarshalPlayers body) as [[|player ?]|].
      - split; [done|]. simpl. split.
        + rewrite lookup_insert_ne by done. apply lookup_insert_eq.
        + apply lookup_insert_eq. }
    destruct Hfetch as (get & Hget & Hurl & Hids & Hkey).
    destruct (fetchPlayerSummary unmarshalPlayers p steamID)
      as [[user|e] sent'] eqn:Hfp; simpl in Hget; subst sent'; simpl.
    + intros [->|[->|?%elem_of_nil]%elem_of_cons]%elem_of_cons Hm;
        [congruence| |done].
      split; [done|]. by exists (String ch claimedID), steamID.
    + intros [->|[->|?%elem_of_nil]%elem_of_cons]%elem_of_cons Hm;
        [congruence| |done].
      split; [done|]. by exists (String ch claimedID), steamID.
Qed.

(** A profile that [Exchange] returns names the provider steam, has the
    persona name as user name and as display name, and no email; it
    took two requests, the POST of the assertion and then the GET of
    the player summary. *)
Theorem steam_Exchange_profile
    (p : Provider) (params : gmap string string)
    (result : AuthResult) (sent : list HTTPRequest) :
  Exchange unmarshalPlayers p params = (Ok result, sent) ->
  ProviderName (User result) = "steam"
  /\ DisplayName (User result) = Username (User result)
  /\ Email (User result) = EmptyString
  /\ exists post get,
       sent = [post; get] /\ Method post = "POST" /\ Method get = "GET".
Proof.
  destruct (validateAssertion_sent p params) as (post & Hsent & Hpost).
  unfold Exchange. destruct (params !! "openid.claimed_id") as [claimedID|];
    [|done].
  destruct claimedID as [|ch claimedID]; [done|].
  destruct (validateAssertion p params) as [[[]|e] sent0];
    simpl in Hsent; subst sent0; [|done].
  destruct (extractSteamID _) as [steamID|e]; [|done].
  unfold fetchPlayerSummary.
  destruct (httpClient p _) as [resp|]; [|done].
  destruct (Body resp) as [body|]; [|done].
  destruct (negb _); [done|].
  destruct (unmarshalPlayers body) as [[|player ?]|]; try done.
  intros [= <- <-]. simpl. repeat split. by eexists _, _.
Qed.

End WithJSON.

End steam_properties.

(** ** The Discord provider *)

Module discord_properties.
Import discord.

Section WithJSON.
Context (unmarshalToken : string -> option tokenResponse).
Context (unmarshalUser : string -> option discordUser).

Lemma exchangeCode_sent (p : Provider) (code : string) :
  exists post,
    (exchangeCode unmarshalToken p code).2 = [post] /\ Method post = "POST"
    /\ forall token, (exchangeCode unmarshalToken p code).1 = Ok token ->
          token ≠ EmptyString.
Proof.
  unfold exchangeCode.
  match goal with
  | |- context [httpClient p ?req] => set (post := req)
  end.
  exists post.
  destruct (httpClient p post) as [resp|]; [|done].
  destruct (Body resp) as [body|]; [|done].
  destruct (negb _); [done|].
  destruct (unmarshalToken body) as [tokenResp|]; [|done].
  case_bool_decide; [done|]. split; [done|]. split; [done|].
  by intros token [= <-].
Qed.

(** [exchangeCode] sends one POST to the token URL, with the client id
    and secret, the code, the callback URL and the grant type
    [authorization_code] as its form. It returns a token exactly when
    the answer has status 200 and a readable JSON body with a non-empty
    access token, and then that token; every failure of the request,
    once it is built, is an [ErrProviderExchange]. *)
Theorem exchangeCode_request (p : Provider) (code : string) :
  exists post,
    (exchangeCode unmarshalToken p code).2 = [post]
    /\ Method post = "POST" /\ URL post = tokenURL p
    /\ ContentType post = "application/x-www-form-urlencoded"
    /\ Form post !! "code" = Some code
    /\ Form post !! "grant_type" = Some "authorization_code"
    /\ Form post !! "client_id" = Some (ClientID (cfg p))
    /\ Form post !! "client_secret" = Some (ClientSecret (cfg p))
    /\ Form post !! "redirect_uri" = Some (CallbackURL (cfg p))
    /\ (forall token,
          (exchangeCode unmarshalToken p code).1 = Ok token <->
          token ≠ EmptyString
          /\ exists resp body tokenResp,
               httpClient p post = Some resp /\ Body resp = Some body
               /\ StatusCode resp = 200
               /\ unmarshalToken body = Some tokenResp
               /\ AccessToken tokenResp = token)
    /\ (forall e, (exchangeCode unmarshalToken p code).1 = Err e ->
          errors_Is e ErrProviderExchange = true).
Proof.
  unfold exchangeCode.
  match goal with
  | |- context [httpClient p ?req] => set (post := req)
  end.
  exists post. split.
  { destruct (httpClient p post) as [resp|]; [|done].
    destruct (Body resp) as [body|]; [|done].
    destruct (negb _); [done|].
    destruct (unmarshalToken body) as [tokenResp|]; [|done].
    by case_bool_decide. }
  do 8 (split; [done|]).
  destruct (httpClient p post) as [resp|] eqn:Hdo; simpl.
  2:{ split; [|by intros e [= <-]]. intros token. split; [done|].
      intros (_ & ? & ? & ? & ? & _). simplify_eq. }
  destruct (Body resp) as [body|] eqn:Hbody; simpl.
  2:{ split; [|by intros e [= <-]]. intros token. split; [done|].
      intros (_ & ? & ? & ? & ? & ? & _). simplify_eq. }
  destruct (Z.eqb_spec (StatusCode resp) 200) as [Hst|Hst]; simpl.
  2:{ split; [|by intros e [= <-]]. intros token. split; [done|].
      intros (_ & ? & ? & ? & ? & ? & ? & _). simplify_eq. }
  destruct (unmarshalToken body) as [tokenResp|] eqn:Hjson; simpl.
  2:{ split; [|by intros e [= <-]]. intros token. split; [done|].
      intros (_ & ? & ? & ? & ? & ? & ? & ? & _). simplify_eq. }
  case_bool_decide as Hempty; simpl.
  - split; [|by intros e [= <-]]. intros token. split; [done|].
    intros (Hne & ? & ? & ? & ? & ? & ? & ? & ?). simplify_eq.
  - split; [|done]. intros token. split.
    + intros [= <-]. split; [done|]. by exists resp, body, tokenResp.
    + intros (_ & ? & ? & ? & ? & ? & ? & ? & ?). by simplify_eq.
Qed.

(** [Exchange] asks for the user only with a token that the token
    endpoint gave for the code of the callback, and sends it as a Bearer
    token; without a code it fails with [ErrMissingProviderParams] and
    sends nothing. *)
Theorem Exchange_fetches_only_with_token
    (p : Provider) (params : gmap string string) :
  (params !! "code" = None \/ params !! "code" = Some EmptyString ->
   Exchange unmarshalToken unmarshalUser p params
     = (Err (Sentinel ErrMissingProviderParams), []))
  /\ (forall req,
        req ∈ (Exchange unmarshalToken unmarshalUser p params).2 ->
        Method req = "GET" ->
        exists code token,
          params !! "code" = Some code
          /\ (exchangeCode unmarshalToken p code).1 = Ok token
          /\ token ≠ EmptyString
          /\ URL req = userURL p
          /\ Authorization req = "Bearer " +:+ token).
Proof.
  unfold Exchange. split; [by intros [-> | ->]|].
  intros req. destruct (params !! "code") as [code|];
    [|by intros ?%elem_of_nil].
  destruct code as [|ch code]; [by intros ?%elem_of_nil|].
  destruct (exchangeCode_sent p (String ch code))
    as (post & Hsent & Hpost & Htoken).
  destruct (exchangeCode unmarshalToken p (String ch code))
    as [[token|e] sent] eqn:Hec; simpl in Hsent; subst sent.
  2:{ intros ->%list_elem_of_singleton. congruence. }
  pose proof (Htoken token eq_refl) as Hne.
  assert (Hfetch : exists get,
            (fetchUser unmarshalUser p token).2 = [get]
            /\ URL get = userURL p
            /\ Authorization get = "Bearer " +:+ token).
  { unfold fetchUser.
    match goal with
    | |- context [httpClient p ?r] => set (get := r)
    end.
    exists get. split; [|done].
    destruct (httpClient p get) as [resp|]; [|done].
    destruct (Body resp) as [body|]; [|done].
    destruct (negb _); [done|].
    by destruct (unmarshalUser body). }
  destruct Hfetch as (get & Hget & Hurl & Hauth).
  destruct (fetchUser unmarshalUser p token) as [[user|e] sent'];
    simpl in Hget; subst sent'; simpl;
    intros [->|[->|?%elem_of_nil]%elem_of_cons]%elem_of_cons Hm;
    try congruence;
    exists (String ch code), token; by rewrite Hec.
Qed.

(** A profile that [Exchange] returns names the provider discord and
    carries the id, the user name and the email of the Discord user;
    its display name is the global name, or the user name when there is
    no global name; its avatar URL is empty when the user has no avatar
    and otherwise the CDN address built from the id and the avatar. *)
Theorem discord_Exchange_profile
    (p : Provider) (params : gmap string string)
    (result : AuthResult) (sent : list HTTPRequest) :
  Exchange unmarshalToken unmarshalUser p params = (Ok result, sent) ->
  exists du post get,
    sent = [post; get] /\ Method post = "POST" /\ Method get = "GET"
    /\ (exists resp body, httpClient p get = Some resp
          /\ Body resp = Some body /\ unmarshalUser body = Some du)
    /\ ProviderName (User result) = "discord"
    /\ ProviderID (User result) = du_ID du
    /\ Username (User result) = du_Username du
    /\ Email (User result) = du_Email du
    /\ DisplayName (User result)
       = (if bool_decide (du_GlobalName du = EmptyString)
          then du_Username du else du_GlobalName du)
    /\ (du_Avatar du = EmptyString -> AvatarURL (User result) = EmptyString)
    /\ (du_Avatar du ≠ EmptyString ->
        AvatarURL (User result)
        = "https://cdn.discordapp.com/avatars/" +:+ du_ID du +:+ "/"
          +:+ du_Avatar du +:+ ".png").
Proof.
  unfold Exchange. destruct (params !! "code") as [code|]; [|done].
  destruct code as [|ch code]; [done|].
  destruct (exchangeCode_sent p (String ch code))
    as (post & Hsent & Hpost & _).
  destruct (exchangeCode unmarshalToken p (String ch code))
    as [[token|e] sent0]; simpl in Hsent; subst sent0; [|done].
  unfold fetchUser.
  match goal with
  | |- context [httpClient p ?r] => set (get := r)
  end.
  destruct (httpClient p get) as [resp|] eqn:Hdo; [|done].
  destruct (Body resp) as [body|] eqn:Hbody; [|done].
  destruct (negb _); [done|].
  destruct (unmarshalUser body) as [du|] eqn:Hdu; [|done].
  intros [= <- <-]. exists du, post, get. simpl.
  split; [done|]. split; [done|]. split; [done|].
  split; [by exists resp, body|]. do 5 (split; [done|]). split.
  - intros ->. done.
  - intros Hav. by rewrite bool_decide_eq_false_2.
Qed.

End WithJSON.

End discord_properties.

(** * The further properties at the scenarios *)

Section FurtherScenarios.
Import scenario.

Lemma NewRegistry_website_admin :
  client.NewRegistry [website; admin] = Ok clients.
Proof. by vm_compute. Defined.

Lemma NoDup_APIKey_website_admin : NoDup (APIKey <$> [website; admin]).
Proof. apply (bool_decide_unpack _). by vm_compute. Defined.

Lemma website_admin_not (id : string) :
  id ≠ "website" -> id ≠ "admin" ->
  forall c, c ∈ [website; admin] -> ID c ≠ id.
Proof.
  intros H1 H2 c [->|[->|Hc%elem_of_nil]%elem_of_cons]%elem_of_cons;
    simpl; congruence.
Defined.

(** [website] and [admin] have two ids and a registry; [website] twice
    has none, and the error names the id. *)
Lemma NewRegistry_unique_ids_witness :
  is_Ok (client.NewRegistry [website; admin])
  /\ errors_Is (Wrapped ErrDuplicateClientID "website") ErrDuplicateClientID
     = true
  /\ exists c, c ∈ [website; twin; website]
       /\ client.NewRegistry [website; twin; website]
          = Err (Wrapped ErrDuplicateClientID (ID c)).
Proof.
  split.
  - apply (proj1 (client_properties.NewRegistry_unique_ids [website; admin])).
    apply (bool_decide_unpack _). by vm_compute.
  - destruct (proj2 (client_properties.NewRegistry_unique_ids
                       [website; twin; website])
                (Wrapped ErrDuplicateClientID "website") eq_refl)
      as [His (c & Hc & He)].
    split; [exact His|]. exists c. split; [exact Hc|]. by rewrite <- He.
Defined.

(** The registry of S1 knows admin and does not know nobody. *)
Lemma Get_registered_witness :
  client.Get clients "admin" = Ok admin
  /\ client.Get clients "nobody" = Err (Sentinel ErrClientNotFound).
Proof.
  split.
  - apply (proj1 (client_properties.Get_registered [website; admin] clients
                    "admin" NewRegistry_website_admin)).
    split; [|done]. apply list_elem_of_further, list_elem_of_here.
  - apply (proj2 (client_properties.Get_registered [website; admin] clients
                    "nobody" NewRegistry_website_admin)).
    by apply website_admin_not.
Defined.

(** The two entries of the registry of S1, scanned in either order. *)
Lemma GetByAPIKey_any_order_witness :
  client.scanAPIKeys
    [("web-api-key-secret", website); ("admin-api-key-secret", admin)]
    "admin-api-key-secret"
  = client.GetByAPIKey clients "admin-api-key-secret"
  /\ client.scanAPIKeys
       [("admin-api-key-secret", admin); ("web-api-key-secret", website)]
       "admin-api-key-secret"
     = client.GetByAPIKey clients "admin-api-key-secret".
Proof.
  split; apply client_properties.GetByAPIKey_any_order; vm_compute;
    first [reflexivity | apply perm_swap].
Defined.

(** The key of [admin] leads to [admin]; a guessed key is refused. *)
Lemma GetByAPIKey_registered_keys_witness :
  client.GetByAPIKey clients "admin-api-key-secret" = Ok admin
  /\ client.GetByAPIKey clients "guess" = Err (Sentinel ErrInvalidAPIKey).
Proof.
  split.
  - apply (proj2 (proj2 (proj2
             (client_properties.GetByAPIKey_registered_keys
                [website; admin] clients "admin-api-key-secret"
                NewRegistry_website_admin)))
             NoDup_APIKey_website_admin admin).
    apply list_elem_of_further, list_elem_of_here.
  - destruct (client_properties.GetByAPIKey_registered_keys
                [website; admin] clients "guess" NewRegistry_website_admin)
      as (_ & Hok & Herr & _).
    destruct (client.GetByAPIKey clients "guess") as [c|e].
    + destruct (Hok c eq_refl)
        as [[->|[->|Hc%elem_of_nil]%elem_of_cons]%elem_of_cons Hk]; done.
    + by rewrite (Herr e eq_refl).
Defined.

(** The callback of [website] is allowed as it is written and not with
    a slash behind it; [admin] does not allow steam; nobody is not a
    client. *)
Lemma Validate_exact_match_witness :
  client.ValidateCallback clients "website"
    "https://example.com/auth/callback" = Ok tt
  /\ client.ValidateCallback clients "website"
       "https://example.com/auth/callback/"
     = Err (Sentinel ErrCallbackNotAllowed)
  /\ client.ValidateProvider clients "admin" "steam"
     = Err (Sentinel ErrProviderNotAllowed)
  /\ client.ValidateProvider clients "nobody" "steam"
     = Err (Sentinel ErrClientNotFound).
Proof.
  split; [|split; [|split]].
  - apply (proj1 (client_properties.Validate_exact_match [website; admin]
                    clients "website" _ NewRegistry_website_admin)).
    exists website. split; [apply list_elem_of_here|]. split; [done|].
    apply list_elem_of_here.
  - apply (proj2 (proj2 (proj2
             (client_properties.Validate_exact_match [website; admin]
                clients "website" _ NewRegistry_website_admin)))
             website (list_elem_of_here _ _) eq_refl).
    intros [Heq|Hin%elem_of_nil]%elem_of_cons; done.
  - apply (proj2 (proj2 (proj2
             (client_properties.Validate_exact_match [website; admin]
                clients "admin" _ NewRegistry_website_admin)))
             admin (list_elem_of_further _ _ _ (list_elem_of_here _ _))
             eq_refl).
    intros [Heq|Hin%elem_of_nil]%elem_of_cons; done.
  - apply (proj1 (proj2 (proj2
             (client_properties.Validate_exact_match [website; admin]
                clients "nobody" "steam" NewRegistry_website_admin)))).
    by apply website_admin_not.
Defined.

(** github can be registered beside discord and steam; steam cannot be
    registered again. *)
Lemma Register_Get_witness :
  (exists r', auth.Register providers (stub "github" tactical) = Ok r'
     /\ auth.Get r' "github" = Ok (stub "github" tactical)
     /\ auth.Get r' "steam" = auth.Get providers "steam")
  /\ errors_Is (Wrapped ErrDuplicateProvider "steam") ErrDuplicateProvider
     = true.
Proof.
  split.
  - destruct (auth_properties.Register_Get providers (stub "github" tactical))
      as (Hfree & Hfound & _).
    destruct (auth.Register providers (stub "github" tactical))
      as [r'|e] eqn:Hreg.
    + exists r'. split; [done|]. destruct (Hfound r' eq_refl) as [Hget Hrest].
      split; [exact Hget|]. by apply Hrest.
    + exfalso. apply Hfree. by vm_compute.
  - apply (proj2 (proj2 (auth_properties.Register_Get providers
                           (stub "steam" tactical)))).
    by vm_compute.
Defined.

(** GET /providers of S1 lists discord before steam, also when the
    registry gives steam first. *)
Lemma Providers_sorted_witness :
  "discord" ∈ handler.names_Body (handler.Providers providers)
  /\ handler.sort_Strings ["steam"; "discord"]
     = handler.names_Body (handler.Providers providers).
Proof.
  destruct (auth_properties.Providers_sorted providers)
    as (_ & _ & _ & Hnames & Horder).
  split.
  - apply Hnames. by vm_compute.
  - apply Horder. vm_compute. first [reflexivity | apply perm_swap].
Defined.

(** The token of S1 is a payload segment and its signature. *)
Lemma Validate_accepts_only_signed_witness :
  let sp := state.stamp (statePayload "discord")
              (hex_EncodeToString (take 16 entropy)) (noon + 5 * Minute) in
  exists encoded data,
    stateToken "discord"
    = encoded +:+ "." +:+ state.sign L stateService encoded
    /\ cut_dot encoded = None
    /\ DecodeString (RawURLEncoding L) encoded = Some data
    /\ Unmarshal (json_StatePayload L) data = Some sp
    /\ state.now stateService noon <= sp_ExpiresAt sp.
Proof.
  intros sp.
  apply (state_properties.Validate_accepts_only_signed L stateService
           (stateToken "discord") noon sp).
  by vm_compute.
Defined.

(** A payload segment with a signature that is not its own. *)
Lemma Validate_rejects_other_signature_witness :
  state.Validate L stateService ("abcd" +:+ "." +:+ "00") noon
  = Err (Sentinel ErrInvalidState).
Proof.
  apply (state_properties.Validate_rejects_other_signature L stateService
           "abcd" "00" noon); [reflexivity | by vm_compute].
Defined.

(** A token without a dot. *)
Lemma Validate_failures_witness :
  state.Validate L stateService "garbage" noon
  = Err (Sentinel ErrMalformedState).
Proof.
  apply (proj1 (state_properties.Validate_failures L stateService
                  "garbage" noon)).
  reflexivity.
Defined.



(** A code that is not of the encoding, and one of two bytes. *)
Lemma Decode_failures_witness :
  exchange.Decode L codec "zz" noon = Err (Sentinel ErrInvalidExchangeCode)
  /\ exchange.Decode L codec "abcd" noon
     = Err (Sentinel ErrInvalidExchangeCode).
Proof.
  destruct (exchange_properties.Decode_failures L codec "zz" noon)
    as (_ & Hnone & _).
  destruct (exchange_properties.Decode_failures L codec "abcd" noon)
    as (_ & _ & Hshort & _).
  split; [apply Hnone; by vm_compute|].
  apply (Hshort [Byte.xab; Byte.xcd]); [by vm_compute|].
  apply Nat.ltb_lt. by vm_compute.
Defined.


(** The code of S1 and the one made next differ. *)
Lemma successive_codes_differ_witness :
  exchangeCode ≠ nextExchangeCode.
Proof.
  apply (exchange_properties.successive_codes_differ L codec websitePayload
           websitePayload entropy (drop 12 entropy)
           (drop 12 (drop 12 entropy)) noon noon exchangeCode
           nextExchangeCode).
  - apply reference_facts.base16_lossless.
  - by vm_compute.
  - by vm_compute.
  - by vm_compute.
Defined.

(** GET /exchange without a code, and with a code and a header that is
    no Bearer header. *)
Lemma Exchange_request_checks_witness :
  handler.Exchange L clients codec
    (request "" [] (Some "Bearer web-api-key-secret")) noon
  = handler.writeError 400 "missing code parameter"
  /\ handler.Exchange L clients codec
       (request "" [("code", exchangeCode)] (Some "Basic d2ViOmtleQ")) noon
     = handler.writeError 401 "missing or invalid Authorization header".
Proof.
  split.
  - apply (proj1 (exchange_handler_properties.Exchange_request_checks L
                    clients codec
                    (request "" [] (Some "Bearer web-api-key-secret"))
                    noon)).
    by vm_compute.
  - apply (proj2 (exchange_handler_properties.Exchange_request_checks L
                    clients codec
                    (request "" [("code", exchangeCode)]
                       (Some "Basic d2ViOmtleQ")) noon)).
    + by vm_compute.
    + right. left. by vm_compute.
Defined.

(** S1 and S2 from the code on: [website] redeems its code within 30
    seconds, [admin] is refused, and after 30 seconds the code is
    expired. *)
Lemma encoded_code_at_exchange_witness :
  handler.Exchange L clients (exchange.SetNow codec systemClock)
    (request "" [("code", exchangeCode)] (Some "Bearer web-api-key-secret"))
    (noon + 10 * Second)
  = handler.writeJSON 200 {| User := tactical |}
  /\ handler.Code
       (handler.Exchange L clients (exchange.SetNow codec systemClock)
          (request "" [("code", exchangeCode)]
             (Some "Bearer admin-api-key-secret"))
          (noon + 10 * Second)) = 403
  /\ handler.Exchange L clients (exchange.SetNow codec systemClock)
       (request "" [("code", exchangeCode)]
          (Some "Bearer web-api-key-secret"))
       (noon + 31 * Second)
     = handler.writeError 400 "exchange code expired".
Proof.
  pose proof reference_json_facts.fields_ExchangePayload_coerces as Hjson.
  assert (Hvalid : valid_ExchangePayload websitePayload = true)
    by (by vm_compute).
  assert (Henc : exchange.Encode L (exchange.SetNow codec systemClock)
                   websitePayload entropy noon
                 = (Ok exchangeCode, drop 12 entropy)) by (by vm_compute).
  split; [|split].
  - apply (exchange_handler_properties.encoded_code_at_exchange L encKey
             codec systemClock websitePayload entropy (drop 12 entropy) noon
             (noon + 10 * Second) exchangeCode "web-api-key-secret" clients
             website
             (request "" [("code", exchangeCode)]
                (Some "Bearer web-api-key-secret"))
             reference_facts.base16_lossless
             (reference_facts.keyed_prefix_correct encKey) Hjson Hvalid
             eq_refl Henc);
      try (by vm_compute); done.
  - apply (exchange_handler_properties.encoded_code_at_exchange L encKey
             codec systemClock websitePayload entropy (drop 12 entropy) noon
             (noon + 10 * Second) exchangeCode "admin-api-key-secret" clients
             admin
             (request "" [("code", exchangeCode)]
                (Some "Bearer admin-api-key-secret"))
             reference_facts.base16_lossless
             (reference_facts.keyed_prefix_correct encKey) Hjson Hvalid
             eq_refl Henc);
      try (by vm_compute); done.
  - apply (exchange_handler_properties.encoded_code_at_exchange L encKey
             codec systemClock websitePayload entropy (drop 12 entropy) noon
             (noon + 31 * Second) exchangeCode "web-api-key-secret" clients
             website
             (request "" [("code", exchangeCode)]
                (Some "Bearer web-api-key-secret"))
             reference_facts.base16_lossless
             (reference_facts.keyed_prefix_correct encKey) Hjson Hvalid
             eq_refl Henc);
      try (by vm_compute); done.
Defined.

(** S1, the first request: the redirect was given to a client that
    exists and lists the redirect URI and the provider. *)
Lemma Authorize_redirects_only_checked_requests_witness :
  exists c,
    client.Get clients
      (handler.Values_Get (handler.Query authorizeRequest) "client_id") = Ok c
    /\ handler.Values_Get (handler.Query authorizeRequest) "redirect_uri"
       ∈ AllowedCallbacks c
    /\ handler.PathValue authorizeRequest "provider" ∈ AllowedProviders c.
Proof.
  destruct (flow_properties.Authorize_redirects_only_checked_requests L
              clients providers stateService authorizeRequest entropy
              (drop 16 entropy) noon
              (handler.Authorize L clients providers stateService
                 authorizeRequest entropy noon).1)
    as (c & provider & token & authURL & Hc & Huri & _ & Hprov & _);
    [by vm_compute | by vm_compute |].
  by exists c.
Defined.

(** A redirect URI that [website] does not list. *)
Lemma Authorize_refusals_witness :
  handler.Authorize L clients providers stateService
    (request "discord"
       [("client_id", "website");
        ("redirect_uri", "https://evil.example/callback")] None)
    entropy noon
  = (handler.writeError 400 "redirect_uri not allowed", entropy).
Proof.
  apply (proj2 (flow_properties.Authorize_refusals L clients providers
                  stateService
                  (request "discord"
                     [("client_id", "website");
                      ("redirect_uri", "https://evil.example/callback")]
                     None)
                  entropy noon) website);
    try (by vm_compute).
  intros [Heq|Hin%elem_of_nil]%elem_of_cons; [|done].
  by vm_compute in Heq.
Defined.

(** S1, the callback: the browser goes to the redirect URI of the
    state. *)
Lemma Callback_redirects_to_state_redirect_witness :
  exists sp code redirectURL,
    state.Validate L stateService
      (handler.Values_Get (handler.Query callbackRequest) "state")
      (noon + 60 * Second) = Ok sp
    /\ url_set_query L (sp_RedirectURI sp) "code" code = Some redirectURL
    /\ (handler.Callback L providers stateService codec callbackRequest
          (drop 16 entropy) (noon + 60 * Second) (noon + 61 * Second)).1
       = handler.Redirect redirectURL 302.
Proof.
  destruct (flow_properties.Callback_redirects_to_state_redirect L providers
              stateService codec callbackRequest (drop 16 entropy)
              (drop 12 (drop 16 entropy)) (noon + 60 * Second)
              (noon + 61 * Second)
              (handler.Callback L providers stateService codec callbackRequest
                 (drop 16 entropy) (noon + 60 * Second)
                 (noon + 61 * Second)).1)
    as (sp & provider & result & code & redirectURL & Hval & _ & _ & _
        & Hurl & Hresp);
    [by vm_compute | by vm_compute |].
  exists sp, code, redirectURL.
  split; [exact Hval|]. split; [exact Hurl | exact Hresp].
Defined.

(** A provider whose exchange fails: 502. *)
Lemma Callback_failures_witness :
  handler.Code
    (handler.Callback L failingProviders stateService codec callbackRequest
       entropy noon noon).1 = 502.
Proof.
  apply (proj1 (flow_properties.Callback_failures L failingProviders
                  stateService codec callbackRequest entropy noon noon)).
  exists (state.stamp (statePayload "discord")
            (hex_EncodeToString (take 16 entropy)) (noon + 5 * Minute)),
    (failing "discord"), (Wrapped ErrProviderExchange "status 500").
  split; [by vm_compute|]. split; [by vm_compute|]. split; by vm_compute.
Defined.

(** A state without a dot. *)
Lemma Callback_checks_state_first_witness :
  handler.Callback L providers stateService codec
    (request "discord" [("state", "garbage"); ("code", "auth-code")] None)
    entropy noon noon
  = (handler.writeError 400 "invalid state token", entropy).
Proof.
  apply (proj1 (proj2 (flow_properties.Callback_checks_state_first L
                         providers stateService codec
                         (request "discord"
                            [("state", "garbage"); ("code", "auth-code")]
                            None)
                         entropy noon noon))); by vm_compute.
Defined.

(** S1 from the first request to the second redirect. *)
Lemma authorized_flow_returns_to_checked_redirect_witness :
  exists redirectURL,
    url_set_query L "https://example.com/auth/callback" "code"
      nextExchangeCode = Some redirectURL
    /\ handler.Callback L providers stateService codec callbackRequest
         (drop 12 entropy) (noon + 60 * Second) noon
       = (handler.Redirect redirectURL 302, drop 12 (drop 12 entropy)).
Proof.
  destruct (flow_properties.authorized_flow_returns_to_checked_redirect L
              clients providers stateService codec authorizeRequest entropy
              (drop 16 entropy) noon
              (handler.Authorize L clients providers stateService
                 authorizeRequest entropy noon).1)
    as (c & token & _ & _ & Hgen & Hflow).
  - apply reference_facts.base16_lossless.
  - apply reference_facts.base16_no_dot.
  - apply reference_json_facts.fields_StatePayload_coerces.
  - by vm_compute.
  - by vm_compute.
  - by vm_compute.
  - by vm_compute.
  - by vm_compute.
  - assert (Htoken : (Ok token, drop 16 entropy)
                     = (Ok (stateToken "discord") : res string,
                        drop 16 entropy)).
    { rewrite <- Hgen. by vm_compute. }
    injection Htoken as ->.
    eexists. split; [reflexivity|].
    etrans.
    { apply (Hflow callbackRequest (drop 12 entropy) (noon + 60 * Second)
               noon (stub "discord" tactical) {| User := tactical |});
        by vm_compute. }
    by vm_compute.
Defined.

(** The claimed_id of a Steam login, alone and with a slash behind
    it. *)
Lemma extractSteamID_canonical_witness :
  steam.extractSteamID steamClaimedID = Ok "76561198012345678"
  /\ steam.extractSteamID
       "http://steamcommunity.com/openid/id/76561198012345678/"
     = Ok "76561198012345678".
Proof.
  split.
  - apply (proj1 (steam_properties.extractSteamID_canonical
                    "76561198012345678" EmptyString
                    ltac:(done) eq_refl I)).
  - apply (proj2 (steam_properties.extractSteamID_canonical
                    "76561198012345678" "/" ltac:(done) eq_refl eq_refl)).
Defined.

(** The assertion of a Steam login: the state is not passed on, the
    claimed_id is, and Steam accepts. *)
Lemma validateAssertion_request_witness :
  exists post,
    (steam.validateAssertion steamProvider steamParams).2 = [post]
    /\ steam.Values post !! "state" = None
    /\ steam.Values post !! "openid.claimed_id" = Some steamClaimedID
    /\ steam.Values post !! "openid.mode" = Some "check_authentication"
    /\ (steam.validateAssertion steamProvider steamParams).1 = Ok tt.
Proof.
  destruct (steam_properties.validateAssertion_request steamProvider
              steamParams)
    as (post & Hsent & Hpost & _ & Hmode & Hother & Hok & _).
  exists post. split; [exact Hsent|].
  split; [by rewrite Hother|]. split; [by rewrite Hother|].
  split; [exact Hmode|]. apply Hok.
  exists {| steam.StatusCode := 200; steam.Body := Some "is_valid:true" |},
    "is_valid:true".
  split; [|done].
  change (steam.httpClient steamProvider post) with (steamBackend post).
  unfold steamBackend. by rewrite bool_decide_eq_true_2.
Defined.

(** A Steam callback without a claimed_id sends nothing; with the
    claimed_id of the login, the summary is asked for its SteamID. *)
Lemma Exchange_fetches_only_asserted_witness :
  steam.Exchange unmarshalVictim steamProvider ∅
  = (Err (Sentinel ErrMissingProviderParams), [])
  /\ forall req,
       req ∈ (steam.Exchange unmarshalVictim steamProvider steamParams).2 ->
       steam.Method req = "GET" ->
       steam.Values req !! "steamids" = Some "76561198012345678".
Proof.
  split.
  - apply (proj1 (steam_properties.Exchange_fetches_only_asserted
                    unmarshalVictim steamProvider ∅)).
    by left.
  - intros req Hin Hget.
    destruct (proj2 (steam_properties.Exchange_fetches_only_asserted
                       unmarshalVictim steamProvider steamParams)
                req Hin Hget)
      as (_ & claimedID & steamID & Hc & Hid & _ & Hids & _).
    assert (Some steamClaimedID = Some claimedID) as [= <-]
      by (rewrite <- Hc; by vm_compute).
    assert (Ok "76561198012345678" = (Ok steamID : res string)) as [= <-]
      by (rewrite <- Hid; by vm_compute).
    exact Hids.
Defined.

(** The profile of the Steam login. *)
Lemma steam_Exchange_profile_witness :
  exists result sent,
    steam.Exchange unmarshalVictim steamProvider steamParams
    = (Ok result, sent)
    /\ ProviderName (User result) = "steam"
    /\ DisplayName (User result) = Username (User result)
    /\ Email (User result) = EmptyString
    /\ length sent = 2%nat.
Proof.
  assert (Hex : exists result sent,
            steam.Exchange unmarshalVictim steamProvider steamParams
            = (Ok result, sent)).
  { vm_compute. eexists _, _. reflexivity. }
  destruct Hex as (result & sent & Hex). exists result, sent.
  destruct (steam_properties.steam_Exchange_profile unmarshalVictim
              steamProvider steamParams result sent Hex)
    as (Hname & Hdisplay & Hemail & post & get & -> & _).
  done.
Defined.

(** The token request of a Discord login, and the token. *)
Lemma exchangeCode_request_witness :
  exists post,
    (discord.exchangeCode unmarshalAccess discordProvider "auth-code").2
    = [post]
    /\ discord.Form post !! "code" = Some "auth-code"
    /\ discord.Form post !! "grant_type" = Some "authorization_code"
    /\ (discord.exchangeCode unmarshalAccess discordProvider "auth-code").1
       = Ok "access-token".
Proof.
  destruct (discord_properties.exchangeCode_request unmarshalAccess
              discordProvider "auth-code")
    as (post & Hsent & Hpost & _ & _ & Hcode & Hgrant & _ & _ & _ & Hok & _).
  exists post. split; [exact Hsent|]. split; [exact Hcode|].
  split; [exact Hgrant|]. apply Hok. split; [done|].
  exists {| discord.StatusCode := 200; discord.Body := Some "token" |},
    "token",
    {| discord.AccessToken := "access-token";
       discord.TokenType := "Bearer" |}.
  split; [|done].
  change (discord.httpClient discordProvider post) with (discordBackend post).
  unfold discordBackend. by rewrite bool_decide_eq_true_2.
Defined.

(** A Discord callback without a code sends nothing; with a code, the
    user is asked for with the token that the code bought. *)
Lemma Exchange_fetches_only_with_token_witness :
  discord.Exchange unmarshalAccess unmarshalCommander discordProvider ∅
  = (Err (Sentinel ErrMissingProviderParams), [])
  /\ forall req,
       req ∈ (discord.Exchange unmarshalAccess unmarshalCommander
                discordProvider discordParams).2 ->
       discord.Method req = "GET" ->
       discord.Authorization req = "Bearer access-token".
Proof.
  split.
  - apply (proj1 (discord_properties.Exchange_fetches_only_with_token
                    unmarshalAccess unmarshalCommander discordProvider ∅)).
    by left.
  - intros req Hin Hget.
    destruct (proj2 (discord_properties.Exchange_fetches_only_with_token
                       unmarshalAccess unmarshalCommander discordProvider
                       discordParams) req Hin Hget)
      as (code & token & Hc & Htoken & _ & _ & Hauth).
    assert (Some "auth-code" = Some code) as [= <-]
      by (rewrite <- Hc; by vm_compute).
    assert (Ok "access-token" = (Ok token : res string)) as [= <-]
      by (rewrite <- Htoken; by vm_compute).
    exact Hauth.
Defined.

(** The profile of the Discord login is the user of S1. *)
Lemma discord_Exchange_profile_witness :
  exists result sent,
    discord.Exchange unmarshalAccess unmarshalCommander discordProvider
      discordParams = (Ok result, sent)
    /\ ProviderName (User result) = "discord"
    /\ DisplayName (User result) = "Tactical Commander"
    /\ AvatarURL (User result)
       = "https://cdn.discordapp.com/avatars/987654321/abc.png".
Proof.
  assert (Hex : exists result sent,
            discord.Exchange unmarshalAccess unmarshalCommander
              discordProvider discordParams = (Ok result, sent)).
  { vm_compute. eexists _, _. reflexivity. }
  destruct Hex as (result & sent & Hex). exists result, sent.
  destruct (discord_properties.discord_Exchange_profile unmarshalAccess
              unmarshalCommander discordProvider discordParams result sent
              Hex)
    as (du & post & get & _ & _ & _ & (resp & body & _ & _ & Hdu) & Hname
        & _ & _ & _ & Hdisplay & _ & Havatar).
  injection Hdu as <-.
  split; [exact Hex|]. split; [exact Hname|].
  split; [exact Hdisplay | by apply Havatar].
Defined.

End FurtherScenarios.
